(** * python-dbusx: the [_dbus] extension module

    A shallow embedding of the name validators, the signature engine, the
    numeric range table and the argument codec of [lib/dbusx/_dbus.c],
    together with the properties of the specification that concern them.

    Conventions.
    - A C string is the list of its bytes; the byte that follows it in
      memory is the terminator.  A function that only reads its argument
      takes the bytes; a function that writes through the pointer takes
      the memory block and an index into it.
    - [int] counters are [Z]; indices into memory are [nat].
    - CPython objects are values of [pyobj]; a C function that can raise
      returns a [result].
    - libdbus message iterators are modelled by the tree of values that
      they build or walk ([wire]). *)

From stdpp Require Import base list.
From Stdlib Require Import ZArith Lia Ascii String Bool.

Set Warnings "-register-all".

Open Scope Z_scope.

(** ** Characters and C strings *)

Definition NUL : ascii := "000"%char.

Definition code (c : ascii) : Z := Z.of_N (N_of_ascii c).

Definition bytes (s : string) : list ascii := list_ascii_of_string s.

(** <ctype.h> in the C locale. *)
Definition isupper (c : ascii) : bool := (65 <=? code c) && (code c <=? 90).
Definition islower (c : ascii) : bool := (97 <=? code c) && (code c <=? 122).
Definition isalpha (c : ascii) : bool := isupper c || islower c.
Definition isdigit (c : ascii) : bool := (48 <=? code c) && (code c <=? 57).
Definition isalnum (c : ascii) : bool := isalpha c || isdigit c.

(** [name[i]] for a string [name] that is only read: the bytes of the
    string, then the terminator; [name[-1]] is whatever byte precedes the
    string in memory. *)
Definition char_at (before : ascii) (name : list ascii) (i : Z) : ascii :=
  if i <? 0 then before else nth (Z.to_nat i) name NUL.

(** [strlen]: the number of bytes before the first terminator. *)
Fixpoint strlen (s : list ascii) : nat :=
  match s with
  | [] => O
  | c :: s' => if Ascii.eqb c NUL then O else S (strlen s')
  end.

(** The C string stored at the start of [s]. *)
Definition cstr (s : list ascii) : list ascii := take (strlen s) s.

Definition nul_free (s : list ascii) : Prop := ~ In NUL s.

(** Modelled from the spec: [DBUS_MAXIMUM_NAME_LENGTH] of the libdbus
    headers, the 255 of the name validators. *)
Definition DBUS_MAXIMUM_NAME_LENGTH : Z := 255.

(** ** Name validators *)

Module Names.

(** The test of the loop body of [_check_bus_name] at index [i]. *)
Definition bus_name_char_ok (before : ascii) (name : list ascii) (i : Z) : bool :=
  let c := char_at before name i in
  isalpha c || Ascii.eqb c "_" || Ascii.eqb c "-"
  || (Ascii.eqb c "." && negb (Ascii.eqb (char_at before name (i-1)) ".")
                      && negb (Ascii.eqb (char_at before name (i-1)) ":"))
  || (Ascii.eqb c ":" && (i =? 0))
  || (isdigit c && (0 <? i)
      && (negb (Ascii.eqb (char_at before name (i-1)) ".")
          || Ascii.eqb (char_at before name 0) ":")).

(** The [for] loop of [_check_bus_name]: [None] is the [return 0] of the
    body, [Some (i, ndots)] the state when the loop condition fails. *)
Fixpoint bus_name_loop (fuel : nat) (before : ascii) (name : list ascii)
    (i ndots : Z) : option (Z * Z) :=
  if Ascii.eqb (char_at before name i) NUL then Some (i, ndots) else
  match fuel with
  | O => None
  | S fuel' =>
      if negb (bus_name_char_ok before name i) then None
      else bus_name_loop fuel' before name (i + 1)
             (if Ascii.eqb (char_at before name i) "." then ndots + 1 else ndots)
  end.

Definition _check_bus_name (before : ascii) (name : list ascii) : bool :=
  if Ascii.eqb (char_at before name 0) "." then false else
  match bus_name_loop (List.length name) before name 0 0 with
  | None => false
  | Some (i, ndots) =>
      if Ascii.eqb (char_at before name (i-1)) "." || (ndots =? 0)
         || (DBUS_MAXIMUM_NAME_LENGTH <? i)
      then false else true
  end.

(** The test of the loop body of [_check_path] at index [i]. *)
Definition path_char_ok (path : list ascii) (i : Z) : bool :=
  let c := char_at NUL path i in
  isalnum c || Ascii.eqb c "_"
  || (Ascii.eqb c "/" && negb (Ascii.eqb (char_at NUL path (i-1)) "/")).

Fixpoint path_loop (fuel : nat) (path : list ascii) (i : Z) : option Z :=
  if Ascii.eqb (char_at NUL path i) NUL then Some i else
  match fuel with
  | O => None
  | S fuel' =>
      if negb (path_char_ok path i) then None
      else path_loop fuel' path (i + 1)
  end.

Definition _check_path (path : list ascii) : bool :=
  if negb (Ascii.eqb (char_at NUL path 0) "/") then false else
  match path_loop (List.length path) path 1 with
  | None => false
  | Some i =>
      if (1 <? i) && Ascii.eqb (char_at NUL path (i-1)) "/" then false
      else true
  end.

(** The test of the loop body of [_check_interface] at index [i]. *)
Definition interface_char_ok (interface : list ascii) (i : Z) : bool :=
  let c := char_at NUL interface i in
  isalpha c || Ascii.eqb c "_"
  || (Ascii.eqb c "." && negb (Ascii.eqb (char_at NUL interface (i-1)) "."))
  || (isdigit c && negb (Ascii.eqb (char_at NUL interface (i-1)) ".")).

Fixpoint interface_loop (fuel : nat) (interface : list ascii) (i ndots : Z)
    : option (Z * Z) :=
  if Ascii.eqb (char_at NUL interface i) NUL then Some (i, ndots) else
  match fuel with
  | O => None
  | S fuel' =>
      if negb (interface_char_ok interface i) then None
      else interface_loop fuel' interface (i + 1)
             (if Ascii.eqb (char_at NUL interface i) "." then ndots + 1 else ndots)
  end.

Definition _check_interface (interface : list ascii) : bool :=
  if negb (isalpha (char_at NUL interface 0)
           || Ascii.eqb (char_at NUL interface 0) "_") then false else
  match interface_loop (List.length interface) interface 1 0 with
  | None => false
  | Some (i, ndots) =>
      if Ascii.eqb (char_at NUL interface (i-1)) "." || (ndots =? 0)
         || (DBUS_MAXIMUM_NAME_LENGTH <? i)
      then false else true
  end.

(** The test of the loop body of [_check_member] at index [i]. *)
Definition member_char_ok (member : list ascii) (i : Z) : bool :=
  let c := char_at NUL member i in
  isalnum c || Ascii.eqb c "_".

Fixpoint member_loop (fuel : nat) (member : list ascii) (i : Z) : option Z :=
  if Ascii.eqb (char_at NUL member i) NUL then Some i else
  match fuel with
  | O => None
  | S fuel' =>
      if negb (member_char_ok member i) then None
      else member_loop fuel' member (i + 1)
  end.

Definition _check_member (member : list ascii) : bool :=
  if negb (isalpha (char_at NUL member 0)
           || Ascii.eqb (char_at NUL member 0) "_") then false else
  match member_loop (List.length member) member 1 with
  | None => false
  | Some i => if DBUS_MAXIMUM_NAME_LENGTH <? i then false else true
  end.

End Names.

(** ** Python exceptions *)

(** The exception left pending when a function of the module fails.
    [Error] is the module's own exception type ([_dbus.Error]);
    [ArgumentError] stands for a failure of [PyArg_ParseTuple]; [NoError]
    is a failure return with no exception set; [OutOfFuel] is not a
    Python exception: a recursion of the model ran out of budget.
    [SystemError] is what the interpreter raises in the place of a result
    that a function of the module returns while an exception is pending. *)
Inductive exn : Type :=
  | TypeError (msg : string)
  | ValueError (msg : string)
  | Error (msg : string)
  | AssertionError (msg : string)
  | OverflowError (msg : string)
  | SystemError (msg : string)
  | UnicodeDecodeError
  | MemoryError
  | ArgumentError
  | NoError
  | OutOfFuel.

Inductive result (A : Type) : Type :=
  | Ok (a : A)
  | Raise (e : exn).
Arguments Ok {A} a.
Arguments Raise {A} e.

Definition bind {A B : Type} (r : result A) (k : A -> result B) : result B :=
  match r with
  | Ok a => k a
  | Raise e => Raise e
  end.

Notation "'do' x <- r ; k" := (bind r (fun x => k))
  (at level 10, x name, r at level 100, k at level 200).

(** The ["s"] format of [PyArg_ParseTuple]: the UTF-8 bytes of a [str]
    argument as a C string; a [str] with an embedded NUL is refused. *)
Definition PyArg_Parse_s (s : string) : result (list ascii) :=
  if existsb (Ascii.eqb NUL) (bytes s) then Raise ArgumentError
  else Ok (bytes s).

(** Well-formed UTF-8, as the decoder of CPython accepts it: shortest
    forms only, no surrogates, nothing above U+10FFFF. *)
Definition byte_in (lo hi : Z) (c : ascii) : bool :=
  (lo <=? code c) && (code c <=? hi).

Fixpoint utf8_valid (s : list ascii) : bool :=
  match s with
  | [] => true
  | b0 :: r =>
      if byte_in 0x00 0x7f b0 then utf8_valid r
      else if byte_in 0xc2 0xdf b0 then
        match r with
        | b1 :: r' => byte_in 0x80 0xbf b1 && utf8_valid r'
        | _ => false
        end
      else if byte_in 0xe0 0xef b0 then
        match r with
        | b1 :: b2 :: r' =>
            (if byte_in 0xe0 0xe0 b0 then byte_in 0xa0 0xbf b1
             else if byte_in 0xed 0xed b0 then byte_in 0x80 0x9f b1
             else byte_in 0x80 0xbf b1)
            && byte_in 0x80 0xbf b2 && utf8_valid r'
        | _ => false
        end
      else if byte_in 0xf0 0xf4 b0 then
        match r with
        | b1 :: b2 :: b3 :: r' =>
            (if byte_in 0xf0 0xf0 b0 then byte_in 0x90 0xbf b1
             else if byte_in 0xf4 0xf4 b0 then byte_in 0x80 0x8f b1
             else byte_in 0x80 0xbf b1)
            && byte_in 0x80 0xbf b2 && byte_in 0x80 0xbf b3 && utf8_valid r'
        | _ => false
        end
      else false
  end.

(** [PyUnicode_FromStringAndSize]: the [str] decoded from UTF-8 bytes. *)
Definition PyUnicode_FromStringAndSize (data : list ascii) : result string :=
  if utf8_valid data then Ok (string_of_list_ascii data)
  else Raise UnicodeDecodeError.

(** ** Signature engine *)

(** Modelled from the spec: the type codes of the libdbus headers
    ([dbus-protocol.h]), section 6 of the specification. *)
Definition DBUS_TYPE_INVALID : ascii := NUL.
Definition DBUS_TYPE_BYTE : ascii := "y".
Definition DBUS_TYPE_BOOLEAN : ascii := "b".
Definition DBUS_TYPE_INT16 : ascii := "n".
Definition DBUS_TYPE_UINT16 : ascii := "q".
Definition DBUS_TYPE_INT32 : ascii := "i".
Definition DBUS_TYPE_UINT32 : ascii := "u".
Definition DBUS_TYPE_INT64 : ascii := "x".
Definition DBUS_TYPE_UINT64 : ascii := "t".
Definition DBUS_TYPE_DOUBLE : ascii := "d".
Definition DBUS_TYPE_STRING : ascii := "s".
Definition DBUS_TYPE_OBJECT_PATH : ascii := "o".
Definition DBUS_TYPE_SIGNATURE : ascii := "g".
Definition DBUS_TYPE_UNIX_FD : ascii := "h".
Definition DBUS_TYPE_ARRAY : ascii := "a".
Definition DBUS_TYPE_VARIANT : ascii := "v".
Definition DBUS_TYPE_STRUCT : ascii := "r".
Definition DBUS_TYPE_DICT_ENTRY : ascii := "e".
Definition DBUS_STRUCT_BEGIN_CHAR : ascii := "(".
Definition DBUS_STRUCT_END_CHAR : ascii := ")".
Definition DBUS_DICT_ENTRY_BEGIN_CHAR : ascii := "{".
Definition DBUS_DICT_ENTRY_END_CHAR : ascii := "}".

Module Sig.

(** The scan of [get_one_full_type] for a bracketed type,
    [while ( *++end != 0 && depth > 0)]: [s] holds the bytes after [*end],
    [end_] is the offset of [end] from [signature].  Returns the offset of
    [end] and [depth] when the loop is left. *)
Fixpoint scan_container (opener endtype : ascii) (s : list ascii)
    (depth : Z) (end_ : nat) : nat * Z :=
  match s with
  | [] => (S end_, depth)
  | c :: s' =>
      if Ascii.eqb c NUL then (S end_, depth)
      else if negb (0 <? depth) then (S end_, depth)
      else scan_container opener endtype s'
             (if Ascii.eqb c opener then depth + 1
              else if Ascii.eqb c endtype then depth - 1
              else depth)
             (S end_)
  end.

(** [get_one_full_type]: [s] is the memory from [signature] on; the
    result is [end - signature].  A NULL return is [Raise]: with the
    exception set for an unbalanced bracket, with none at the terminator. *)
Fixpoint get_one_full_type (s : list ascii) : result nat :=
  match s with
  | [] => Raise NoError
  | c :: s' =>
      if Ascii.eqb c DBUS_TYPE_ARRAY then
        do n <- get_one_full_type s'; Ok (S n)
      else if Ascii.eqb c DBUS_STRUCT_BEGIN_CHAR then
        let '(end_, depth) := scan_container c DBUS_STRUCT_END_CHAR s' 1 0 in
        if negb (depth =? 0) then Raise (Error "unbalanced `%c' format")
        else Ok end_
      else if Ascii.eqb c DBUS_DICT_ENTRY_BEGIN_CHAR then
        let '(end_, depth) := scan_container c DBUS_DICT_ENTRY_END_CHAR s' 1 0 in
        if negb (depth =? 0) then Raise (Error "unbalanced `%c' format")
        else Ok end_
      else if Ascii.eqb c NUL then Raise NoError
      else Ok 1%nat
  end.

(** Memory: the block that holds the signature and its terminator. *)
Definition load (m : list ascii) (p : nat) : ascii := nth p m NUL.

(** [strchr(set, c) != NULL]; the terminator of [set] is found too. *)
Definition strchr (set : string) (c : ascii) : bool :=
  Ascii.eqb c NUL || existsb (Ascii.eqb c) (bytes set).

Definition basic_codes : string := "ybnqiuxtdsogvh".

(** [_check_signature]: [check_loop] is the [while] loop at the state
    [(ptr, start)], a nested call is the loop entered with [start = ptr].
    At every evaluation of the loop condition [end == ptr], so the final
    test [end - start > 255] reads [ptr].  The result is the memory on
    return and the value returned; [None] only when [fuel] runs out. *)
Fixpoint check_loop (fuel : nat) (m : list ascii) (start ptr : nat)
    (arraydepth structdepth : Z) : option (list ascii * bool) :=
  match fuel with
  | O => None
  | S fuel' =>
    if Ascii.eqb (load m ptr) NUL then
      Some (m, negb (255 <? Z.of_nat ptr - Z.of_nat start))
    else
    match get_one_full_type (drop ptr m) with
    | Raise _ => Some (m, false)
    | Ok n =>
      let end_ := (ptr + n)%nat in
      if (n =? 1)%nat then
        if negb (strchr basic_codes (load m ptr)) then Some (m, false)
        else check_loop fuel' m start end_ arraydepth structdepth
      else if Ascii.eqb (load m ptr) DBUS_TYPE_ARRAY then
        if 32 <=? arraydepth then Some (m, false) else
        let store := load m end_ in
        let m := <[end_ := NUL]> m in
        match check_loop fuel' m (ptr + 1) (ptr + 1)
                (arraydepth + 1) structdepth with
        | None => None
        | Some (m, false) => Some (m, false)
        | Some (m, true) =>
            let m := <[end_ := store]> m in
            check_loop fuel' m start end_ arraydepth structdepth
        end
      else if Ascii.eqb (load m ptr) DBUS_STRUCT_BEGIN_CHAR
              || Ascii.eqb (load m ptr) DBUS_DICT_ENTRY_BEGIN_CHAR then
        if 32 <=? structdepth then Some (m, false) else
        let end_ := (end_ - 1)%nat in
        let store := load m end_ in
        let m := <[end_ := NUL]> m in
        match check_loop fuel' m (ptr + 1) (ptr + 1)
                arraydepth (structdepth + 1) with
        | None => None
        | Some (m, false) => Some (m, false)
        | Some (m, true) =>
            let m := <[end_ := store]> m in
            let end_ := (end_ + 1)%nat in
            if (Ascii.eqb (load m ptr) DBUS_STRUCT_BEGIN_CHAR
                && negb (Ascii.eqb store DBUS_STRUCT_END_CHAR))
               || (Ascii.eqb (load m ptr) DBUS_DICT_ENTRY_BEGIN_CHAR
                   && negb (Ascii.eqb store DBUS_DICT_ENTRY_END_CHAR))
            then Some (m, false)
            else check_loop fuel' m start end_ arraydepth structdepth
        end
      else check_loop fuel' m start end_ arraydepth structdepth
    end
  end.

(** [_check_signature(signature, arraydepth, structdepth)] on the memory
    block [m], [signature] pointing at index [ptr].  One unit of fuel per
    loop test or nested call is enough when [fuel] exceeds the length of
    the block. *)
Definition _check_signature_at (m : list ascii) (ptr : nat)
    (arraydepth structdepth : Z) : option (list ascii * bool) :=
  check_loop (S (List.length m)) m ptr ptr arraydepth structdepth.

(** The call on a C string [s] held in a block of its own. *)
Definition _check_signature_mem (s : list ascii) (arraydepth structdepth : Z)
    : option (list ascii * bool) :=
  _check_signature_at (s ++ [NUL]) 0 arraydepth structdepth.

(** The value returned by [_check_signature]. *)
Definition _check_signature (s : list ascii) (arraydepth structdepth : Z) : bool :=
  match _check_signature_mem s arraydepth structdepth with
  | Some (_, b) => b
  | None => false
  end.

(** The exception pending when [_check_signature] returns, as
    [PyErr_Occurred] would show it: [get_one_full_type] sets one for an
    unbalanced bracket, and [_check_signature] returns 0 on it without
    clearing it, from every level of the recursion.  The loop is the one
    of [check_loop], which gives the memory and the value of a nested
    call; a nested call that returns 1 has met no failure.  [None] is no
    exception pending. *)
Fixpoint check_loop_pending (fuel : nat) (m : list ascii) (start ptr : nat)
    (arraydepth structdepth : Z) : option exn :=
  match fuel with
  | O => None
  | S fuel' =>
    if Ascii.eqb (load m ptr) NUL then None
    else
    match get_one_full_type (drop ptr m) with
    | Raise NoError => None
    | Raise e => Some e
    | Ok n =>
      let end_ := (ptr + n)%nat in
      if (n =? 1)%nat then
        if negb (strchr basic_codes (load m ptr)) then None
        else check_loop_pending fuel' m start end_ arraydepth structdepth
      else if Ascii.eqb (load m ptr) DBUS_TYPE_ARRAY then
        if 32 <=? arraydepth then None else
        let store := load m end_ in
        let m := <[end_ := NUL]> m in
        match check_loop fuel' m (ptr + 1) (ptr + 1)
                (arraydepth + 1) structdepth with
        | None => None
        | Some (_, false) =>
            check_loop_pending fuel' m (ptr + 1) (ptr + 1)
              (arraydepth + 1) structdepth
        | Some (m, true) =>
            let m := <[end_ := store]> m in
            check_loop_pending fuel' m start end_ arraydepth structdepth
        end
      else if Ascii.eqb (load m ptr) DBUS_STRUCT_BEGIN_CHAR
              || Ascii.eqb (load m ptr) DBUS_DICT_ENTRY_BEGIN_CHAR then
        if 32 <=? structdepth then None else
        let end_ := (end_ - 1)%nat in
        let store := load m end_ in
        let m := <[end_ := NUL]> m in
        match check_loop fuel' m (ptr + 1) (ptr + 1)
                arraydepth (structdepth + 1) with
        | None => None
        | Some (_, false) =>
            check_loop_pending fuel' m (ptr + 1) (ptr + 1)
              arraydepth (structdepth + 1)
        | Some (m, true) =>
            let m := <[end_ := store]> m in
            let end_ := (end_ + 1)%nat in
            if (Ascii.eqb (load m ptr) DBUS_STRUCT_BEGIN_CHAR
                && negb (Ascii.eqb store DBUS_STRUCT_END_CHAR))
               || (Ascii.eqb (load m ptr) DBUS_DICT_ENTRY_BEGIN_CHAR
                   && negb (Ascii.eqb store DBUS_DICT_ENTRY_END_CHAR))
            then None
            else check_loop_pending fuel' m start end_ arraydepth structdepth
        end
      else check_loop_pending fuel' m start end_ arraydepth structdepth
    end
  end.

(** The exception pending after [_check_signature] on a C string [s]
    held in a block of its own. *)
Definition _check_signature_pending (s : list ascii) (arraydepth structdepth : Z)
    : option exn :=
  let m := s ++ [NUL] in
  check_loop_pending (S (List.length m)) m 0 0 arraydepth structdepth.

(** The module function [check_signature].  [PyBool_FromLong] makes the
    result from the value of [_check_signature] and the function returns
    it, whether an exception is pending or not; the interpreter (CPython
    3) does not take a result that comes with an exception pending and
    raises [SystemError] in its place. *)
Definition check_signature (s : string) : result bool :=
  do sig <- PyArg_Parse_s s;
  let Pret := _check_signature sig 0 0 in
  match _check_signature_pending sig 0 0 with
  | Some _ => Raise (SystemError "%R returned a result with an exception set")
  | None => Ok Pret
  end.

(** The loop of the module function [split_signature]: [s] is the memory
    from [ptr] on. *)
Fixpoint split_loop (fuel : nat) (s : list ascii) (Plist : list string)
    : option (result (list string)) :=
  match fuel with
  | O => None
  | S fuel' =>
      if Ascii.eqb (nth 0 s NUL) NUL then Some (Ok Plist) else
      match get_one_full_type s with
      | Raise _ => Some (Raise (Error "illegal signature string"))
      | Ok n =>
          match PyUnicode_FromStringAndSize (take n s) with
          | Raise e => Some (Raise e)
          | Ok Pstr => split_loop fuel' (drop n s) (Plist ++ [Pstr])
          end
      end
  end.

Definition split_signature (s : string) : result (list string) :=
  do sig <- PyArg_Parse_s s;
  match split_loop (S (List.length sig)) sig [] with
  | Some r => r
  | None => Raise NoError
  end.

End Sig.


(** ** CPython objects *)

(** The objects the codec handles.  Text is held as its UTF-8 bytes (what
    [PyUnicode_AsUTF8] returns and [PyUnicode_FromString] reads), a float
    as the 64-bit pattern of its IEEE 754 binary64 value, a dict as its
    items in insertion order.  The model follows Python 3.  A value is a
    finite tree: a list or a dict that holds itself, which Python allows,
    is not a value of this type, and neither is the sharing of one object
    between two places, nor a [str] with a lone surrogate, which has no
    UTF-8 form. *)
Inductive pyobj : Type :=
  | PyNone
  | PyBool (b : bool)
  | PyLong (n : Z)
  | PyFloat (bits : Z)
  | PyUnicode (s : string)
  | PyBytes (b : string)
  | PyList (l : list pyobj)
  | PyTuple (l : list pyobj)
  | PyDict (d : list (pyobj * pyobj)).

(** IEEE 754 binary64 values as bit patterns. *)
Module Double.

Definition sign (bits : Z) : Z := (bits / 2 ^ 63) mod 2.
Definition exponent (bits : Z) : Z := (bits / 2 ^ 52) mod 2 ^ 11.
Definition mantissa (bits : Z) : Z := bits mod 2 ^ 52.

Definition is_nan (bits : Z) : bool :=
  (exponent bits =? 2047) && negb (mantissa bits =? 0).
Definition is_zero (bits : Z) : bool :=
  (exponent bits =? 0) && (mantissa bits =? 0).

(** The integer a double is equal to, when there is one. *)
Definition exact_Z (bits : Z) : option Z :=
  let s := if sign bits =? 1 then -1 else 1 in
  let e := exponent bits in
  let m := mantissa bits in
  if e =? 2047 then None
  else if e =? 0 then (if m =? 0 then Some 0 else None)
  else
    let mant := 2 ^ 52 + m in
    if 1075 <=? e then Some (s * (mant * 2 ^ (e - 1075)))
    else if mant mod 2 ^ (1075 - e) =? 0 then Some (s * (mant / 2 ^ (1075 - e)))
    else None.

(** The double nearest to an integer (ties to even); [None] when the
    integer is too large. *)
Definition of_Z (n : Z) : option Z :=
  if n =? 0 then Some 0 else
  let s := if n <? 0 then 1 else 0 in
  let a := Z.abs n in
  let k := Z.log2 a in
  let '(m, e) :=
    if k <=? 52 then (a * 2 ^ (52 - k), k)
    else
      let sh := k - 52 in
      let q := a / 2 ^ sh in
      let r := a mod 2 ^ sh in
      let half := 2 ^ (sh - 1) in
      let q' := if (half <? r) || ((r =? half) && Z.odd q) then q + 1 else q in
      if q' =? 2 ^ 53 then (2 ^ 52, k + 1) else (q', k) in
  if 1023 <? e then None
  else Some (s * 2 ^ 63 + (e + 1023) * 2 ^ 52 + (m - 2 ^ 52)).

End Double.

Module Py.

Definition PyLong_Check (o : pyobj) : bool :=
  match o with
  | PyLong _ | PyBool _ => true
  | _ => false
  end.

Definition PyUnicode_Check (o : pyobj) : bool :=
  match o with PyUnicode _ => true | _ => false end.

Definition PyBytes_Check (o : pyobj) : bool :=
  match o with PyBytes _ => true | _ => false end.

Definition PyDict_Check (o : pyobj) : bool :=
  match o with PyDict _ => true | _ => false end.

Definition PyTuple_Check (o : pyobj) : bool :=
  match o with PyTuple _ => true | _ => false end.

Definition PySequence_Check (o : pyobj) : bool :=
  match o with
  | PyList _ | PyTuple _ | PyUnicode _ | PyBytes _ => true
  | _ => false
  end.

(** The value of an [int] object ([bool] is a subclass of [int]). *)
Definition long_value (o : pyobj) : Z :=
  match o with
  | PyLong n => n
  | PyBool b => Z.b2z b
  | _ => 0
  end.

(** C integer conversions, for a 64-bit [long]. *)
Definition wrap_unsigned (width : Z) (x : Z) : Z := x mod 2 ^ width.
Definition wrap_signed (width : Z) (x : Z) : Z :=
  (x + 2 ^ (width - 1)) mod 2 ^ width - 2 ^ (width - 1).

(** [PyLong_AsLong] and [PyLong_AsLongLong]: [-1] out of range. *)
Definition PyLong_AsLong (o : pyobj) : Z :=
  let n := long_value o in
  if (- 2 ^ 63 <=? n) && (n <=? 2 ^ 63 - 1) then n else -1.
Definition PyLong_AsLongLong (o : pyobj) : Z := PyLong_AsLong o.

Definition PyLong_AsUnsignedLongMask (o : pyobj) : Z :=
  wrap_unsigned 64 (long_value o).

(** [PyLong_AsUnsignedLongLong]: [(unsigned long long) -1] out of range. *)
Definition PyLong_AsUnsignedLongLong (o : pyobj) : Z :=
  let n := long_value o in
  if (0 <=? n) && (n <=? 2 ^ 64 - 1) then n else 2 ^ 64 - 1.

(** [PyLong_AsUnsignedLong]: [(unsigned long) -1] out of range. *)
Definition PyLong_AsUnsignedLong (o : pyobj) : Z :=
  let n := long_value o in
  if (0 <=? n) && (n <=? 2 ^ 64 - 1) then n else 2 ^ 64 - 1.

(** The characters of a text held as UTF-8, each as its bytes: a
    character is a byte that is no continuation byte (0x80 to 0xbf)
    with the continuation bytes that follow it. *)
Definition utf8_continuation (c : ascii) : bool := byte_in 0x80 0xbf c.

Fixpoint utf8_chars (s : list ascii) : list (list ascii) :=
  match s with
  | [] => []
  | c :: s' =>
      match utf8_chars s' with
      | (c' :: g) :: gs =>
          if utf8_continuation c' then (c :: c' :: g) :: gs
          else [c] :: (c' :: g) :: gs
      | gs => [c] :: gs
      end
  end.

(** The items of a sequence, as [PySequence_GetItem] returns them: the
    items of a [str] are its characters, each a [str] of one character,
    and the items of a [bytes] are integers. *)
Definition sequence_items (o : pyobj) : list pyobj :=
  match o with
  | PyList l | PyTuple l => l
  | PyUnicode s =>
      map (fun g => PyUnicode (string_of_list_ascii g)) (utf8_chars (bytes s))
  | PyBytes b => map (fun c => PyLong (code c)) (bytes b)
  | _ => []
  end.

Definition PySequence_Size (o : pyobj) : Z :=
  Z.of_nat (List.length (sequence_items o)).

Definition PySequence_GetItem (o : pyobj) (i : nat) : pyobj :=
  nth i (sequence_items o) PyNone.

Definition PyObject_IsTrue (o : pyobj) : Z :=
  match o with
  | PyNone => 0
  | PyBool b => Z.b2z b
  | PyLong n => if n =? 0 then 0 else 1
  | PyFloat bits => if Double.is_zero bits then 0 else 1
  | PyUnicode s | PyBytes s => if (String.length s =? 0)%nat then 0 else 1
  | PyList l | PyTuple l => if (List.length l =? 0)%nat then 0 else 1
  | PyDict d => if (List.length d =? 0)%nat then 0 else 1
  end.

Definition PyBool_FromLong (v : Z) : pyobj := PyBool (negb (v =? 0)).

Definition PyFloat_AsDouble (o : pyobj) : result Z :=
  match o with
  | PyFloat bits => Ok bits
  | PyLong _ | PyBool _ =>
      match Double.of_Z (long_value o) with
      | Some bits => Ok bits
      | None => Raise (OverflowError "int too large to convert to float")
      end
  | _ => Raise (TypeError "must be real number")
  end.

(** [PyUnicode_AsUTF8]: the bytes of the text; as a C string they end at
    the first NUL. *)
Definition PyUnicode_AsUTF8 (o : pyobj) : list ascii :=
  match o with
  | PyUnicode s => bytes s
  | _ => []
  end.

Definition PyUnicode_FromString (s : list ascii) : result pyobj :=
  do text <- PyUnicode_FromStringAndSize (cstr s);
  Ok (PyUnicode text).

Definition PyBytes_AS_STRING (o : pyobj) : list ascii :=
  match o with
  | PyBytes b => bytes b
  | _ => []
  end.

Definition PyBytes_FromStringAndSize (data : list ascii) : pyobj :=
  PyBytes (string_of_list_ascii data).

(** *** Dictionaries *)

(** Hashing and equality of keys.  [py_key] flattens a hashable object to
    a list of tokens such that two objects are equal in Python when their
    token lists are; a list or a dict has no hash.  Numbers are compared
    by value across [bool], [int] and [float]; a NaN is equal to no
    object. *)
Inductive token : Type :=
  | KNone
  | KInt (n : Z)
  | KFloat (bits : Z)
  | KNaN
  | KStr (s : string)
  | KBytes (s : string)
  | KOpen
  | KClose.

Fixpoint py_key (o : pyobj) : option (list token) :=
  match o with
  | PyNone => Some [KNone]
  | PyBool b => Some [KInt (Z.b2z b)]
  | PyLong n => Some [KInt n]
  | PyFloat bits =>
      Some [ if Double.is_nan bits then KNaN
             else match Double.exact_Z bits with
                  | Some n => KInt n
                  | None => KFloat (bits mod 2 ^ 64)
                  end ]
  | PyUnicode s => Some [KStr s]
  | PyBytes s => Some [KBytes s]
  | PyTuple l =>
      (fix keys (l : list pyobj) (acc : list token) : option (list token) :=
         match l with
         | [] => Some (acc ++ [KClose])
         | x :: l' =>
             match py_key x with
             | Some k => keys l' (acc ++ k)
             | None => None
             end
         end) l [KOpen]
  | PyList _ | PyDict _ => None
  end.

Definition token_eqb (a b : token) : bool :=
  match a, b with
  | KNone, KNone | KOpen, KOpen | KClose, KClose => true
  | KInt n, KInt m => n =? m
  | KFloat x, KFloat y => x =? y
  | KStr s, KStr t | KBytes s, KBytes t => String.eqb s t
  | _, _ => false
  end.

Fixpoint tokens_eqb (a b : list token) : bool :=
  match a, b with
  | [], [] => true
  | x :: a', y :: b' => token_eqb x y && tokens_eqb a' b'
  | _, _ => false
  end.

(** [a == b] for hashable objects. *)
Definition py_eqb (a b : pyobj) : bool :=
  match py_key a, py_key b with
  | Some x, Some y => tokens_eqb x y
  | _, _ => false
  end.

Definition py_hashable (o : pyobj) : bool :=
  match py_key o with Some _ => true | None => false end.

(** The items of a dict after [d[k] = v]: the value of the first equal
    key is replaced, a new key goes last. *)
Fixpoint dict_set (d : list (pyobj * pyobj)) (k v : pyobj) : list (pyobj * pyobj) :=
  match d with
  | [] => [(k, v)]
  | (k', v') :: d' =>
      if py_eqb k' k then (k', v) :: d'
      else (k', v') :: dict_set d' k v
  end.

Definition PyDict_SetItem (d : list (pyobj * pyobj)) (k v : pyobj)
    : result (list (pyobj * pyobj)) :=
  if py_hashable k then Ok (dict_set d k v)
  else Raise (TypeError "unhashable type").

(** [d[k]], [None] when the key is absent. *)
Fixpoint dict_get (d : list (pyobj * pyobj)) (k : pyobj) : option pyobj :=
  match d with
  | [] => None
  | (k', v') :: d' => if py_eqb k' k then Some v' else dict_get d' k
  end.

Definition PyDict_Items (o : pyobj) : pyobj :=
  match o with
  | PyDict d => PyList (map (fun kv => PyTuple [fst kv; snd kv]) d)
  | _ => PyList []
  end.

End Py.

(** ** Numeric ranges *)

Module Num.
Import Py.

Definition check_numbers : list Z :=
  [ 0x0; 0xff; 0xffff;
    0xffffffff; 0xffffffffffffffff;
    -0x8000; 0x7fff;
    -0x80000000; 0x7fffffff;
    -0x8000000000000000; 0x7fffffffffffffff ].

(** [check_number_cache[i]]: the integer object parsed from
    [check_numbers[i]] when the module is initialised. *)
Definition check_number_cache (i : nat) : Z := nth i check_numbers 0.

(** [check_number]: [Ok tt] is the return of 1. *)
Definition check_number (number : pyobj) (type : ascii) : result unit :=
  if negb (PyLong_Check number) then
    Raise (TypeError "expecting integer argument for `%c' format")
  else
  let range :=
    if Ascii.eqb type DBUS_TYPE_BYTE then
      Some (check_number_cache 0, check_number_cache 1)
    else if Ascii.eqb type DBUS_TYPE_UINT16 then
      Some (check_number_cache 0, check_number_cache 2)
    else if Ascii.eqb type DBUS_TYPE_UINT32 then
      Some (check_number_cache 0, check_number_cache 3)
    else if Ascii.eqb type DBUS_TYPE_UINT64 then
      Some (check_number_cache 0, check_number_cache 4)
    else if Ascii.eqb type DBUS_TYPE_INT16 then
      Some (check_number_cache 5, check_number_cache 6)
    else if Ascii.eqb type DBUS_TYPE_INT32 then
      Some (check_number_cache 7, check_number_cache 8)
    else if Ascii.eqb type DBUS_TYPE_INT64 then
      Some (check_number_cache 9, check_number_cache 10)
    else None in
  match range with
  | None => Raise NoError
  | Some (Pmin, Pmax) =>
      if (long_value number <? Pmin) || (Pmax <? long_value number) then
        Raise (ValueError "value out of range for `%c' format")
      else Ok tt
  end.

End Num.

(** ** libdbus messages *)

(** The [basic_value] union: one of its integer members, [str] or [dbl]. *)
Inductive basic_value : Type :=
  | VInt (n : Z)
  | VStr (s : list ascii)
  | VDbl (bits : Z).

Definition as_int (v : basic_value) : Z :=
  match v with VInt n => n | _ => 0 end.
Definition as_str (v : basic_value) : list ascii :=
  match v with VStr s => s | _ => [] end.
Definition as_dbl (v : basic_value) : Z :=
  match v with VDbl bits => bits | _ => 0 end.

(** A value of a message body as the iterator interface of libdbus shows
    it: a basic value with its type code, or a container (struct ['r'],
    array ['a'], dict entry ['e'], variant ['v']) with the signature it
    was opened with and its contents in order. *)
Inductive wire : Type :=
  | WBasic (type : ascii) (value : basic_value)
  | WContainer (type : ascii) (signature : list ascii) (contents : list wire).

(** A [DBusMessageIter].  Appending: the container being filled and what
    it holds so far.  Reading: the container being read and the values
    from the current one on.  The libdbus calls are modelled in the case
    in which they do not run out of memory. *)
Record DBusMessageIter : Type := mkIter {
  container_type : ascii;
  contained_signature : list ascii;
  items : list wire
}.

Module DBus.

Definition dbus_message_iter_init_append (message : list wire) : DBusMessageIter :=
  mkIter DBUS_TYPE_INVALID [] message.

Definition dbus_message_iter_append_basic (iter : DBusMessageIter)
    (type : ascii) (value : basic_value) : DBusMessageIter :=
  mkIter (container_type iter) (contained_signature iter)
         (items iter ++ [WBasic type value]).

Definition dbus_message_iter_open_container (type : ascii)
    (signature : list ascii) : DBusMessageIter :=
  mkIter type signature [].

Definition dbus_message_iter_close_container (iter sub : DBusMessageIter)
    : DBusMessageIter :=
  mkIter (container_type iter) (contained_signature iter)
         (items iter
          ++ [WContainer (container_type sub) (contained_signature sub) (items sub)]).

Definition dbus_message_iter_append_fixed_array (iter : DBusMessageIter)
    (type : ascii) (data : list ascii) : DBusMessageIter :=
  mkIter (container_type iter) (contained_signature iter)
         (items iter ++ map (fun b => WBasic type (VInt (code b))) data).

(** The element type of an array: the first type of its signature, the
    brackets standing for the struct and dict entry codes. *)
Definition first_type_in_signature (signature : list ascii) : ascii :=
  let c := nth 0 signature NUL in
  if Ascii.eqb c DBUS_STRUCT_BEGIN_CHAR then DBUS_TYPE_STRUCT
  else if Ascii.eqb c DBUS_DICT_ENTRY_BEGIN_CHAR then DBUS_TYPE_DICT_ENTRY
  else c.

(** [dbus_message_iter_get_fixed_array]: the block of the elements. *)
Definition dbus_message_iter_get_fixed_array (contents : list wire) : list ascii :=
  map (fun w => match w with
                | WBasic _ v => ascii_of_N (Z.to_N (as_int v))
                | WContainer _ _ _ => NUL
                end) contents.

End DBus.

(** ** Argument codec *)

Module Codec.
Import Py Num DBus Sig Names.

(** *** Reading *)

(** The loops over an iterator, for a given reader of the value under
    the iterator. *)
Section ReadLoops.

Variable read_arg : wire -> result pyobj.

(** The [while] loop of [message_read_args]. *)
Fixpoint message_read_args_loop (iter : list wire) (Plist : list pyobj)
    : result (list pyobj) :=
  match iter with
  | [] => Ok Plist
  | w :: iter' =>
      do Parg <- read_arg w;
      message_read_args_loop iter' (Plist ++ [Parg])
  end.

(** The [while] loop of the array case of [message_read_arg]. *)
Fixpoint read_items_loop (iter : list wire) (Parg : pyobj) : result pyobj :=
  match iter with
  | [] => Ok Parg
  | w :: iter' =>
      do Pitem <- read_arg w;
      match Parg with
      | PyDict d =>
          if negb (PyTuple_Check Pitem) then
            Raise (AssertionError "Assertion failed PyTuple_Check(Pitem)")
          else if negb (PySequence_Size Pitem =? 2) then
            Raise (AssertionError "Assertion failed PyTuple_Size(Pitem) == 2")
          else
            do d' <- PyDict_SetItem d (PySequence_GetItem Pitem 0)
                                    (PySequence_GetItem Pitem 1);
            read_items_loop iter' (PyDict d')
      | PyList l => read_items_loop iter' (PyList (l ++ [Pitem]))
      | _ => read_items_loop iter' Parg
      end
  end.

End ReadLoops.

(** [message_read_arg] on the value under the iterator.  [Raise NoError]
    is the NULL returned when no [case] applies. *)
Fixpoint message_read_arg (w : wire) : result pyobj :=
  match w with
  | WBasic type value =>
      if Ascii.eqb type DBUS_TYPE_BYTE then Ok (PyLong (as_int value))
      else if Ascii.eqb type DBUS_TYPE_BOOLEAN then Ok (PyBool_FromLong (as_int value))
      else if Ascii.eqb type DBUS_TYPE_INT16 then Ok (PyLong (as_int value))
      else if Ascii.eqb type DBUS_TYPE_UINT16 then Ok (PyLong (as_int value))
      else if Ascii.eqb type DBUS_TYPE_INT32 then Ok (PyLong (as_int value))
      else if Ascii.eqb type DBUS_TYPE_UINT32 then Ok (PyLong (as_int value))
      else if Ascii.eqb type DBUS_TYPE_INT64 then Ok (PyLong (as_int value))
      else if Ascii.eqb type DBUS_TYPE_UINT64 then Ok (PyLong (as_int value))
      else if Ascii.eqb type DBUS_TYPE_DOUBLE then Ok (PyFloat (as_dbl value))
      else if Ascii.eqb type DBUS_TYPE_STRING then
        PyUnicode_FromString (as_str value)
      else if Ascii.eqb type DBUS_TYPE_OBJECT_PATH
              || Ascii.eqb type DBUS_TYPE_SIGNATURE then
        PyUnicode_FromString (as_str value)
      else Raise NoError
  | WContainer type signature contents =>
      if Ascii.eqb type DBUS_TYPE_STRUCT then
        do Plist <- message_read_args_loop message_read_arg contents [];
        Ok (PyTuple Plist)
      else if Ascii.eqb type DBUS_TYPE_ARRAY then
        let subtype := first_type_in_signature signature in
        if Ascii.eqb subtype DBUS_TYPE_BYTE then
          Ok (PyBytes_FromStringAndSize (dbus_message_iter_get_fixed_array contents))
        else
          read_items_loop message_read_arg contents
            (if Ascii.eqb subtype DBUS_TYPE_DICT_ENTRY then PyDict [] else PyList [])
      else if Ascii.eqb type DBUS_TYPE_DICT_ENTRY then
        match contents with
        | [] => Raise NoError
        | wk :: iter' =>
            do Pkey <- message_read_arg wk;
            match iter' with
            | [] => Raise (Error "illegal dict_entry")
            | wv :: _ =>
                do Pvalue <- message_read_arg wv;
                Ok (PyTuple [Pkey; Pvalue])
            end
        end
      else if Ascii.eqb type DBUS_TYPE_VARIANT then
        do Pkey <- PyUnicode_FromString signature;
        match contents with
        | [] => Raise NoError
        | wv :: _ =>
            do Pvalue <- message_read_arg wv;
            Ok (PyTuple [Pkey; Pvalue])
        end
      else Raise NoError
  end.

Definition message_read_args (iter : list wire) : result pyobj :=
  do Plist <- message_read_args_loop message_read_arg iter [];
  Ok (PyTuple Plist).

(** The getter of the [args] attribute; [message] is the body. *)
Definition message_get_args (message : list wire) : result pyobj :=
  match message with
  | _ :: _ => message_read_args message
  | [] => Ok (PyTuple [])
  end.

(** *** Appending *)

(** In [message_append_args] the byte at [end] is overwritten by a
    terminator for the time of the call of [message_append_arg] and put
    back after it: the callee is given the bytes of one full type, which
    is what [take end_ signature] passes here.  A [signature] argument is
    the C string at the pointer. *)
Section AppendArgs.

Variable append_arg : DBusMessageIter -> list ascii -> pyobj -> result DBusMessageIter.

(** The [while] loop of [message_append_args]; [n] bounds the number of
    iterations. *)
Fixpoint message_append_args_loop (n : nat) (iter : DBusMessageIter)
    (signature : list ascii) (args : pyobj) (curarg : nat)
    : result DBusMessageIter :=
  match n with
  | O => Raise OutOfFuel
  | S n' =>
      if Ascii.eqb (nth 0 signature NUL) NUL then
        if negb (Z.of_nat curarg =? PySequence_Size args) then
          Raise (TypeError "too many arguments for signature string")
        else Ok iter
      else
        do end_ <- get_one_full_type signature;
        if Z.of_nat curarg =? PySequence_Size args then
          Raise (TypeError "too few arguments for signature string")
        else
        let Parg := PySequence_GetItem args curarg in
        do iter <- append_arg iter (take end_ signature) Parg;
        let signature := drop end_ signature in
        let signature :=
          if Ascii.eqb (nth 0 signature NUL) DBUS_STRUCT_END_CHAR
             || Ascii.eqb (nth 0 signature NUL) DBUS_DICT_ENTRY_END_CHAR
          then drop 1 signature else signature in
        message_append_args_loop n' iter signature args (S curarg)
  end.

Definition message_append_args_with (iter : DBusMessageIter)
    (signature : list ascii) (args : pyobj) : result DBusMessageIter :=
  message_append_args_loop (S (List.length signature)) iter signature args 0.

(** The [for] loop over the items of an array. *)
Fixpoint append_items (iter : DBusMessageIter) (signature : list ascii)
    (Parray : list pyobj) : result DBusMessageIter :=
  match Parray with
  | [] => Ok iter
  | Pitem :: rest =>
      do iter <- append_arg iter signature Pitem;
      append_items iter signature rest
  end.

End AppendArgs.

(** [message_append_arg]; [fuel] bounds the depth of the recursion. *)
Fixpoint message_append_arg (fuel : nat) (iter : DBusMessageIter)
    (signature : list ascii) (arg : pyobj) : result DBusMessageIter :=
  match fuel with
  | O => Raise OutOfFuel
  | S fuel' =>
    let c := nth 0 signature NUL in
    if Ascii.eqb c DBUS_TYPE_BYTE then
      do _ <- check_number arg c;
      Ok (dbus_message_iter_append_basic iter c
            (VInt (wrap_unsigned 8 (PyLong_AsLong arg))))
    else if Ascii.eqb c DBUS_TYPE_BOOLEAN then
      Ok (dbus_message_iter_append_basic iter c
            (VInt (wrap_unsigned 32 (PyObject_IsTrue arg))))
    else if Ascii.eqb c DBUS_TYPE_INT16 then
      do _ <- check_number arg c;
      Ok (dbus_message_iter_append_basic iter c
            (VInt (wrap_signed 16 (PyLong_AsLong arg))))
    else if Ascii.eqb c DBUS_TYPE_UINT16 then
      do _ <- check_number arg c;
      Ok (dbus_message_iter_append_basic iter c
            (VInt (wrap_unsigned 16 (PyLong_AsLong arg))))
    else if Ascii.eqb c DBUS_TYPE_INT32 then
      do _ <- check_number arg c;
      Ok (dbus_message_iter_append_basic iter c
            (VInt (wrap_signed 32 (PyLong_AsLong arg))))
    else if Ascii.eqb c DBUS_TYPE_UINT32 then
      do _ <- check_number arg c;
      Ok (dbus_message_iter_append_basic iter c
            (VInt (wrap_unsigned 32 (PyLong_AsUnsignedLongMask arg))))
    else if Ascii.eqb c DBUS_TYPE_INT64 then
      do _ <- check_number arg c;
      Ok (dbus_message_iter_append_basic iter c
            (VInt (wrap_signed 64 (PyLong_AsLongLong arg))))
    else if Ascii.eqb c DBUS_TYPE_UINT64 then
      do _ <- check_number arg c;
      Ok (dbus_message_iter_append_basic iter c
            (VInt (wrap_unsigned 64 (PyLong_AsUnsignedLongLong arg))))
    else if Ascii.eqb c DBUS_TYPE_DOUBLE then
      do dbl <- PyFloat_AsDouble arg;
      Ok (dbus_message_iter_append_basic iter c (VDbl dbl))
    else if Ascii.eqb c DBUS_TYPE_OBJECT_PATH then
      if negb (PyUnicode_Check arg) then
        Raise (TypeError "expecting str for `%c' format")
      else
      let str := cstr (PyUnicode_AsUTF8 arg) in
      if negb (_check_path str) then
        Raise (ValueError "invalid object path argument")
      else Ok (dbus_message_iter_append_basic iter c (VStr str))
    else if Ascii.eqb c DBUS_TYPE_SIGNATURE then
      if negb (PyUnicode_Check arg) then
        Raise (TypeError "expecting str for `%c' format")
      else
      let str := cstr (PyUnicode_AsUTF8 arg) in
      if negb (_check_signature str 0 0) then
        Raise (ValueError "invalid signature")
      else Ok (dbus_message_iter_append_basic iter c (VStr str))
    else if Ascii.eqb c DBUS_TYPE_STRING then
      if negb (PyUnicode_Check arg) then
        Raise (TypeError "expecting str for `%c' format")
      else
      let str := cstr (PyUnicode_AsUTF8 arg) in
      Ok (dbus_message_iter_append_basic iter c (VStr str))
    else if Ascii.eqb c DBUS_STRUCT_BEGIN_CHAR then
      let subiter := dbus_message_iter_open_container DBUS_TYPE_STRUCT [] in
      if negb (PySequence_Check arg) then
        Raise (TypeError "expecting sequence argument for struct format")
      else
      do subiter <- message_append_args_with (message_append_arg fuel')
                      subiter (drop 1 signature) arg;
      Ok (dbus_message_iter_close_container iter subiter)
    else if Ascii.eqb c DBUS_TYPE_ARRAY then
      let subiter :=
        dbus_message_iter_open_container DBUS_TYPE_ARRAY (drop 1 signature) in
      do subiter <-
        (if Ascii.eqb (nth 1 signature NUL) DBUS_TYPE_BYTE then
           if negb (PyBytes_Check arg) then
             Raise (TypeError "expecting bytes argument for array of byte")
           else
             Ok (dbus_message_iter_append_fixed_array subiter
                   (nth 1 signature NUL) (PyBytes_AS_STRING arg))
         else
           do Parray <-
             (if Ascii.eqb (nth 1 signature NUL) DBUS_DICT_ENTRY_BEGIN_CHAR then
                if negb (PyDict_Check arg) then
                  Raise (TypeError "expecting dict argument for dict format")
                else Ok (PyDict_Items arg)
              else
                if negb (PySequence_Check arg) then
                  Raise (TypeError "expecting sequence argument for array format")
                else Ok arg);
           append_items (message_append_arg fuel') subiter (drop 1 signature)
             (sequence_items Parray));
      Ok (dbus_message_iter_close_container iter subiter)
    else if Ascii.eqb c DBUS_DICT_ENTRY_BEGIN_CHAR then
      let subiter := dbus_message_iter_open_container DBUS_TYPE_DICT_ENTRY [] in
      if negb (PySequence_Check arg) then
        Raise (TypeError "expecting sequence argument for dict_entry format")
      else
      do subiter <- message_append_args_with (message_append_arg fuel')
                      subiter (drop 1 signature) arg;
      Ok (dbus_message_iter_close_container iter subiter)
    else if Ascii.eqb c DBUS_TYPE_VARIANT then
      if negb (PySequence_Check arg) then
        Raise (TypeError "expecting a sequence for variant")
      else if negb (PySequence_Size arg =? 2) then
        Raise (ValueError "expecting a sequence of length 2 for variant")
      else
      let Ptype := PySequence_GetItem arg 0 in
      let Pvalue := PySequence_GetItem arg 1 in
      if negb (PyUnicode_Check Ptype) then
        Raise (TypeError "first item in sequence for variant must be string")
      else
      let subtype := cstr (PyUnicode_AsUTF8 Ptype) in
      if negb (_check_signature subtype 0 0) then
        Raise (ValueError "invalid signature for variant")
      else
      match get_one_full_type subtype with
      | Raise _ =>
          Raise (ValueError "variant signature must be exactly one full type")
      | Ok end_ =>
          if negb (Ascii.eqb (nth end_ subtype NUL) NUL) then
            Raise (ValueError "variant signature must be exactly one full type")
          else
          let subiter := dbus_message_iter_open_container c subtype in
          do subiter <- message_append_arg fuel' subiter subtype Pvalue;
          Ok (dbus_message_iter_close_container iter subiter)
      end
    else Raise (Error "unknown format character `%c'")
  end.

Definition message_append_args (fuel : nat) (iter : DBusMessageIter)
    (signature : list ascii) (args : pyobj) : result DBusMessageIter :=
  message_append_args_with (message_append_arg fuel) iter signature args.

(** A bound on the depth of the recursion of [message_append_arg]. *)
Fixpoint py_size (o : pyobj) : nat :=
  match o with
  | PyUnicode s | PyBytes s => S (String.length s)
  | PyList l | PyTuple l =>
      S ((fix sizes (l : list pyobj) : nat :=
            match l with
            | [] => O
            | x :: l' => (py_size x + sizes l')%nat
            end) l)
  | PyDict d =>
      S ((fix sizes (d : list (pyobj * pyobj)) : nat :=
            match d with
            | [] => O
            | (k, v) :: d' => (S (py_size k + py_size v) + sizes d')%nat
            end) d)
  | _ => 1%nat
  end.

Definition recursion_bound (signature : list ascii) (arg : pyobj) : nat :=
  (List.length signature + py_size arg)%nat.

(** The method [set_args] of a message whose body is [message]; the
    result is the body afterwards. *)
Definition message_set_args (message : list wire) (signature : string)
    (Pargs : pyobj) : result (list wire) :=
  do signature <- PyArg_Parse_s signature;
  if negb (PySequence_Check Pargs) then
    Raise (TypeError "expecting a sequence for the arguments")
  else
  let ptr := signature in
  if negb (_check_signature ptr 0 0) then
    Raise (ValueError "illegal signature")
  else
  let iter := dbus_message_iter_init_append message in
  do iter <- message_append_args (recursion_bound ptr Pargs) iter ptr Pargs;
  Ok (items iter).

End Codec.

(** ** Message headers *)

(** A [DBusMessage] as its accessors show it: the two serials (0 until
    they are set) and the text fields of the header (NULL until they are
    set).  The libdbus calls are modelled in the case in which they do not
    run out of memory. *)
Record DBusMessage : Type := mkMessage {
  msg_serial : Z;
  msg_reply_serial : Z;
  msg_path : option (list ascii);
  msg_interface : option (list ascii);
  msg_member : option (list ascii);
  msg_error_name : option (list ascii);
  msg_sender : option (list ascii);
  msg_destination : option (list ascii)
}.

Module Message.
Import Py Num Names DBus.

Definition dbus_message_set_serial (m : DBusMessage) (serial : Z) : DBusMessage :=
  mkMessage serial (msg_reply_serial m) (msg_path m) (msg_interface m)
    (msg_member m) (msg_error_name m) (msg_sender m) (msg_destination m).

Definition dbus_message_set_reply_serial (m : DBusMessage) (serial : Z) : DBusMessage :=
  mkMessage (msg_serial m) serial (msg_path m) (msg_interface m)
    (msg_member m) (msg_error_name m) (msg_sender m) (msg_destination m).

Definition dbus_message_set_path (m : DBusMessage) (s : list ascii) : DBusMessage :=
  mkMessage (msg_serial m) (msg_reply_serial m) (Some s) (msg_interface m)
    (msg_member m) (msg_error_name m) (msg_sender m) (msg_destination m).

Definition dbus_message_set_interface (m : DBusMessage) (s : list ascii) : DBusMessage :=
  mkMessage (msg_serial m) (msg_reply_serial m) (msg_path m) (Some s)
    (msg_member m) (msg_error_name m) (msg_sender m) (msg_destination m).

Definition dbus_message_set_member (m : DBusMessage) (s : list ascii) : DBusMessage :=
  mkMessage (msg_serial m) (msg_reply_serial m) (msg_path m) (msg_interface m)
    (Some s) (msg_error_name m) (msg_sender m) (msg_destination m).

Definition dbus_message_set_error_name (m : DBusMessage) (s : list ascii) : DBusMessage :=
  mkMessage (msg_serial m) (msg_reply_serial m) (msg_path m) (msg_interface m)
    (msg_member m) (Some s) (msg_sender m) (msg_destination m).

Definition dbus_message_set_sender (m : DBusMessage) (s : list ascii) : DBusMessage :=
  mkMessage (msg_serial m) (msg_reply_serial m) (msg_path m) (msg_interface m)
    (msg_member m) (msg_error_name m) (Some s) (msg_destination m).

Definition dbus_message_set_destination (m : DBusMessage) (s : list ascii) : DBusMessage :=
  mkMessage (msg_serial m) (msg_reply_serial m) (msg_path m) (msg_interface m)
    (msg_member m) (msg_error_name m) (msg_sender m) (Some s).

(** The getters and setters of a message object; [self] is
    [self->message], [None] when it is NULL.  A setter returns the message
    as it is afterwards. *)

Definition message_get_serial (self : option DBusMessage) : result pyobj :=
  match self with
  | None => Raise (Error "uninitialized message")
  | Some message =>
      let serial := msg_serial message in
      if negb (serial =? 0) then Ok (PyLong serial) else Ok PyNone
  end.

Definition message_set_serial (self : option DBusMessage) (value : pyobj)
    : result DBusMessage :=
  match self with
  | None => Raise (Error "uninitialized message")
  | Some message =>
      if negb (PyLong_Check value) then Raise (TypeError "expecting an integer")
      else
        do _ <- check_number value "u";
        let serial := PyLong_AsUnsignedLong value in
        if serial =? 0 then Raise (ValueError "serial must be > 0")
        else Ok (dbus_message_set_serial message (wrap_unsigned 32 serial))
  end.

Definition message_get_reply_serial (self : option DBusMessage) : result pyobj :=
  match self with
  | None => Raise (Error "uninitialized message")
  | Some message =>
      let reply_serial := msg_reply_serial message in
      if negb (reply_serial =? 0) then Ok (PyLong (wrap_signed 64 reply_serial))
      else Ok PyNone
  end.

Definition message_set_reply_serial (self : option DBusMessage) (value : pyobj)
    : result DBusMessage :=
  match self with
  | None => Raise (Error "uninitialized message")
  | Some message =>
      if negb (PyLong_Check value) then Raise (TypeError "expecting an integer")
      else
        do _ <- check_number value "u";
        let serial := PyLong_AsUnsignedLong value in
        if serial =? 0 then Raise (ValueError "reply_serial must be > 0")
        else Ok (dbus_message_set_reply_serial message (wrap_unsigned 32 serial))
  end.

Definition message_get_path (self : option DBusMessage) : result pyobj :=
  match self with
  | None => Raise (Error "uninitialized message")
  | Some message =>
      match msg_path message with
      | Some path => PyUnicode_FromString path
      | None => Ok PyNone
      end
  end.

Definition message_set_path (self : option DBusMessage) (value : pyobj)
    : result DBusMessage :=
  match self with
  | None => Raise (Error "uninitialized message")
  | Some message =>
      if negb (PyUnicode_Check value) then
        Raise (TypeError "'path': expecting a string")
      else
        let path := cstr (PyUnicode_AsUTF8 value) in
        if negb (_check_path path) then Raise (ValueError "'path': illegal path")
        else Ok (dbus_message_set_path message path)
  end.

Definition message_get_interface (self : option DBusMessage) : result pyobj :=
  match self with
  | None => Raise (Error "uninitialized message")
  | Some message =>
      match msg_interface message with
      | Some interface => PyUnicode_FromString interface
      | None => Ok PyNone
      end
  end.

Definition message_set_interface (self : option DBusMessage) (value : pyobj)
    : result DBusMessage :=
  match self with
  | None => Raise (Error "uninitialized message")
  | Some message =>
      if negb (PyUnicode_Check value) then
        Raise (TypeError "'interface': expecting a string")
      else
        let interface := cstr (PyUnicode_AsUTF8 value) in
        if negb (_check_interface interface) then
          Raise (ValueError "'interface': illegal interface")
        else Ok (dbus_message_set_interface message interface)
  end.

Definition message_get_member (self : option DBusMessage) : result pyobj :=
  match self with
  | None => Raise (Error "uninitialized message")
  | Some message =>
      match msg_member message with
      | Some member => PyUnicode_FromString member
      | None => Ok PyNone
      end
  end.

Definition message_set_member (self : option DBusMessage) (value : pyobj)
    : result DBusMessage :=
  match self with
  | None => Raise (Error "uninitialized message")
  | Some message =>
      if negb (PyUnicode_Check value) then
        Raise (TypeError "'member': expecting a string")
      else
        let member := cstr (PyUnicode_AsUTF8 value) in
        if negb (_check_member member) then
          Raise (ValueError "'interface': illegal interface")
        else Ok (dbus_message_set_member message member)
  end.

Definition message_get_error_name (self : option DBusMessage) : result pyobj :=
  match self with
  | None => Raise (Error "uninitialized message")
  | Some message =>
      match msg_error_name message with
      | Some error_name => PyUnicode_FromString error_name
      | None => Ok PyNone
      end
  end.

Definition message_set_error_name (self : option DBusMessage) (value : pyobj)
    : result DBusMessage :=
  match self with
  | None => Raise (Error "uninitialized message")
  | Some message =>
      if negb (PyUnicode_Check value) then
        Raise (TypeError "'error_name': expecting a string")
      else
        let error_name := cstr (PyUnicode_AsUTF8 value) in
        if negb (_check_interface error_name) then
          Raise (ValueError "'error_name': illegal error name")
        else Ok (dbus_message_set_error_name message error_name)
  end.

(** [before] is the byte in front of the buffer of [value], which
    [_check_bus_name] reads for an empty name. *)
Definition message_get_sender (self : option DBusMessage) : result pyobj :=
  match self with
  | None => Raise (Error "uninitialized message")
  | Some message =>
      match msg_sender message with
      | Some sender => PyUnicode_FromString sender
      | None => Ok PyNone
      end
  end.

Definition message_set_sender (before : ascii) (self : option DBusMessage)
    (value : pyobj) : result DBusMessage :=
  match self with
  | None => Raise (Error "uninitialized message")
  | Some message =>
      if negb (PyUnicode_Check value) then
        Raise (TypeError "'sender': expecting a string")
      else
        let sender := cstr (PyUnicode_AsUTF8 value) in
        if negb (_check_bus_name before sender) then
          Raise (ValueError "illegal sender: %s")
        else Ok (dbus_message_set_sender message sender)
  end.

Definition message_get_destination (self : option DBusMessage) : result pyobj :=
  match self with
  | None => Raise (Error "uninitialized message")
  | Some message =>
      match msg_destination message with
      | Some destination => PyUnicode_FromString destination
      | None => Ok PyNone
      end
  end.

Definition message_set_destination (before : ascii) (self : option DBusMessage)
    (value : pyobj) : result DBusMessage :=
  match self with
  | None => Raise (Error "uninitialized message")
  | Some message =>
      if negb (PyUnicode_Check value) then
        Raise (TypeError "'destination': expecting a string")
      else
        let destination := cstr (PyUnicode_AsUTF8 value) in
        if negb (_check_bus_name before destination) then
          Raise (ValueError "illegal destination: %s")
        else Ok (dbus_message_set_destination message destination)
  end.

(** The signature of a value of a message body, and the signature of the
    body, which [dbus_message_get_signature] returns. *)
Fixpoint wire_signature (w : wire) : list ascii :=
  match w with
  | WBasic type _ => [type]
  | WContainer type signature contents =>
      if Ascii.eqb type DBUS_TYPE_ARRAY then DBUS_TYPE_ARRAY :: signature
      else if Ascii.eqb type DBUS_TYPE_STRUCT then
        DBUS_STRUCT_BEGIN_CHAR :: flat_map wire_signature contents
        ++ [DBUS_STRUCT_END_CHAR]
      else if Ascii.eqb type DBUS_TYPE_DICT_ENTRY then
        DBUS_DICT_ENTRY_BEGIN_CHAR :: flat_map wire_signature contents
        ++ [DBUS_DICT_ENTRY_END_CHAR]
      else [type]
  end.

Definition dbus_message_get_signature (message : list wire) : list ascii :=
  flat_map wire_signature message.

(** The getter of the [signature] attribute; [message] is the body. *)
Definition message_get_signature (message : list wire) : result pyobj :=
  PyUnicode_FromString (dbus_message_get_signature message).

End Message.

(** ** The module functions of the name validators *)

Module NamesApi.
Import Names.

(** [check_bus_name(bus_name)]; [before] is the byte in front of the
    buffer of the argument, which [_check_bus_name] reads for an empty
    name. *)
Definition check_bus_name (before : ascii) (bus_name : string) : result bool :=
  do name <- PyArg_Parse_s bus_name;
  Ok (_check_bus_name before name).

Definition check_path (path : string) : result bool :=
  do p <- PyArg_Parse_s path;
  Ok (_check_path p).

(** [check_interface(interface)], [check_member(member)] and
    [check_error_name(error_name)]; an error name is checked as an
    interface is. *)
Definition check_interface (interface : string) : result bool :=
  do path <- PyArg_Parse_s interface;
  Ok (_check_interface path).

Definition check_member (member : string) : result bool :=
  do path <- PyArg_Parse_s member;
  Ok (_check_member path).

Definition check_error_name (error_name : string) : result bool :=
  do path <- PyArg_Parse_s error_name;
  Ok (_check_interface path).

End NamesApi.

(** ** The grammars of the specification *)

Module Grammar.

(** The character in front of position [i], and the one behind it. *)
Definition prev_is (s : list ascii) (i : nat) (c : ascii) : Prop :=
  exists j, i = S j /\ s !! j = Some c.
Definition next_is (s : list ascii) (i : nat) (c : ascii) : Prop :=
  s !! (S i) = Some c.

(** The number of dots of a string. *)
Fixpoint dots (s : list ascii) : Z :=
  match s with
  | [] => 0
  | c :: s' => (if Ascii.eqb c "." then 1 else 0) + dots s'
  end.

(** What a bus name may hold at position [i]. *)
Definition bus_name_char (s : list ascii) (i : nat) (c : ascii) : Prop :=
  isalpha c = true \/ c = "_"%char \/ c = "-"%char
  \/ (c = "."%char /\ ~ prev_is s i "." /\ ~ next_is s i "."
      /\ ~ (i = 1%nat /\ s !! 0%nat = Some ":"%char))
  \/ (c = ":"%char /\ i = 0%nat)
  \/ (isdigit c = true /\ i <> 0%nat
      /\ (~ prev_is s i "." \/ s !! 0%nat = Some ":"%char)).

Definition bus_name (s : list ascii) : Prop :=
  s !! 0%nat <> Some "."%char
  /\ (forall i c, s !! i = Some c -> bus_name_char s i c)
  /\ last s <> Some "."%char
  /\ In "."%char s
  /\ (List.length s <= 255)%nat.

(** What an object path may hold at a position [i] after the first. *)
Definition path_char (s : list ascii) (i : nat) (c : ascii) : Prop :=
  isalnum c = true \/ c = "_"%char
  \/ (c = "/"%char /\ ~ prev_is s i "/").

Definition path (s : list ascii) : Prop :=
  s !! 0%nat = Some "/"%char
  /\ (forall i c, (0 < i)%nat -> s !! i = Some c -> path_char s i c)
  /\ (last s = Some "/"%char -> s = ["/"%char]).

(** An element of a name: a letter or an underscore, then letters, digits
    and underscores. *)
Definition name_start (c : ascii) : bool := isalpha c || Ascii.eqb c "_".
Definition name_part (c : ascii) : bool := isalnum c || Ascii.eqb c "_".

Definition element (s : list ascii) : Prop :=
  match s with
  | [] => False
  | c :: r => name_start c = true /\ Forall (fun c => name_part c = true) r
  end.

(** Elements joined by dots, and a string cut at its dots. *)
Fixpoint join_dots (es : list (list ascii)) : list ascii :=
  match es with
  | [] => []
  | e :: es' =>
      match es' with
      | [] => e
      | _ :: _ => e ++ "."%char :: join_dots es'
      end
  end.

Fixpoint split_dots (s : list ascii) : list (list ascii) :=
  match s with
  | [] => [[]]
  | c :: s' =>
      if Ascii.eqb c "." then [] :: split_dots s'
      else match split_dots s' with
           | e :: es => (c :: e) :: es
           | [] => [[c]]
           end
  end.

(** An interface name: two elements or more, joined by dots.  A member
    name: one element. *)
Definition interface (s : list ascii) : Prop :=
  exists es, (2 <= List.length es)%nat /\ Forall element es
             /\ s = join_dots es /\ (List.length s <= 255)%nat.

Definition member (s : list ascii) : Prop :=
  element s /\ (List.length s <= 255)%nat.

(** A test of every character of [r] against the one in front of it, [p]
    being in front of the first. *)
Fixpoint chain (next : ascii -> ascii -> bool) (p : ascii) (r : list ascii) : bool :=
  match r with
  | [] => true
  | c :: r' => next p c && chain next c r'
  end.

(** What may follow [p] in an interface name, and in a bus name whose
    first character is [first]. *)
Definition interface_next (p c : ascii) : bool :=
  isalpha c || Ascii.eqb c "_"
  || (Ascii.eqb c "." && negb (Ascii.eqb p "."))
  || (isdigit c && negb (Ascii.eqb p ".")).

Definition bus_name_next (first p c : ascii) : bool :=
  isalpha c || Ascii.eqb c "_" || Ascii.eqb c "-"
  || (Ascii.eqb c "." && negb (Ascii.eqb p ".") && negb (Ascii.eqb p ":"))
  || (isdigit c && (negb (Ascii.eqb p ".") || Ascii.eqb first ":")).

End Grammar.

(** ** Signatures as trees *)

Module SigSpec.
Import Sig.

(** The fourteen basic type codes. *)
Inductive basic : Type :=
  | Byte | Boolean | Int16 | UInt16 | Int32 | UInt32 | Int64 | UInt64
  | Double_ | String_ | ObjectPath | Signature | Variant | UnixFd.

Definition basic_code (b : basic) : ascii :=
  match b with
  | Byte => "y" | Boolean => "b" | Int16 => "n" | UInt16 => "q"
  | Int32 => "i" | UInt32 => "u" | Int64 => "x" | UInt64 => "t"
  | Double_ => "d" | String_ => "s" | ObjectPath => "o" | Signature => "g"
  | Variant => "v" | UnixFd => "h"
  end.

(** A full type: a basic code, an array of a full type, or a bracketed
    sequence of full types. *)
Inductive dtype : Type :=
  | TBasic (b : basic)
  | TArray (t : dtype)
  | TStruct (l : list dtype)
  | TDictEntry (l : list dtype).

(** The signature text of a type. *)
Fixpoint show (t : dtype) : list ascii :=
  match t with
  | TBasic b => [basic_code b]
  | TArray t' => "a"%char :: show t'
  | TStruct l => "("%char :: flat_map show l ++ [")"%char]
  | TDictEntry l => "{"%char :: flat_map show l ++ ["}"%char]
  end.

Definition show_list (l : list dtype) : list ascii := flat_map show l.

(** The number of arrays, and of structs and dict entries, on the deepest
    path of a type. *)
Fixpoint array_depth (t : dtype) : Z :=
  match t with
  | TBasic _ => 0
  | TArray t' => 1 + array_depth t'
  | TStruct l | TDictEntry l => fold_right (fun t' d => Z.max (array_depth t') d) 0 l
  end.

Fixpoint struct_depth (t : dtype) : Z :=
  match t with
  | TBasic _ => 0
  | TArray t' => struct_depth t'
  | TStruct l | TDictEntry l =>
      1 + fold_right (fun t' d => Z.max (struct_depth t') d) 0 l
  end.

Definition array_depth_list (l : list dtype) : Z :=
  fold_right (fun t d => Z.max (array_depth t) d) 0 l.
Definition struct_depth_list (l : list dtype) : Z :=
  fold_right (fun t d => Z.max (struct_depth t) d) 0 l.

(** Brackets that match: every closer closes the last open bracket of its
    kind, and nothing stays open. *)
Fixpoint balanced_from (s : list ascii) (open : list ascii) : bool :=
  match s with
  | [] => match open with [] => true | _ => false end
  | c :: s' =>
      if Ascii.eqb c "(" then balanced_from s' (")"%char :: open)
      else if Ascii.eqb c "{" then balanced_from s' ("}"%char :: open)
      else if Ascii.eqb c ")" || Ascii.eqb c "}" then
        match open with
        | x :: open' => if Ascii.eqb x c then balanced_from s' open' else false
        | [] => false
        end
      else balanced_from s' open
  end.

Definition balanced (s : list ascii) : bool := balanced_from s [].

(** The characters a signature is written with. *)
Definition signature_char (c : ascii) : bool :=
  existsb (Ascii.eqb c) (bytes "ybnqiuxtdsogvha(){}").

(** The two kinds of brackets. *)
Definition bracket_pair (o e : ascii) : Prop :=
  (o = "("%char /\ e = ")"%char) \/ (o = "{"%char /\ e = "}"%char).

(** The signature string of a sequence of types. *)
Definition text (l : list dtype) : string := string_of_list_ascii (show_list l).

(** The memory [m] holds at index [ptr] the C string [s]. *)
Definition string_at (m : list ascii) (ptr : nat) (s : list ascii) : Prop :=
  nul_free s /\ exists rest, drop ptr m = s ++ NUL :: rest.

(** [_check_signature] without the memory: [s] is the string at [ptr],
    [pos] is [ptr - start], and a nested call is given the bytes between
    [ptr + 1] and the terminator written at [end]. *)
Fixpoint check_sig (fuel : nat) (s : list ascii) (pos : Z)
    (arraydepth structdepth : Z) : option bool :=
  match fuel with
  | O => None
  | S fuel' =>
    match s with
    | [] => Some (negb (255 <? pos))
    | c :: _ =>
      match get_one_full_type s with
      | Raise _ => Some false
      | Ok n =>
        if (n =? 1)%nat then
          if negb (strchr basic_codes c) then Some false
          else check_sig fuel' (drop n s) (pos + Z.of_nat n) arraydepth structdepth
        else if Ascii.eqb c DBUS_TYPE_ARRAY then
          if 32 <=? arraydepth then Some false else
          match check_sig fuel' (take (n - 1) (drop 1 s)) 0
                  (arraydepth + 1) structdepth with
          | None => None
          | Some false => Some false
          | Some true =>
              check_sig fuel' (drop n s) (pos + Z.of_nat n) arraydepth structdepth
          end
        else if Ascii.eqb c DBUS_STRUCT_BEGIN_CHAR
                || Ascii.eqb c DBUS_DICT_ENTRY_BEGIN_CHAR then
          if 32 <=? structdepth then Some false else
          let store := nth (n - 1) s NUL in
          match check_sig fuel' (take (n - 2) (drop 1 s)) 0
                  arraydepth (structdepth + 1) with
          | None => None
          | Some false => Some false
          | Some true =>
              if (Ascii.eqb c DBUS_STRUCT_BEGIN_CHAR
                  && negb (Ascii.eqb store DBUS_STRUCT_END_CHAR))
                 || (Ascii.eqb c DBUS_DICT_ENTRY_BEGIN_CHAR
                     && negb (Ascii.eqb store DBUS_DICT_ENTRY_END_CHAR))
              then Some false
              else check_sig fuel' (drop n s) (pos + Z.of_nat n)
                     arraydepth structdepth
          end
        else check_sig fuel' (drop n s) (pos + Z.of_nat n) arraydepth structdepth
      end
    end
  end.

(** A type with every dict entry turned into the struct of the same
    members. *)
Fixpoint as_struct (t : dtype) : dtype :=
  match t with
  | TBasic b => TBasic b
  | TArray t' => TArray (as_struct t')
  | TStruct l => TStruct (map as_struct l)
  | TDictEntry l => TStruct (map as_struct l)
  end.

(** The memory [m'] is [m] but for bytes overwritten by a terminator. *)
Definition truncates (m' m : list ascii) : Prop :=
  List.length m' = List.length m
  /\ forall i, load m' i = load m i \/ load m' i = NUL.

(** The text of one full type as [split_signature] cuts it out:
    [get_one_full_type] takes all of it. *)
Definition full_type_text (p : string) : Prop :=
  bytes p <> [] /\ nul_free (bytes p) /\ utf8_valid (bytes p) = true
  /\ get_one_full_type (bytes p) = Ok (List.length (bytes p)).

End SigSpec.

(** ** The integer ranges of the specification *)

Module NumSpec.

(** The bounds of the fixed-width integer types. *)
Definition int_range (type : ascii) : option (Z * Z) :=
  if Ascii.eqb type "y" then Some (0, 2 ^ 8 - 1)
  else if Ascii.eqb type "q" then Some (0, 2 ^ 16 - 1)
  else if Ascii.eqb type "u" then Some (0, 2 ^ 32 - 1)
  else if Ascii.eqb type "t" then Some (0, 2 ^ 64 - 1)
  else if Ascii.eqb type "n" then Some (- 2 ^ 15, 2 ^ 15 - 1)
  else if Ascii.eqb type "i" then Some (- 2 ^ 31, 2 ^ 31 - 1)
  else if Ascii.eqb type "x" then Some (- 2 ^ 63, 2 ^ 63 - 1)
  else None.

Definition range_error : exn := ValueError "value out of range for `%c' format".

End NumSpec.

(** ** Specification of the codec *)

Module CodecSpec.
Import Py Sig SigSpec Names NumSpec.

(** The value of the last pair of [kvs] whose key is equal to [k]. *)
Fixpoint last_value (kvs : list (pyobj * pyobj)) (k : pyobj) : option pyobj :=
  match kvs with
  | [] => None
  | (k', v) :: rest =>
      match last_value rest k with
      | Some v' => Some v'
      | None => if py_eqb k' k then Some v else None
      end
  end.

(** A dict built by inserting [kvs] in order. *)
Definition dict_of (kvs : list (pyobj * pyobj)) : list (pyobj * pyobj) :=
  fold_left (fun d kv => dict_set d (fst kv) (snd kv)) kvs [].

(** An iterator after one more value, and after several. *)
Definition push (iter : DBusMessageIter) (w : wire) : DBusMessageIter :=
  mkIter (container_type iter) (contained_signature iter) (items iter ++ [w]).

Definition push_all (iter : DBusMessageIter) (ws : list wire) : DBusMessageIter :=
  mkIter (container_type iter) (contained_signature iter) (items iter ++ ws).

(** The two arity errors. *)
Definition too_few : exn := TypeError "too few arguments for signature string".
Definition too_many : exn := TypeError "too many arguments for signature string".

(** Encoding a sequence of values against a sequence of types, as the
    specification words it: the value at each position against the type
    at that position, in order, and as many values as types. *)
Fixpoint append_each
    (append_arg : DBusMessageIter -> list ascii -> pyobj -> result DBusMessageIter)
    (iter : DBusMessageIter) (ts : list dtype) (vs : list pyobj)
    : result DBusMessageIter :=
  match ts, vs with
  | [], [] => Ok iter
  | [], _ :: _ => Raise too_many
  | _ :: _, [] => Raise too_few
  | t :: ts', v :: vs' =>
      do iter <- append_arg iter (show t) v;
      append_each append_arg iter ts' vs'
  end.

(** The items of a Python dict: the keys have a hash and no two of them
    are equal. *)
Fixpoint dict_wf (d : list (pyobj * pyobj)) : Prop :=
  match d with
  | [] => True
  | (k, v) :: d' =>
      py_hashable k = true
      /\ Forall (fun kv => py_eqb k (fst kv) = false) d'
      /\ dict_wf d'
  end.

(** The three kinds of text. *)
Definition text_kind (b : basic) : bool :=
  match b with
  | String_ | ObjectPath | Signature => true
  | _ => false
  end.

(** A value tree of the shape of a type.  An integer lies within the
    bounds of its width, a text is a [str], a byte array a [bytes], an
    array a list, a struct a tuple with one value for each member, a dict
    entry a pair, an array of dict entries a dict, a variant the pair of
    the signature of one full type and a value of that type.  [side] is a
    further condition imposed at every node. *)
Inductive matches (side : dtype -> pyobj -> Prop) : dtype -> pyobj -> Prop :=
  | M_int (b : basic) (lo hi n : Z) :
      int_range (basic_code b) = Some (lo, hi) -> lo <= n <= hi ->
      side (TBasic b) (PyLong n) ->
      matches side (TBasic b) (PyLong n)
  | M_bool (x : bool) :
      side (TBasic Boolean) (PyBool x) ->
      matches side (TBasic Boolean) (PyBool x)
  | M_double (bits : Z) :
      side (TBasic Double_) (PyFloat bits) ->
      matches side (TBasic Double_) (PyFloat bits)
  | M_text (b : basic) (s : string) :
      text_kind b = true -> utf8_valid (bytes s) = true ->
      side (TBasic b) (PyUnicode s) ->
      matches side (TBasic b) (PyUnicode s)
  | M_variant (t : dtype) (v : pyobj) :
      matches side t v ->
      side (TBasic Variant) (PyTuple [PyUnicode (text [t]); v]) ->
      matches side (TBasic Variant) (PyTuple [PyUnicode (text [t]); v])
  | M_bytes (s : string) :
      side (TArray (TBasic Byte)) (PyBytes s) ->
      matches side (TArray (TBasic Byte)) (PyBytes s)
  | M_dict (K V : dtype) (d : list (pyobj * pyobj)) :
      dict_wf d -> matches_entries side K V d ->
      side (TArray (TDictEntry [K; V])) (PyDict d) ->
      matches side (TArray (TDictEntry [K; V])) (PyDict d)
  | M_array (t : dtype) (vs : list pyobj) :
      t <> TBasic Byte -> (forall l, t <> TDictEntry l) ->
      matches_items side t vs ->
      side (TArray t) (PyList vs) ->
      matches side (TArray t) (PyList vs)
  | M_struct (ts : list dtype) (vs : list pyobj) :
      matches_list side ts vs ->
      side (TStruct ts) (PyTuple vs) ->
      matches side (TStruct ts) (PyTuple vs)
  | M_dict_entry (K V : dtype) (k v : pyobj) :
      matches side K k -> matches side V v ->
      side (TDictEntry [K; V]) (PyTuple [k; v]) ->
      matches side (TDictEntry [K; V]) (PyTuple [k; v])
with matches_list (side : dtype -> pyobj -> Prop) : list dtype -> list pyobj -> Prop :=
  | ML_nil : matches_list side [] []
  | ML_cons (t : dtype) (ts : list dtype) (v : pyobj) (vs : list pyobj) :
      matches side t v -> matches_list side ts vs ->
      matches_list side (t :: ts) (v :: vs)
with matches_items (side : dtype -> pyobj -> Prop) : dtype -> list pyobj -> Prop :=
  | MI_nil (t : dtype) : matches_items side t []
  | MI_cons (t : dtype) (v : pyobj) (vs : list pyobj) :
      matches side t v -> matches_items side t vs ->
      matches_items side t (v :: vs)
with matches_entries (side : dtype -> pyobj -> Prop)
       : dtype -> dtype -> list (pyobj * pyobj) -> Prop :=
  | ME_nil (K V : dtype) : matches_entries side K V []
  | ME_cons (K V : dtype) (k v : pyobj) (d : list (pyobj * pyobj)) :
      matches side K k -> matches side V v -> matches_entries side K V d ->
      matches_entries side K V ((k, v) :: d).

Scheme matches_min := Minimality for matches Sort Prop
  with matches_list_min := Minimality for matches_list Sort Prop
  with matches_items_min := Minimality for matches_items Sort Prop
  with matches_entries_min := Minimality for matches_entries Sort Prop.

Combined Scheme matches_mutual from
  matches_min, matches_list_min, matches_items_min, matches_entries_min.

(** The signature between the brackets of a container as
    [message_append_args] walks it: the member types and the closing
    bracket, which is stepped over right after the last member. *)
Definition contents_sig (ts : list dtype) (closer : list ascii) : list ascii :=
  match ts with
  | [] => []
  | _ :: _ => show_list ts ++ closer
  end.



(** A value of a message body that is a legal value of the type [t]: an
    integer within the bounds of its width, a boolean 0 or 1, a text with
    no NUL inside, an object path and a signature that pass their
    validators, a variant holding one value of the full type that its
    signature names, an array whose items are all of its element type, a
    struct or dict entry with one value for each member. *)
Inductive wire_ok : wire -> dtype -> Prop :=
  | WO_int (b : basic) (lo hi n : Z) :
      int_range (basic_code b) = Some (lo, hi) -> lo <= n <= hi ->
      wire_ok (WBasic (basic_code b) (VInt n)) (TBasic b)
  | WO_boolean (n : Z) :
      n = 0 \/ n = 1 ->
      wire_ok (WBasic "b" (VInt n)) (TBasic Boolean)
  | WO_double (bits : Z) :
      wire_ok (WBasic "d" (VDbl bits)) (TBasic Double_)
  | WO_string (s : list ascii) :
      nul_free s ->
      wire_ok (WBasic "s" (VStr s)) (TBasic String_)
  | WO_object_path (s : list ascii) :
      nul_free s -> _check_path s = true ->
      wire_ok (WBasic "o" (VStr s)) (TBasic ObjectPath)
  | WO_signature (s : list ascii) :
      nul_free s -> _check_signature s 0 0 = true ->
      wire_ok (WBasic "g" (VStr s)) (TBasic Signature)
  | WO_variant (t : dtype) (w : wire) :
      _check_signature (show t) 0 0 = true -> wire_ok w t ->
      wire_ok (WContainer "v" (show t) [w]) (TBasic Variant)
  | WO_array (t : dtype) (ws : list wire) :
      Forall (fun w => wire_ok w t) ws ->
      wire_ok (WContainer "a" (show t) ws) (TArray t)
  | WO_struct (ts : list dtype) (ws : list wire) :
      ts <> [] -> Forall2 wire_ok ws ts ->
      wire_ok (WContainer "r" [] ws) (TStruct ts)
  | WO_dict_entry (ts : list dtype) (ws : list wire) :
      ts <> [] -> Forall2 wire_ok ws ts ->
      wire_ok (WContainer "e" [] ws) (TDictEntry ts).

(** A failure that Python sees as an exception: the function did not
    return NULL with no exception set, and the model did not run out of
    its recursion budget. *)
Definition python_exception (e : exn) : Prop := e <> NoError /\ e <> OutOfFuel.

(** A value of a message body in the form in which the encoder writes a
    value of the type [t]: a legal value, whose texts are well-formed
    UTF-8, whose dict entries have a key and a value, and whose arrays of
    dict entries hold no key twice (the keys, once read, have a hash and
    no two of them are equal). *)
Inductive canonical : wire -> dtype -> Prop :=
  | CN_int (b : basic) (lo hi n : Z) :
      int_range (basic_code b) = Some (lo, hi) -> lo <= n <= hi ->
      canonical (WBasic (basic_code b) (VInt n)) (TBasic b)
  | CN_boolean (x : bool) :
      canonical (WBasic "b" (VInt (Z.b2z x))) (TBasic Boolean)
  | CN_double (bits : Z) :
      canonical (WBasic "d" (VDbl bits)) (TBasic Double_)
  | CN_text (b : basic) (s : string) :
      text_kind b = true ->
      nul_free (bytes s) -> utf8_valid (bytes s) = true ->
      (b = ObjectPath -> _check_path (bytes s) = true) ->
      (b = Signature -> _check_signature (bytes s) 0 0 = true) ->
      canonical (WBasic (basic_code b) (VStr (bytes s))) (TBasic b)
  | CN_variant (t : dtype) (w : wire) :
      _check_signature (show t) 0 0 = true -> canonical w t ->
      canonical (WContainer "v" (show t) [w]) (TBasic Variant)
  | CN_bytes (data : string) :
      canonical
        (WContainer "a" ["y"%char]
           (map (fun c => WBasic "y" (VInt (code c))) (bytes data)))
        (TArray (TBasic Byte))
  | CN_dict (K V : dtype) (entries : list wire) :
      canonical_entries entries K V ->
      (forall kvs,
          Forall2 (fun w kv => Codec.message_read_arg w
                               = Ok (PyTuple [fst kv; snd kv])) entries kvs ->
          dict_wf kvs) ->
      canonical (WContainer "a" (show (TDictEntry [K; V])) entries)
        (TArray (TDictEntry [K; V]))
  | CN_array (t : dtype) (ws : list wire) :
      t <> TBasic Byte -> (forall l, t <> TDictEntry l) ->
      canonical_items ws t ->
      canonical (WContainer "a" (show t) ws) (TArray t)
  | CN_struct (t : dtype) (ts : list dtype) (ws : list wire) :
      canonical_list ws (t :: ts) ->
      canonical (WContainer "r" [] ws) (TStruct (t :: ts))
  | CN_dict_entry (K V : dtype) (wk wv : wire) :
      canonical wk K -> canonical wv V ->
      canonical (WContainer "e" [] [wk; wv]) (TDictEntry [K; V])
with canonical_list : list wire -> list dtype -> Prop :=
  | CL_nil : canonical_list [] []
  | CL_cons (w : wire) (ws : list wire) (t : dtype) (ts : list dtype) :
      canonical w t -> canonical_list ws ts ->
      canonical_list (w :: ws) (t :: ts)
with canonical_items : list wire -> dtype -> Prop :=
  | CI_nil (t : dtype) : canonical_items [] t
  | CI_cons (w : wire) (ws : list wire) (t : dtype) :
      canonical w t -> canonical_items ws t ->
      canonical_items (w :: ws) t
with canonical_entries : list wire -> dtype -> dtype -> Prop :=
  | CE_nil (K V : dtype) : canonical_entries [] K V
  | CE_cons (K V : dtype) (wk wv : wire) (ws : list wire) :
      canonical wk K -> canonical wv V -> canonical_entries ws K V ->
      canonical_entries (WContainer "e" [] [wk; wv] :: ws) K V.

Scheme canonical_min := Minimality for canonical Sort Prop
  with canonical_list_min := Minimality for canonical_list Sort Prop
  with canonical_items_min := Minimality for canonical_items Sort Prop
  with canonical_entries_min := Minimality for canonical_entries Sort Prop.

Combined Scheme canonical_mutual from
  canonical_min, canonical_list_min, canonical_items_min, canonical_entries_min.

End CodecSpec.

Module RoundTrip.
Import Py DBus Codec SigSpec CodecSpec.





(** The other way round: [w] is read as a value that, written against
    the type [t], is [w] again. *)
Definition wire_round_trips (w : wire) (t : dtype) : Prop :=
  exists v,
    message_read_arg w = Ok v
    /\ forall (fuel : nat) (iter : DBusMessageIter),
         (py_size v <= fuel)%nat ->
         message_append_arg fuel iter (show t) v = Ok (push iter w).

Definition wires_round_trip (ws : list wire) (ts : list dtype) : Prop :=
  exists vs,
    (forall acc, message_read_args_loop message_read_arg ws acc = Ok (acc ++ vs))
    /\ forall (fuel : nat) (iter : DBusMessageIter),
         Forall (fun v => (py_size v <= fuel)%nat) vs ->
         append_each (message_append_arg fuel) iter ts vs = Ok (push_all iter ws).

Definition wire_items_round_trip (ws : list wire) (t : dtype) : Prop :=
  exists vs,
    (forall acc, read_items_loop message_read_arg ws (PyList acc)
                 = Ok (PyList (acc ++ vs)))
    /\ forall (fuel : nat) (iter : DBusMessageIter),
         Forall (fun v => (py_size v <= fuel)%nat) vs ->
         append_items (message_append_arg fuel) iter (show t) vs
         = Ok (push_all iter ws).

Definition wire_entries_round_trip (ws : list wire) (K V : dtype) : Prop :=
  exists kvs,
    Forall2 (fun w kv => message_read_arg w = Ok (PyTuple [fst kv; snd kv])) ws kvs
    /\ forall (fuel : nat) (iter : DBusMessageIter),
         Forall (fun kv => (S (py_size (fst kv) + py_size (snd kv)) <= fuel)%nat) kvs ->
         append_items (message_append_arg fuel) iter (show (TDictEntry [K; V]))
           (map (fun kv => PyTuple [fst kv; snd kv]) kvs)
         = Ok (push_all iter ws).

End RoundTrip.

(** ** Specification of the message headers *)

Module MessageSpec.

(** A text field of the header that holds names of the grammar [G]: the
    setter takes a [str] up to its first NUL, stores it when it is a name
    of the grammar, after which the getter returns it, and fails with a
    [ValueError] when it is not. *)
Definition text_field
    (set : option DBusMessage -> pyobj -> result DBusMessage)
    (get : option DBusMessage -> result pyobj)
    (G : list ascii -> Prop) : Prop :=
  forall (m : DBusMessage) (s : string),
    (G (cstr (bytes s)) ->
       exists m', set (Some m) (PyUnicode s) = Ok m'
                  /\ get (Some m')
                     = Ok (PyUnicode (string_of_list_ascii (cstr (bytes s)))))
    /\ (~ G (cstr (bytes s)) ->
          exists msg, set (Some m) (PyUnicode s) = Raise (ValueError msg)).

(** The characters of the names of the four grammars. *)
Definition name_char (c : ascii) : bool :=
  isalnum c || existsb (Ascii.eqb c) (bytes "_-.:/").

End MessageSpec.

(** * Properties *)

(** ** C strings *)

Lemma eqb_NUL_false (c : ascii) : c <> NUL -> Ascii.eqb c NUL = false.
Proof. intros H. apply Ascii.eqb_neq. exact H. Qed.

Lemma nul_free_cons (c : ascii) (s : list ascii) :
  nul_free (c :: s) <-> c <> NUL /\ nul_free s.
Proof.
  unfold nul_free. simpl. split.
  - intros H. split; [intros ->; apply H; now left | intros H'; apply H; now right].
  - intros [H1 H2] [H | H]; [congruence | auto].
Qed.

Lemma strlen_nul_free (s : list ascii) : nul_free s -> strlen s = List.length s.
Proof.
  induction s as [|c s IH]; [reflexivity|].
  intros [Hc Hs]%nul_free_cons. simpl.
  rewrite eqb_NUL_false by assumption. now rewrite IH.
Qed.

Lemma cstr_nul_free (s : list ascii) : nul_free s -> cstr s = s.
Proof.
  intros H. unfold cstr. rewrite strlen_nul_free by assumption.
  apply firstn_all.
Qed.

Lemma PyArg_Parse_s_Ok (s : string) (b : list ascii) :
  PyArg_Parse_s s = Ok b <-> b = bytes s /\ nul_free (bytes s).
Proof.
  unfold PyArg_Parse_s.
  destruct (existsb (Ascii.eqb NUL) (bytes s)) eqn:E.
  - split; [discriminate|]. intros [_ H]. exfalso.
    apply existsb_exists in E as (c & Hin & Hc).
    apply Ascii.eqb_eq in Hc. subst c. exact (H Hin).
  - split.
    + intros [= <-]. split; [reflexivity|]. intros Hin.
      assert (existsb (Ascii.eqb NUL) (bytes s) = true) as E'.
      { apply existsb_exists. exists NUL. split; [assumption | apply Ascii.eqb_refl]. }
      congruence.
    + now intros [-> _].
Qed.

Lemma char_at_lookup (before : ascii) (s : list ascii) (i : nat) (c : ascii) :
  s !! i = Some c -> char_at before s (Z.of_nat i) = c.
Proof.
  intros H. unfold char_at.
  destruct (Z.ltb_spec (Z.of_nat i) 0); [lia|].
  rewrite Nat2Z.id. apply nth_lookup_Some with (d := NUL) in H. exact H.
Qed.

Lemma char_at_end (before : ascii) (s : list ascii) (i : nat) :
  (List.length s <= i)%nat -> char_at before s (Z.of_nat i) = NUL.
Proof.
  intros H. unfold char_at.
  destruct (Z.ltb_spec (Z.of_nat i) 0); [lia|].
  rewrite Nat2Z.id. apply nth_overflow. exact H.
Qed.

Lemma lookup_nul_free (s : list ascii) (i : nat) (c : ascii) :
  nul_free s -> s !! i = Some c -> c <> NUL.
Proof.
  intros Hs H ->. apply Hs. apply list_elem_of_In.
  eapply list_elem_of_lookup_2. exact H.
Qed.

(** ** Name validators *)

Section BusName.

Variable before : ascii.
Variable name : list ascii.
Hypothesis name_nul_free : nul_free name.

Import Names Grammar.

Lemma dots_nonneg (s : list ascii) : 0 <= dots s.
Proof. induction s as [|c s IH]; simpl; [lia|]. destruct (Ascii.eqb c "."); lia. Qed.

Lemma dots_zero (s : list ascii) : dots s = 0 <-> ~ In "."%char s.
Proof.
  induction s as [|c s IH]; simpl; [tauto|].
  pose proof (dots_nonneg s).
  destruct (Ascii.eqb_spec c "."%char) as [->|Hc].
  - split; [lia | intros H'; exfalso; apply H'; now left].
  - rewrite Z.add_0_l, IH. split; [intros Hs [?|?]; auto | tauto].
Qed.

(** The loop runs to the end of the name when every position passes the
    test of the body, and returns from the body otherwise. *)
Lemma bus_name_loop_spec (k : nat) :
  forall (i : nat) (nd : Z) (fuel : nat),
    (i + k)%nat = List.length name -> (k <= fuel)%nat ->
    (bus_name_loop fuel before name (Z.of_nat i) nd
       = Some (Z.of_nat (List.length name), nd + dots (drop i name))
     /\ forall j, (i <= j < List.length name)%nat ->
                  bus_name_char_ok before name (Z.of_nat j) = true)
    \/ (bus_name_loop fuel before name (Z.of_nat i) nd = None
        /\ exists j, (i <= j < List.length name)%nat
                     /\ bus_name_char_ok before name (Z.of_nat j) = false).
Proof using name_nul_free.
  induction k as [|k IH]; intros i nd fuel Hlen Hfuel.
  - left. assert (i = List.length name) as -> by lia.
    rewrite drop_all. simpl. split; [|intros j ?; lia].
    destruct fuel; simpl; rewrite char_at_end by lia; simpl;
      rewrite Z.add_0_r; reflexivity.
  - destruct fuel as [|fuel]; [lia|].
    destruct (lookup_lt_is_Some_2 name i) as [c Hc]; [lia|].
    pose proof (lookup_nul_free _ _ _ name_nul_free Hc) as Hnz.
    simpl. rewrite (char_at_lookup _ _ _ _ Hc).
    rewrite eqb_NUL_false by assumption.
    destruct (bus_name_char_ok before name (Z.of_nat i)) eqn:Hok; simpl.
    + replace (Z.of_nat i + 1) with (Z.of_nat (S i)) by lia.
      rewrite (drop_S _ _ _ Hc). simpl.
      destruct (IH (S i) (if Ascii.eqb c "." then nd + 1 else nd) fuel)
        as [[-> Hall] | [-> Hex]]; [lia | lia | |].
      * left. split.
        -- f_equal. f_equal. destruct (Ascii.eqb c "."); lia.
        -- intros j Hj. destruct (decide (j = i)) as [->|]; [assumption|].
           apply Hall. lia.
      * right. split; [reflexivity|].
        destruct Hex as (j & Hj & Hbad). exists j. split; [lia | assumption].
    + right. split; [reflexivity|]. exists i. split; [lia | assumption].
Qed.

(** The value of [_check_bus_name], position by position. *)
Lemma _check_bus_name_true :
  _check_bus_name before name = true <->
    name !! 0%nat <> Some "."%char
    /\ (forall j, (j < List.length name)%nat ->
                  bus_name_char_ok before name (Z.of_nat j) = true)
    /\ last name <> Some "."%char
    /\ In "."%char name
    /\ (List.length name <= 255)%nat.
Proof using name_nul_free.
  unfold _check_bus_name.
  assert (Ascii.eqb (char_at before name 0) "." = true
          <-> name !! 0%nat = Some "."%char) as Hfirst.
  { destruct name as [|c s]; simpl; [split; discriminate|].
    unfold char_at. simpl. rewrite Ascii.eqb_eq.
    split; [now intros -> | now intros [= ->]]. }
  destruct (Ascii.eqb (char_at before name 0) ".") eqn:E0.
  { split; [discriminate|]. intros (H & _). exfalso. apply H, Hfirst. reflexivity. }
  assert (name !! 0%nat <> Some "."%char) as Hnd.
  { intros H. apply Hfirst in H. discriminate. }
  destruct (bus_name_loop_spec (List.length name) 0 0 (List.length name))
    as [[Hloop Hall] | [Hloop Hex]]; [lia | lia | |].
  - change (Z.of_nat 0) with 0 in Hloop. rewrite Hloop.
    rewrite drop_0, Z.add_0_l.
    split.
    + intros H.
      destruct (Ascii.eqb (char_at before name (Z.of_nat (List.length name) - 1)) ".") eqn:E1;
        [discriminate|].
      destruct (Z.eqb_spec (dots name) 0) as [|Hdots]; [discriminate|].
      destruct (Z.ltb_spec DBUS_MAXIMUM_NAME_LENGTH (Z.of_nat (List.length name)));
        [discriminate|].
      unfold DBUS_MAXIMUM_NAME_LENGTH in *.
      split; [assumption|]. split; [intros j Hj; apply Hall; lia|].
      split; [|split; [|lia]].
      * intros Hlast. apply last_Some in Hlast as (l' & Hl').
        assert (name !! (List.length l') = Some "."%char) as Hlk.
        { rewrite Hl'. rewrite lookup_app_r by lia.
          replace (List.length l' - List.length l')%nat with 0%nat by lia. reflexivity. }
        apply (char_at_lookup before) in Hlk.
        replace (Z.of_nat (List.length name) - 1) with (Z.of_nat (List.length l')) in E1.
        -- rewrite Hlk in E1. discriminate.
        -- rewrite Hl'. rewrite length_app. simpl. lia.
      * destruct (in_dec ascii_dec "."%char name) as [|Hn]; [assumption|].
        apply dots_zero in Hn. contradiction.
    + intros (_ & _ & Hlast & Hdot & Hlen).
      assert (Ascii.eqb (char_at before name (Z.of_nat (List.length name) - 1)) "." = false) as ->.
      { apply Ascii.eqb_neq. intros Hc.
        destruct (last name) as [x|] eqn:Hlx.
        2:{ apply last_None in Hlx. rewrite Hlx in Hdot. destruct Hdot. }
        pose proof Hlx as Hl'. apply last_Some in Hl' as (l' & Hl').
        - apply Hlast. f_equal.
          assert (name !! (List.length l') = Some x) as Hlk.
          { rewrite Hl'. rewrite lookup_app_r by lia.
            replace (List.length l' - List.length l')%nat with 0%nat by lia. reflexivity. }
          apply (char_at_lookup before) in Hlk.
          replace (Z.of_nat (List.length name) - 1) with (Z.of_nat (List.length l')) in Hc.
          + congruence.
          + rewrite Hl'. rewrite length_app. simpl. lia. }
      destruct (Z.eqb_spec (dots name) 0) as [Hz|_].
      { apply dots_zero in Hz. contradiction. }
      unfold DBUS_MAXIMUM_NAME_LENGTH.
      destruct (Z.ltb_spec 255 (Z.of_nat (List.length name))); [lia|]. reflexivity.
  - change (Z.of_nat 0) with 0 in Hloop. rewrite Hloop.
    split; [discriminate|]. intros (_ & Hall & _).
    destruct Hex as (j & Hj & Hbad). rewrite Hall in Hbad by lia. discriminate.
Qed.

End BusName.

Section BusNameGrammar.

Variable before : ascii.
Variable name : list ascii.
Hypothesis name_nul_free : nul_free name.

Import Names Grammar.

Lemma char_at_pred (j : nat) :
  char_at before name (Z.of_nat (S j) - 1) = char_at before name (Z.of_nat j).
Proof. f_equal. lia. Qed.

Lemma char_at_0_lookup (c : ascii) :
  name <> [] -> char_at before name 0 = c <-> name !! 0%nat = Some c.
Proof.
  destruct name as [|x s]; [congruence|]. intros _. unfold char_at. simpl.
  split; [now intros -> | now intros [= ->]].
Qed.

(** The test of the loop body at every position is the character rule of
    the grammar at every position. *)
Lemma bus_name_chars_iff :
  name !! 0%nat <> Some "."%char ->
  (forall j, (j < List.length name)%nat ->
             bus_name_char_ok before name (Z.of_nat j) = true)
  <-> (forall i c, name !! i = Some c -> bus_name_char name i c).
Proof using name_nul_free.
  intros Hfirst. split.
  - intros Hall i c Hc.
    pose proof (lookup_lt_Some _ _ _ Hc) as Hi.
    pose proof (Hall i Hi) as Hok.
    unfold bus_name_char_ok in Hok. cbv zeta in Hok.
    rewrite (char_at_lookup _ _ _ _ Hc) in Hok.
    unfold bus_name_char.
    rewrite !orb_true_iff, !andb_true_iff in Hok.
    rewrite !orb_true_iff, !negb_true_iff in Hok.
    rewrite !Ascii.eqb_eq, !Ascii.eqb_neq in Hok.
    destruct Hok as [[[[[H|H]|H]|[[H1 H2] H3]]|[H1 H2]]|[[H1 H2] [H3|H3]]].
    + now left.
    + right; now left.
    + right; right; now left.
    + right; right; right; left. subst c.
      repeat split.
      * intros (j & -> & Hj). rewrite char_at_pred in H2.
        apply (char_at_lookup before) in Hj. congruence.
      * unfold next_is. intros Hn.
        pose proof (lookup_lt_Some _ _ _ Hn) as Hn'.
        pose proof (Hall (S i) Hn') as Hok'.
        unfold bus_name_char_ok in Hok'. cbv zeta in Hok'.
        rewrite char_at_pred in Hok'.
        rewrite (char_at_lookup _ _ _ _ Hn) in Hok'.
        rewrite (char_at_lookup _ _ _ _ Hc) in Hok'.
        vm_compute in Hok'. discriminate.
      * intros [-> H0']. apply (char_at_lookup before) in H0'.
        change (Z.of_nat 1 - 1) with (Z.of_nat 0) in H3. congruence.
    + right; right; right; right; left. split; [assumption|].
      apply Z.eqb_eq in H2. lia.
    + right; right; right; right; right. apply Z.ltb_lt in H2.
      split; [assumption|]. split; [lia|]. left.
      intros (j & -> & Hj). rewrite char_at_pred in H3.
      apply (char_at_lookup before) in Hj. congruence.
    + right; right; right; right; right. apply Z.ltb_lt in H2.
      split; [assumption|]. split; [lia|]. right.
      apply char_at_0_lookup; [|assumption]. intros ->. discriminate.
  - intros Hall j Hj.
    destruct (lookup_lt_is_Some_2 name j Hj) as [c Hc].
    pose proof (Hall j c Hc) as Hgj.
    unfold bus_name_char_ok. cbv zeta.
    rewrite (char_at_lookup _ _ _ _ Hc).
    destruct Hgj as [H | [H | [H | [H | [H | H]]]]].
    + rewrite H. reflexivity.
    + subst c. reflexivity.
    + subst c. reflexivity.
    + destruct H as (-> & Hprev & _ & Hcolon).
      destruct j as [|j']; [congruence|].
      rewrite char_at_pred.
      destruct (lookup_lt_is_Some_2 name j') as [p Hp]; [lia|].
      rewrite (char_at_lookup _ _ _ _ Hp).
      assert (p <> "."%char) as Hp1.
      { intros ->. apply Hprev. exists j'. split; [reflexivity | assumption]. }
      assert (p <> ":"%char) as Hp2.
      { intros ->.
        pose proof (Hall j' ":"%char Hp) as Hg.
        destruct Hg as [Hg | [Hg | [Hg | [[Hg _] | [[_ Hg] | [Hg _]]]]]];
          try discriminate.
        subst j'. apply Hcolon. split; [reflexivity | assumption]. }
      apply Ascii.eqb_neq in Hp1, Hp2. rewrite Hp1, Hp2. reflexivity.
    + destruct H as [-> ->]. reflexivity.
    + destruct H as (Hd & Hj0 & Hp).
      rewrite Hd.
      assert ((0 <? Z.of_nat j) = true) as -> by (apply Z.ltb_lt; lia).
      destruct j as [|j']; [congruence|].
      rewrite char_at_pred.
      destruct (lookup_lt_is_Some_2 name j') as [p Hp']; [lia|].
      rewrite (char_at_lookup _ _ _ _ Hp').
      assert ((negb (Ascii.eqb p ".") || Ascii.eqb (char_at before name 0) ":") = true) as ->.
      { destruct Hp as [Hp | Hp].
        - assert (p <> "."%char) as Hp1.
          { intros ->. apply Hp. exists j'. split; [reflexivity | assumption]. }
          apply Ascii.eqb_neq in Hp1. rewrite Hp1. reflexivity.
        - apply (char_at_lookup before) in Hp. change (Z.of_nat 0) with 0 in Hp.
          rewrite Hp. apply orb_true_r. }
      rewrite !orb_true_r. reflexivity.
Qed.

Lemma _check_bus_name_grammar :
  _check_bus_name before name = true <-> Grammar.bus_name name.
Proof using name_nul_free.
  rewrite _check_bus_name_true by assumption. unfold Grammar.bus_name.
  split.
  - intros (H1 & H2 & H3). split; [assumption|]. split; [|assumption].
    apply bus_name_chars_iff; assumption.
  - intros (H1 & H2 & H3). split; [assumption|]. split; [|assumption].
    apply bus_name_chars_iff; assumption.
Qed.

End BusNameGrammar.

Lemma bus_name_nul_free (s : list ascii) : Grammar.bus_name s -> nul_free s.
Proof.
  intros (_ & Hall & _) Hin.
  apply list_elem_of_In, list_elem_of_lookup in Hin as (i & Hi).
  specialize (Hall i NUL Hi).
  destruct Hall as [H | [H | [H | [[H _] | [[H _] | [H _]]]]]];
    vm_compute in H; discriminate.
Qed.

(** C7.  [check_bus_name] returns [True] exactly for the strings of the
    bus name grammar: no leading ['.'], every character alphabetic, ['_'],
    ['-'], a ['.'] with no ['.'] next to it and not right after the leading
    [':'], a [':'] at position 0, or a digit that is not first and follows
    a ['.'] only in a name that starts with [':']; not ending with ['.'],
    holding a ['.'], and at most 255 characters long.  [":1.42"] is
    accepted and ["foo"] is rejected. *)
Theorem check_bus_name_grammar :
  (forall (before : ascii) (s : string),
      NamesApi.check_bus_name before s = Ok true <-> Grammar.bus_name (bytes s))
  /\ (forall before, NamesApi.check_bus_name before ":1.42" = Ok true)
  /\ (forall before, NamesApi.check_bus_name before "foo" = Ok false).
Proof.
  split; [|split; intros before; reflexivity].
  intros before s. unfold NamesApi.check_bus_name.
  destruct (PyArg_Parse_s s) as [b|e] eqn:E; simpl.
  - apply PyArg_Parse_s_Ok in E as [-> Hnf].
    rewrite <- (_check_bus_name_grammar before _ Hnf).
    split; [now intros [= ->] | now intros ->].
  - split; [discriminate|]. intros Hg. apply bus_name_nul_free in Hg.
    assert (PyArg_Parse_s s = Ok (bytes s)) as E'
      by (apply PyArg_Parse_s_Ok; split; [reflexivity | assumption]).
    congruence.
Qed.

Section Path.

Variable pth : list ascii.
Hypothesis pth_nul_free : nul_free pth.

Import Names Grammar.

Lemma path_loop_spec (k : nat) :
  forall (i fuel : nat),
    (i + k)%nat = List.length pth -> (k <= fuel)%nat ->
    (path_loop fuel pth (Z.of_nat i) = Some (Z.of_nat (List.length pth))
     /\ forall j, (i <= j < List.length pth)%nat ->
                  path_char_ok pth (Z.of_nat j) = true)
    \/ (path_loop fuel pth (Z.of_nat i) = None
        /\ exists j, (i <= j < List.length pth)%nat
                     /\ path_char_ok pth (Z.of_nat j) = false).
Proof.
  induction k as [|k IH]; intros i fuel Hlen Hfuel.
  - left. assert (i = List.length pth) as -> by lia.
    split; [|intros j ?; lia].
    destruct fuel; simpl; rewrite char_at_end by lia; reflexivity.
  - destruct fuel as [|fuel]; [lia|].
    destruct (lookup_lt_is_Some_2 pth i) as [c Hc]; [lia|].
    pose proof (lookup_nul_free _ _ _ pth_nul_free Hc) as Hnz.
    simpl. rewrite (char_at_lookup _ _ _ _ Hc).
    rewrite eqb_NUL_false by assumption.
    destruct (path_char_ok pth (Z.of_nat i)) eqn:Hok; simpl.
    + replace (Z.of_nat i + 1) with (Z.of_nat (S i)) by lia.
      destruct (IH (S i) fuel) as [[-> Hall] | [-> Hex]]; [lia | lia | |].
      * left. split; [reflexivity|].
        intros j Hj. destruct (decide (j = i)) as [->|]; [assumption|].
        apply Hall. lia.
      * right. split; [reflexivity|].
        destruct Hex as (j & Hj & Hbad). exists j. split; [lia | assumption].
    + right. split; [reflexivity|]. exists i. split; [lia | assumption].
Qed.

Lemma path_char_iff (i : nat) (c : ascii) :
  (0 < i)%nat -> pth !! i = Some c ->
  path_char_ok pth (Z.of_nat i) = true <-> path_char pth i c.
Proof.
  intros Hi Hc. unfold path_char_ok, path_char. cbv zeta.
  rewrite (char_at_lookup _ _ _ _ Hc).
  destruct i as [|j]; [lia|].
  replace (Z.of_nat (S j) - 1) with (Z.of_nat j) by lia.
  destruct (lookup_lt_is_Some_2 pth j) as [p Hp];
    [apply lookup_lt_Some in Hc; lia|].
  rewrite (char_at_lookup _ _ _ _ Hp).
  rewrite !orb_true_iff, andb_true_iff, negb_true_iff.
  rewrite !Ascii.eqb_eq, Ascii.eqb_neq.
  split.
  - intros [[H|H]|[H1 H2]]; [now left | right; now left |].
    right; right. split; [assumption|].
    intros (j' & [= <-] & Hj'). congruence.
  - intros [H|[H|[H1 H2]]]; [left; now left | left; now right |].
    right. split; [assumption|]. intros ->. apply H2.
    exists j. split; [reflexivity | assumption].
Qed.

End Path.

Lemma _check_path_grammar (path : list ascii) :
  nul_free path -> Names._check_path path = true <-> Grammar.path path.
Proof.
  intros path_nul_free.
  unfold Names._check_path, Grammar.path.
  destruct path as [|c0 s] eqn:Epath.
  { simpl. split; [discriminate | intros ([=] & _)]. }
  rewrite <- Epath in *.
  assert (char_at NUL path 0 = c0) as E0 by (rewrite Epath; reflexivity).
  assert (path !! 0%nat = Some c0) as L0 by (rewrite Epath; reflexivity).
  rewrite E0, L0.
  destruct (Ascii.eqb_spec c0 "/"%char) as [->|Hc0]; simpl.
  2:{ split; [discriminate|]. intros ([= ?] & _). contradiction. }
  assert (List.length path = S (List.length s)) as Hlen by (rewrite Epath; reflexivity).
  destruct (path_loop_spec path path_nul_free (List.length s) 1 (List.length path))
    as [[Hloop Hall] | [Hloop Hex]]; [lia | lia | |].
  - change (Z.of_nat 1) with 1 in Hloop. rewrite Hloop.
    assert (forall i c, (0 < i)%nat -> path !! i = Some c -> Grammar.path_char path i c) as Hchars.
    { intros i c Hi Hc. apply path_char_iff; [assumption..|].
      apply Hall. apply lookup_lt_Some in Hc. lia. }
    destruct (last path) as [x|] eqn:Hlast.
    2:{ apply last_None in Hlast. rewrite Hlast in Hlen. discriminate. }
    pose proof Hlast as Hl'. apply last_Some in Hl' as (l' & Hl').
    assert (List.length path = S (List.length l')) as Hlen'
      by (rewrite Hl', length_app; simpl; lia).
    assert (path !! (List.length l') = Some x) as Hlk.
    { rewrite Hl'. rewrite lookup_app_r by lia.
      replace (List.length l' - List.length l')%nat with 0%nat by lia. reflexivity. }
    replace (Z.of_nat (List.length path) - 1) with (Z.of_nat (List.length l')) by lia.
    rewrite (char_at_lookup _ _ _ _ Hlk).
    destruct (Z.ltb_spec 1 (Z.of_nat (List.length path))) as [Hgt|Hle]; simpl.
    + destruct (Ascii.eqb_spec x "/"%char) as [->|Hx].
      * split; [discriminate|]. intros (_ & _ & Hone).
        specialize (Hone eq_refl). rewrite Hone in Hlen'. simpl in Hlen'.
        rewrite Hone in Hgt. simpl in Hgt. lia.
      * split; [intros _|reflexivity].
        split; [reflexivity|]. split; [assumption|].
        intros [= ->]. contradiction.
    + split; [intros _|reflexivity].
      split; [reflexivity|]. split; [assumption|].
      intros _. destruct s; [assumption | simpl in Hlen; lia].
  - change (Z.of_nat 1) with 1 in Hloop. rewrite Hloop.
    split; [discriminate|]. intros (_ & Hchars & _).
    destruct Hex as (j & Hj & Hbad).
    destruct (lookup_lt_is_Some_2 path j) as [c Hc]; [lia|].
    assert (Names.path_char_ok path (Z.of_nat j) = true) as Hok.
    { apply (path_char_iff path j c); [lia | assumption |]. apply Hchars; [lia | assumption]. }
    congruence.
Qed.

Lemma path_nul_free (s : list ascii) : Grammar.path s -> nul_free s.
Proof.
  intros (H0 & Hall & _) Hin.
  apply list_elem_of_In, list_elem_of_lookup in Hin as (i & Hi).
  destruct i as [|i]; [unfold NUL in *; congruence|].
  specialize (Hall (S i) NUL ltac:(lia) Hi).
  destruct Hall as [H | [H | [H _]]]; vm_compute in H; discriminate.
Qed.

(** C8.  [check_path] returns [True] exactly for the strings that start
    with ['/'], hold after it only alphanumeric characters, ['_'] and
    ['/'] with no ['/'] right in front of it, and do not end with ['/']
    unless they are ["/"].  ["/"] is accepted, ["//"] and ["a//b"] are
    rejected. *)
Theorem check_path_grammar :
  (forall s : string,
      NamesApi.check_path s = Ok true <-> Grammar.path (bytes s))
  /\ NamesApi.check_path "/" = Ok true
  /\ NamesApi.check_path "//" = Ok false
  /\ NamesApi.check_path "a//b" = Ok false.
Proof.
  split; [|repeat split; reflexivity].
  intros s. unfold NamesApi.check_path.
  destruct (PyArg_Parse_s s) as [b|e] eqn:E; simpl.
  - apply PyArg_Parse_s_Ok in E as [-> Hnf].
    rewrite <- (_check_path_grammar _ Hnf).
    split; [now intros [= ->] | now intros ->].
  - split; [discriminate|]. intros Hg. apply path_nul_free in Hg.
    assert (PyArg_Parse_s s = Ok (bytes s)) as E'
      by (apply PyArg_Parse_s_Ok; split; [reflexivity | assumption]).
    congruence.
Qed.

(** ** Signature engine: memory *)

Module SigMem.
Import Sig SigSpec.

Lemma nul_free_app (s t : list ascii) : nul_free (s ++ t) <-> nul_free s /\ nul_free t.
Proof.
  unfold nul_free. rewrite in_app_iff. tauto.
Qed.

Lemma nul_free_take (n : nat) (s : list ascii) : nul_free s -> nul_free (take n s).
Proof.
  intros H Hin. apply H. rewrite <- (take_drop n s). apply in_or_app. now left.
Qed.

Lemma nul_free_drop (n : nat) (s : list ascii) : nul_free s -> nul_free (drop n s).
Proof.
  intros H Hin. apply H. rewrite <- (take_drop n s). apply in_or_app. now right.
Qed.

(** The scan and the parser read no further than the terminator. *)
Lemma scan_container_app_nul (o e : ascii) (s rest : list ascii) :
  nul_free s -> forall d k,
  scan_container o e (s ++ NUL :: rest) d k = scan_container o e s d k.
Proof.
  induction s as [|c s IH]; intros Hnf d k.
  - reflexivity.
  - apply nul_free_cons in Hnf as [Hc Hs]. simpl.
    rewrite eqb_NUL_false by assumption.
    destruct (negb (0 <? d)); [reflexivity|]. apply IH. assumption.
Qed.

Lemma get_one_full_type_app_nul (s rest : list ascii) :
  nul_free s ->
  get_one_full_type (s ++ NUL :: rest) = get_one_full_type s.
Proof.
  induction s as [|c s IH]; intros Hnf.
  - reflexivity.
  - apply nul_free_cons in Hnf as [Hc Hs]. simpl.
    rewrite IH by assumption.
    rewrite !scan_container_app_nul by assumption. reflexivity.
Qed.

Lemma scan_container_bound (o e : ascii) (s : list ascii) :
  forall d k,
    (S k <= fst (scan_container o e s d k) <= S (k + List.length s))%nat.
Proof.
  induction s as [|c s IH]; intros d k; simpl; [lia|].
  destruct (Ascii.eqb c NUL); [simpl; lia|].
  destruct (negb (0 <? d)); [simpl; lia|].
  match goal with |- context [scan_container o e s ?d' (S k)] =>
    specialize (IH d' (S k)) end.
  lia.
Qed.

Lemma get_one_full_type_bound (s : list ascii) (n : nat) :
  get_one_full_type s = Ok n -> (1 <= n <= List.length s)%nat.
Proof.
  revert n. induction s as [|c s IH]; intros n; simpl; [discriminate|].
  destruct (Ascii.eqb c DBUS_TYPE_ARRAY).
  { destruct (get_one_full_type s) as [k|]; simpl; [|discriminate].
    intros [= <-]. specialize (IH k eq_refl). lia. }
  destruct (Ascii.eqb c DBUS_STRUCT_BEGIN_CHAR).
  { pose proof (scan_container_bound c DBUS_STRUCT_END_CHAR s 1 0) as Hb.
    destruct (scan_container c DBUS_STRUCT_END_CHAR s 1 0) as [e d].
    destruct (negb (d =? 0)); [discriminate|]. intros [= <-]. simpl in Hb. lia. }
  destruct (Ascii.eqb c DBUS_DICT_ENTRY_BEGIN_CHAR).
  { pose proof (scan_container_bound c DBUS_DICT_ENTRY_END_CHAR s 1 0) as Hb.
    destruct (scan_container c DBUS_DICT_ENTRY_END_CHAR s 1 0) as [e d].
    destruct (negb (d =? 0)); [discriminate|]. intros [= <-]. simpl in Hb. lia. }
  destruct (Ascii.eqb c NUL); [discriminate|].
  intros [= <-]. lia.
Qed.

(** Reading and writing the memory around a string. *)
Lemma string_at_load (m : list ascii) (ptr : nat) (s : list ascii) (i : nat) :
  string_at m ptr s -> (i <= List.length s)%nat ->
  load m (ptr + i) = nth i (s ++ [NUL]) NUL.
Proof.
  intros [Hnf [rest Hm]] Hle. unfold load.
  rewrite <- (take_drop ptr m) at 1.
  assert (List.length (s ++ NUL :: rest) = List.length (drop ptr m)) as Hl by now rewrite Hm.
  rewrite length_app, length_drop in Hl. simpl in Hl.
  rewrite app_nth2; rewrite length_take; [|lia].
  replace (ptr + i - ptr `min` List.length m)%nat with i by lia.
  rewrite Hm.
  destruct (Nat.lt_ge_cases i (List.length s)) as [Hi|Hi].
  - rewrite !app_nth1 by (rewrite ?length_app; simpl; lia). reflexivity.
  - rewrite app_nth2 by lia. rewrite (app_nth2 s [NUL]) by lia.
    replace (i - List.length s)%nat with 0%nat by lia. reflexivity.
Qed.

Lemma string_at_load_0 (m : list ascii) (ptr : nat) (s : list ascii) :
  string_at m ptr s -> load m ptr = nth 0 (s ++ [NUL]) NUL.
Proof.
  intros H. rewrite <- (string_at_load m ptr s 0 H) by lia. f_equal. lia.
Qed.

Lemma string_at_parse (m : list ascii) (ptr : nat) (s : list ascii) :
  string_at m ptr s -> get_one_full_type (drop ptr m) = get_one_full_type s.
Proof.
  intros [Hnf [rest ->]]. apply get_one_full_type_app_nul. assumption.
Qed.

Lemma string_at_drop (m : list ascii) (ptr : nat) (s : list ascii) (n : nat) :
  string_at m ptr s -> (n <= List.length s)%nat ->
  string_at m (ptr + n) (drop n s).
Proof.
  intros [Hnf [rest Hm]] Hn. split; [now apply nul_free_drop|].
  exists rest. rewrite <- drop_drop, Hm.
  rewrite drop_app_le by lia. reflexivity.
Qed.

Lemma string_at_truncate (m : list ascii) (ptr : nat) (s : list ascii) (k n : nat) :
  string_at m ptr s -> (k <= n <= List.length s)%nat ->
  string_at (<[(ptr + n)%nat := NUL]> m) (ptr + k) (take (n - k) (drop k s)).
Proof.
  intros [Hnf [rest Hm]] Hn.
  split; [now apply nul_free_take, nul_free_drop|].
  assert (List.length (s ++ NUL :: rest) = List.length (drop ptr m)) as Hl by now rewrite Hm.
  rewrite length_app, length_drop in Hl. simpl in Hl.
  rewrite drop_insert_ge by lia.
  rewrite <- drop_drop, Hm.
  rewrite drop_app_le by lia.
  replace (ptr + n - (ptr + k))%nat with (n - k)%nat by lia.
  rewrite insert_take_drop by (rewrite length_app, length_drop; simpl; lia).
  rewrite take_app_le by (rewrite length_drop; lia).
  eexists. reflexivity.
Qed.

Lemma insert_load_id (m : list ascii) (e : nat) (x : ascii) :
  <[e := load m e]> (<[e := x]> m) = m.
Proof.
  rewrite list_insert_insert_eq.
  destruct (Nat.lt_ge_cases e (List.length m)) as [He|He].
  - apply list_insert_id. unfold load.
    destruct (lookup_lt_is_Some_2 m e He) as [y Hy]. rewrite Hy.
    f_equal. symmetry. now apply nth_lookup_Some.
  - apply list_insert_ge. lia.
Qed.

(** [_check_signature] on the memory computes [check_sig] on the string,
    and an accepted string is left as it was. *)
Lemma check_loop_check_sig (fuel : nat) :
  forall (m : list ascii) (start ptr : nat) (ad sd : Z) (s : list ascii),
    string_at m ptr s ->
    match check_loop fuel m start ptr ad sd with
    | None => check_sig fuel s (Z.of_nat ptr - Z.of_nat start) ad sd = None
    | Some (m', b) =>
        check_sig fuel s (Z.of_nat ptr - Z.of_nat start) ad sd = Some b
        /\ (b = true -> m' = m)
    end.
Proof.
  induction fuel as [|fuel IH]; intros m start ptr ad sd s Hs; [reflexivity|].
  cbn [check_loop check_sig].
  rewrite (string_at_load_0 _ _ _ Hs), (string_at_parse _ _ _ Hs).
  destruct s as [|c s'].
  { simpl. split; reflexivity. }
  assert (c <> NUL) as Hc.
  { destruct Hs as [Hnf _]. apply nul_free_cons in Hnf. tauto. }
  change (nth 0 ((c :: s') ++ [NUL]) NUL) with c. rewrite (eqb_NUL_false c Hc).
  destruct (get_one_full_type (c :: s')) as [n|e] eqn:Hg.
  2:{ split; [reflexivity | discriminate]. }
  pose proof (get_one_full_type_bound _ _ Hg) as Hn.
  assert (forall m0, m0 = m ->
            match check_loop fuel m0 start (ptr + n) ad sd with
            | Some (m', b) =>
                check_sig fuel (drop n (c :: s'))
                  (Z.of_nat ptr - Z.of_nat start + Z.of_nat n) ad sd = Some b
                /\ (b = true -> m' = m)
            | None =>
                check_sig fuel (drop n (c :: s'))
                  (Z.of_nat ptr - Z.of_nat start + Z.of_nat n) ad sd = None
            end) as Hnext.
  { intros m0 ->.
    pose proof (IH m start (ptr + n)%nat ad sd _ (string_at_drop _ _ _ n Hs ltac:(lia))) as H.
    replace (Z.of_nat (ptr + n) - Z.of_nat start)
      with (Z.of_nat ptr - Z.of_nat start + Z.of_nat n) in H by lia.
    exact H. }
  destruct (n =? 1)%nat eqn:En.
  { destruct (negb (strchr basic_codes c)); [split; [reflexivity | discriminate]|].
    apply Hnext. reflexivity. }
  apply Nat.eqb_neq in En.
  destruct (Ascii.eqb c DBUS_TYPE_ARRAY) eqn:Ea.
  { destruct (32 <=? ad); [split; [reflexivity | discriminate]|].
    pose proof (IH (<[(ptr + n)%nat := NUL]> m) (ptr + 1)%nat (ptr + 1)%nat (ad + 1) sd _
                  (string_at_truncate m ptr _ 1 n Hs ltac:(lia))) as H1.
    replace (Z.of_nat (ptr + 1) - Z.of_nat (ptr + 1)) with 0 in H1 by lia.
    destruct (check_loop fuel (<[(ptr + n)%nat := NUL]> m) (ptr + 1) (ptr + 1) (ad + 1) sd)
      as [[m2 b]|].
    - destruct H1 as [-> Hm2]. destruct b; [|split; [reflexivity | discriminate]].
      apply Hnext. rewrite (Hm2 eq_refl). apply insert_load_id.
    - rewrite H1. reflexivity. }
  destruct (Ascii.eqb c DBUS_STRUCT_BEGIN_CHAR || Ascii.eqb c DBUS_DICT_ENTRY_BEGIN_CHAR) eqn:Eb.
  { destruct (32 <=? sd); [split; [reflexivity | discriminate]|].
    replace (ptr + n - 1)%nat with (ptr + (n - 1))%nat by lia.
    pose proof (IH (<[(ptr + (n - 1))%nat := NUL]> m) (ptr + 1)%nat (ptr + 1)%nat ad (sd + 1) _
                  (string_at_truncate m ptr _ 1 (n - 1) Hs ltac:(lia))) as H1.
    replace (Z.of_nat (ptr + 1) - Z.of_nat (ptr + 1)) with 0 in H1 by lia.
    replace (n - 1 - 1)%nat with (n - 2)%nat in H1 by lia.
    destruct (check_loop fuel (<[(ptr + (n - 1))%nat := NUL]> m) (ptr + 1) (ptr + 1) ad (sd + 1))
      as [[m2 b]|].
    - destruct H1 as [-> Hm2]. destruct b; [|split; [reflexivity | discriminate]].
      rewrite (Hm2 eq_refl). rewrite insert_load_id.
      rewrite (string_at_load_0 _ _ _ Hs).
      change (nth 0 ((c :: s') ++ [NUL]) NUL) with c.
      rewrite (string_at_load _ _ _ (n - 1) Hs) by lia.
      rewrite app_nth1 by lia.
      match goal with |- context [if ?b then Some (m, false) else _] =>
        destruct b end; [split; [reflexivity | discriminate]|].
      replace (ptr + (n - 1) + 1)%nat with (ptr + n)%nat by lia.
      apply Hnext. reflexivity.
    - rewrite H1. reflexivity. }
  apply Hnext. reflexivity.
Qed.

(** Fuel: one unit for each full type and each terminator met. *)
Lemma check_sig_fuel (fuel : nat) :
  forall (s : list ascii) (pos ad sd : Z),
    (List.length s < fuel)%nat -> check_sig fuel s pos ad sd <> None.
Proof.
  induction fuel as [|fuel IH]; intros s pos ad sd Hlen; [lia|].
  cbn [check_sig].
  destruct s as [|c s']; [discriminate|].
  destruct (get_one_full_type (c :: s')) as [n|e] eqn:Hg; [|discriminate].
  pose proof (get_one_full_type_bound _ _ Hg) as Hn.
  assert (forall pos', check_sig fuel (drop n (c :: s')) pos' ad sd <> None) as Hnext.
  { intros pos'. apply IH. rewrite length_drop. simpl in *. lia. }
  assert (forall k ad' sd', (1 <= k)%nat ->
            check_sig fuel (take (n - k) (drop 1 (c :: s'))) 0 ad' sd' <> None) as Hin.
  { intros k ad' sd' Hk. apply IH. rewrite length_take, length_drop. simpl in *. lia. }
  destruct (n =? 1)%nat.
  { destruct (negb (strchr basic_codes c)); [discriminate | apply Hnext]. }
  destruct (Ascii.eqb c DBUS_TYPE_ARRAY).
  { destruct (32 <=? ad); [discriminate|].
    specialize (Hin 1%nat (ad + 1) sd ltac:(lia)).
    destruct (check_sig fuel (take (n - 1) (drop 1 (c :: s'))) 0 (ad + 1) sd) as [[|]|];
      [apply Hnext | discriminate | contradiction]. }
  destruct (Ascii.eqb c DBUS_STRUCT_BEGIN_CHAR || Ascii.eqb c DBUS_DICT_ENTRY_BEGIN_CHAR).
  { destruct (32 <=? sd); [discriminate|].
    specialize (Hin 2%nat ad (sd + 1) ltac:(lia)).
    destruct (check_sig fuel (take (n - 2) (drop 1 (c :: s'))) 0 ad (sd + 1)) as [[|]|];
      [| discriminate | contradiction].
    match goal with |- context [if ?b then Some false else _] => destruct b end;
      [discriminate | apply Hnext]. }
  apply Hnext.
Qed.

Lemma check_sig_fuel_mono (fuel : nat) :
  forall (fuel' : nat) (s : list ascii) (pos ad sd : Z) (b : bool),
    check_sig fuel s pos ad sd = Some b -> (fuel <= fuel')%nat ->
    check_sig fuel' s pos ad sd = Some b.
Proof.
  induction fuel as [|fuel IH]; intros fuel' s pos ad sd b H Hle; [discriminate|].
  destruct fuel' as [|fuel']; [lia|].
  cbn [check_sig] in *.
  destruct s as [|c s']; [assumption|].
  destruct (get_one_full_type (c :: s')) as [n|e]; [|assumption].
  destruct (n =? 1)%nat.
  { destruct (negb (strchr basic_codes c)); [assumption|]. eapply IH; [eassumption | lia]. }
  destruct (Ascii.eqb c DBUS_TYPE_ARRAY).
  { destruct (32 <=? ad); [assumption|].
    destruct (check_sig fuel (take (n - 1) (drop 1 (c :: s'))) 0 (ad + 1) sd) as [b1|] eqn:E1;
      [|discriminate].
    rewrite (IH fuel' _ _ _ _ _ E1) by lia.
    destruct b1; [|assumption]. eapply IH; [eassumption | lia]. }
  destruct (Ascii.eqb c DBUS_STRUCT_BEGIN_CHAR || Ascii.eqb c DBUS_DICT_ENTRY_BEGIN_CHAR).
  { destruct (32 <=? sd); [assumption|].
    destruct (check_sig fuel (take (n - 2) (drop 1 (c :: s'))) 0 ad (sd + 1)) as [b1|] eqn:E1;
      [|discriminate].
    rewrite (IH fuel' _ _ _ _ _ E1) by lia.
    destruct b1; [|assumption].
    match goal with |- context [if ?b then Some false else _] => destruct b end;
      [assumption|]. eapply IH; [eassumption | lia]. }
  eapply IH; [eassumption | lia].
Qed.

(** The value of [_check_signature] on a C string, and its effect on the
    memory when it accepts. *)
Lemma _check_signature_mem_spec (s : list ascii) (ad sd : Z) :
  nul_free s ->
  exists (m' : list ascii) (b : bool),
    _check_signature_mem s ad sd = Some (m', b)
    /\ check_sig (S (S (List.length s))) s 0 ad sd = Some b
    /\ (b = true -> m' = s ++ [NUL]).
Proof.
  intros Hnf. unfold _check_signature_mem, _check_signature_at.
  assert (string_at (s ++ [NUL]) 0 s) as Hs.
  { split; [assumption|]. exists []. reflexivity. }
  pose proof (check_loop_check_sig (S (List.length (s ++ [NUL]))) _ 0 0 ad sd s Hs) as H.
  rewrite length_app in *. simpl List.length in *.
  replace (List.length s + 1)%nat with (S (List.length s)) in * by lia.
  change (Z.of_nat 0 - Z.of_nat 0) with 0 in H.
  destruct (check_loop (S (S (List.length s))) (s ++ [NUL]) 0 0 ad sd) as [[m' b]|].
  - exists m', b. tauto.
  - exfalso. revert H. apply check_sig_fuel. lia.
Qed.

Lemma _check_signature_check_sig (s : list ascii) (ad sd : Z) (fuel : nat) :
  nul_free s -> (List.length s < fuel)%nat ->
  check_sig fuel s 0 ad sd = Some (_check_signature s ad sd).
Proof.
  intros Hnf Hfuel.
  destruct (_check_signature_mem_spec s ad sd Hnf) as (m' & b & Hm & Hc & _).
  unfold _check_signature. rewrite Hm.
  destruct (check_sig fuel s 0 ad sd) as [b'|] eqn:E.
  - destruct (Nat.le_ge_cases fuel (S (S (List.length s)))) as [Hle|Hle].
    + rewrite (check_sig_fuel_mono _ _ _ _ _ _ _ E Hle) in Hc. congruence.
    + rewrite (check_sig_fuel_mono _ _ _ _ _ _ _ Hc Hle) in E. congruence.
  - exfalso. revert E. apply check_sig_fuel. assumption.
Qed.

End SigMem.

(** ** Signature engine: trees *)

Module SigTree.
Import Sig SigSpec SigMem.

Lemma dtype_induction (P : dtype -> Prop) :
  (forall b, P (TBasic b)) ->
  (forall t, P t -> P (TArray t)) ->
  (forall l, Forall P l -> P (TStruct l)) ->
  (forall l, Forall P l -> P (TDictEntry l)) ->
  forall t, P t.
Proof.
  intros Hb Ha Hs Hd.
  fix IH 1. intros [b|t|l|l].
  - apply Hb.
  - apply Ha, IH.
  - apply Hs. induction l as [|t l IHl]; constructor; [apply IH | exact IHl].
  - apply Hd. induction l as [|t l IHl]; constructor; [apply IH | exact IHl].
Qed.

Lemma show_list_cons (t : dtype) (l : list dtype) :
  show_list (t :: l) = show t ++ show_list l.
Proof. reflexivity. Qed.

Lemma show_length_pos (t : dtype) : (1 <= List.length (show t))%nat.
Proof. destruct t; simpl; lia. Qed.

Lemma show_list_nil_inv (l : list dtype) : show_list l = [] -> l = [].
Proof.
  destruct l as [|t l]; [reflexivity|]. rewrite show_list_cons. intros H.
  pose proof (show_length_pos t) as Hp.
  apply (f_equal (@List.length ascii)) in H. rewrite length_app in H. simpl in H. lia.
Qed.

Lemma scan_container_step (o e c : ascii) (s : list ascii) (d : Z) (k : nat) :
  c <> NUL -> 0 < d ->
  scan_container o e (c :: s) d k
  = scan_container o e s
      (if Ascii.eqb c o then d + 1 else if Ascii.eqb c e then d - 1 else d) (S k).
Proof.
  intros Hc Hd. simpl. rewrite eqb_NUL_false by assumption.
  destruct (Z.ltb_spec 0 d); [reflexivity | lia].
Qed.

Lemma basic_code_neutral (b : basic) (o e : ascii) :
  bracket_pair o e ->
  basic_code b <> NUL /\ Ascii.eqb (basic_code b) o = false
  /\ Ascii.eqb (basic_code b) e = false.
Proof.
  intros [[-> ->] | [-> ->]]; destruct b; repeat split; discriminate.
Qed.

(** The scan for the closer of a bracket steps over whole types. *)
Lemma scan_container_show (o e : ascii) (t : dtype) :
  bracket_pair o e ->
  forall (r : list ascii) (d : Z) (k : nat), 0 < d ->
    scan_container o e (show t ++ r) d k
    = scan_container o e r d (k + List.length (show t)).
Proof.
  intros Hp. induction t as [b|t IH|l IH|l IH] using dtype_induction;
    intros r d k Hd.
  - destruct (basic_code_neutral b o e Hp) as (H1 & H2 & H3).
    simpl show. cbn [app]. rewrite scan_container_step by assumption.
    rewrite H2, H3. f_equal. simpl. lia.
  - simpl show. cbn [app].
    rewrite scan_container_step by (discriminate || assumption).
    assert (Ascii.eqb "a" o = false /\ Ascii.eqb "a" e = false) as [-> ->]
      by (destruct Hp as [[-> ->] | [-> ->]]; split; reflexivity).
    rewrite IH by assumption. f_equal. simpl. lia.
  - simpl show. cbn [app].
    rewrite scan_container_step by (discriminate || assumption).
    assert (forall d' k', 0 < d' ->
              scan_container o e ((flat_map show l ++ [")"%char]) ++ r) d' k'
              = scan_container o e (")"%char :: r) d' (k' + List.length (flat_map show l)))
      as Hl.
    { clear d k Hd. induction IH as [|t l Ht _ IHl]; intros d' k' Hd'.
      - cbn [flat_map app List.length]. rewrite Nat.add_0_r. reflexivity.
      - cbn [flat_map]. rewrite <- !app_assoc. rewrite Ht by assumption.
        rewrite app_assoc. rewrite IHl by assumption.
        f_equal. rewrite length_app. lia. }
    destruct Hp as [[-> ->] | [-> ->]].
    + change (Ascii.eqb "(" "(") with true. cbv iota.
      rewrite Hl by lia.
      rewrite scan_container_step by (discriminate || lia).
      change (Ascii.eqb ")" "(") with false. change (Ascii.eqb ")" ")") with true.
      cbv iota. f_equal; [lia|]. simpl. rewrite length_app. simpl. lia.
    + change (Ascii.eqb "(" "{") with false. change (Ascii.eqb "(" "}") with false.
      cbv iota.
      rewrite Hl by lia.
      rewrite scan_container_step by (discriminate || lia).
      change (Ascii.eqb ")" "{") with false. change (Ascii.eqb ")" "}") with false.
      cbv iota. f_equal. simpl. rewrite length_app. simpl. lia.
  - simpl show. cbn [app].
    rewrite scan_container_step by (discriminate || assumption).
    assert (forall d' k', 0 < d' ->
              scan_container o e ((flat_map show l ++ ["}"%char]) ++ r) d' k'
              = scan_container o e ("}"%char :: r) d' (k' + List.length (flat_map show l)))
      as Hl.
    { clear d k Hd. induction IH as [|t l Ht _ IHl]; intros d' k' Hd'.
      - cbn [flat_map app List.length]. rewrite Nat.add_0_r. reflexivity.
      - cbn [flat_map]. rewrite <- !app_assoc. rewrite Ht by assumption.
        rewrite app_assoc. rewrite IHl by assumption.
        f_equal. rewrite length_app. lia. }
    destruct Hp as [[-> ->] | [-> ->]].
    + change (Ascii.eqb "{" "(") with false. change (Ascii.eqb "{" ")") with false.
      cbv iota.
      rewrite Hl by lia.
      rewrite scan_container_step by (discriminate || lia).
      change (Ascii.eqb "}" "(") with false. change (Ascii.eqb "}" ")") with false.
      cbv iota. f_equal. simpl. rewrite length_app. simpl. lia.
    + change (Ascii.eqb "{" "{") with true. cbv iota.
      rewrite Hl by lia.
      rewrite scan_container_step by (discriminate || lia).
      change (Ascii.eqb "}" "{") with false. change (Ascii.eqb "}" "}") with true.
      cbv iota. f_equal; [lia|]. simpl. rewrite length_app. simpl. lia.
Qed.

Lemma scan_container_show_list (o e : ascii) (l : list dtype) :
  bracket_pair o e ->
  forall (r : list ascii) (d : Z) (k : nat), 0 < d ->
    scan_container o e (show_list l ++ r) d k
    = scan_container o e r d (k + List.length (show_list l)).
Proof.
  intros Hp. induction l as [|t l IH]; intros r d k Hd.
  - simpl. f_equal. lia.
  - rewrite show_list_cons, <- app_assoc.
    rewrite scan_container_show by assumption.
    rewrite IH by assumption. f_equal. rewrite length_app. lia.
Qed.

Lemma scan_container_done (o e : ascii) (r : list ascii) (d : Z) (k : nat) :
  d <= 0 -> scan_container o e r d k = (S k, d).
Proof.
  intros Hd. destruct r as [|c r]; simpl; [reflexivity|].
  destruct (Ascii.eqb c NUL); [reflexivity|].
  destruct (Z.ltb_spec 0 d); [lia | reflexivity].
Qed.

(** [get_one_full_type] steps over the first type of a signature. *)
Lemma get_one_full_type_show (t : dtype) (r : list ascii) :
  get_one_full_type (show t ++ r) = Ok (List.length (show t)).
Proof.
  revert r. induction t as [b|t IH|l _|l _] using dtype_induction; intros r.
  - destruct b; reflexivity.
  - simpl show. cbn [app get_one_full_type].
    change (Ascii.eqb "a" DBUS_TYPE_ARRAY) with true. cbv iota.
    rewrite IH. reflexivity.
  - simpl show. cbn [app get_one_full_type].
    change (Ascii.eqb "(" DBUS_TYPE_ARRAY) with false.
    change (Ascii.eqb "(" DBUS_STRUCT_BEGIN_CHAR) with true. cbv iota.
    rewrite <- app_assoc.
    rewrite (scan_container_show_list "(" ")" l) by (try lia; left; split; reflexivity).
    cbn [app]. rewrite scan_container_step by (discriminate || lia).
    change (Ascii.eqb ")" "(") with false. change (Ascii.eqb ")" ")") with true.
    cbv iota. rewrite scan_container_done by lia.
    simpl. rewrite length_app. simpl. do 2 f_equal. unfold show_list. lia.
  - simpl show. cbn [app get_one_full_type].
    change (Ascii.eqb "{" DBUS_TYPE_ARRAY) with false.
    change (Ascii.eqb "{" DBUS_STRUCT_BEGIN_CHAR) with false.
    change (Ascii.eqb "{" DBUS_DICT_ENTRY_BEGIN_CHAR) with true. cbv iota.
    rewrite <- app_assoc.
    rewrite (scan_container_show_list "{" "}" l) by (try lia; right; split; reflexivity).
    cbn [app]. rewrite scan_container_step by (discriminate || lia).
    change (Ascii.eqb "}" "{") with false.
    change (Ascii.eqb "}" "}") with true.
    cbv iota. rewrite scan_container_done by lia.
    simpl. rewrite length_app. simpl. do 2 f_equal. unfold show_list. lia.
Qed.

Lemma check_sig_step (fuel : nat) (c : ascii) (s' : list ascii) (n : nat)
    (pos ad sd : Z) :
  get_one_full_type (c :: s') = Ok n ->
  check_sig (S fuel) (c :: s') pos ad sd
  = if (n =? 1)%nat then
      if negb (strchr basic_codes c) then Some false
      else check_sig fuel (drop n (c :: s')) (pos + Z.of_nat n) ad sd
    else if Ascii.eqb c DBUS_TYPE_ARRAY then
      if 32 <=? ad then Some false else
      match check_sig fuel (take (n - 1) s') 0 (ad + 1) sd with
      | None => None
      | Some false => Some false
      | Some true => check_sig fuel (drop n (c :: s')) (pos + Z.of_nat n) ad sd
      end
    else if Ascii.eqb c DBUS_STRUCT_BEGIN_CHAR
            || Ascii.eqb c DBUS_DICT_ENTRY_BEGIN_CHAR then
      if 32 <=? sd then Some false else
      match check_sig fuel (take (n - 2) s') 0 ad (sd + 1) with
      | None => None
      | Some false => Some false
      | Some true =>
          if (Ascii.eqb c DBUS_STRUCT_BEGIN_CHAR
              && negb (Ascii.eqb (nth (n - 1) (c :: s') NUL) DBUS_STRUCT_END_CHAR))
             || (Ascii.eqb c DBUS_DICT_ENTRY_BEGIN_CHAR
                 && negb (Ascii.eqb (nth (n - 1) (c :: s') NUL) DBUS_DICT_ENTRY_END_CHAR))
          then Some false
          else check_sig fuel (drop n (c :: s')) (pos + Z.of_nat n) ad sd
      end
    else check_sig fuel (drop n (c :: s')) (pos + Z.of_nat n) ad sd.
Proof.
  intros Hg. cbn [check_sig]. rewrite Hg. reflexivity.
Qed.

Lemma get_one_full_type_head (c : ascii) (s' : list ascii) (n : nat) :
  get_one_full_type (c :: s') = Ok n ->
  c <> NUL
  /\ (c = "a"%char -> get_one_full_type s' = Ok (n - 1)%nat /\ (2 <= n)%nat)
  /\ (c <> "a"%char -> c <> "("%char -> c <> "{"%char -> n = 1%nat).
Proof.
  intros Hg. split; [|split].
  - intros ->. discriminate.
  - intros ->. cbn [get_one_full_type] in Hg.
    change (Ascii.eqb "a" DBUS_TYPE_ARRAY) with true in Hg. cbv iota in Hg.
    destruct (get_one_full_type s') as [k|] eqn:Hk; [|discriminate].
    injection Hg as <-. pose proof (get_one_full_type_bound _ _ Hk).
    split; [f_equal|]; lia.
  - intros Ha Hs Hd. cbn [get_one_full_type] in Hg.
    apply Ascii.eqb_neq in Ha, Hs, Hd.
    unfold DBUS_TYPE_ARRAY, DBUS_STRUCT_BEGIN_CHAR, DBUS_DICT_ENTRY_BEGIN_CHAR in Hg.
    rewrite Ha, Hs, Hd in Hg.
    destruct (Ascii.eqb c NUL); [discriminate|]. now injection Hg as <-.
Qed.

Lemma basic_codes_inv (c : ascii) :
  c <> NUL -> strchr basic_codes c = true -> exists b, c = basic_code b.
Proof.
  intros Hc H. unfold strchr in H. rewrite eqb_NUL_false in H by assumption.
  cbn in H. rewrite !orb_true_iff in H.
  repeat match type of H with
         | _ \/ _ => destruct H as [H|H]
         end;
    try discriminate; apply Ascii.eqb_eq in H; subst c.
  - now exists Byte.
  - now exists Boolean.
  - now exists Int16.
  - now exists UInt16.
  - now exists Int32.
  - now exists UInt32.
  - now exists Int64.
  - now exists UInt64.
  - now exists Double_.
  - now exists String_.
  - now exists ObjectPath.
  - now exists Signature.
  - now exists Variant.
  - now exists UnixFd.
Qed.

(** An accepted signature is the text of a sequence of types. *)
Lemma check_sig_accepts_show (fuel : nat) :
  forall (s : list ascii) (pos ad sd : Z),
    check_sig fuel s pos ad sd = Some true -> exists ts, s = show_list ts.
Proof.
  induction fuel as [|fuel IH]; intros s pos ad sd H; [discriminate|].
  destruct s as [|c s']; [now exists []|].
  destruct (get_one_full_type (c :: s')) as [n|e] eqn:Hg.
  2:{ cbn [check_sig] in H. rewrite Hg in H. discriminate. }
  rewrite (check_sig_step _ _ _ _ _ _ _ Hg) in H.
  pose proof (get_one_full_type_bound _ _ Hg) as Hn. simpl List.length in Hn.
  destruct (get_one_full_type_head _ _ _ Hg) as (Hc & Harr & Hother).
  destruct (n =? 1)%nat eqn:En.
  { apply Nat.eqb_eq in En. subst n.
    destruct (strchr basic_codes c) eqn:Hb; [|discriminate]. simpl in H.
    destruct (basic_codes_inv c Hc Hb) as [b ->].
    apply IH in H as [ts Hts]. rewrite drop_0 in Hts. subst s'. now exists (TBasic b :: ts). }
  apply Nat.eqb_neq in En.
  assert (drop n (c :: s') = drop (n - 1) s') as Hdrop.
  { destruct n; [lia|]. simpl. now rewrite Nat.sub_0_r. }
  rewrite Hdrop in H.
  destruct (Ascii.eqb_spec c DBUS_TYPE_ARRAY) as [->|Ha].
  { destruct (32 <=? ad); [discriminate|].
    destruct (check_sig fuel (take (n - 1) s') 0 (ad + 1) sd) as [[|]|] eqn:E1;
      [|discriminate..].
    apply IH in E1 as [ts1 E1]. apply IH in H as [ts2 E2].
    destruct (Harr eq_refl) as [Hg' Hn2].
    destruct ts1 as [|t ts1].
    { apply (f_equal (@List.length ascii)) in E1.
      rewrite length_take in E1. simpl in E1. lia. }
    assert (s' = show t ++ (show_list ts1 ++ drop (n - 1) s')) as Hs'.
    { rewrite app_assoc, <- show_list_cons, <- E1. symmetry. apply take_drop. }
    rewrite Hs' in Hg'. rewrite get_one_full_type_show in Hg'.
    injection Hg' as Hlen.
    assert (ts1 = []) as ->.
    { apply show_list_nil_inv. apply length_zero_iff_nil.
      apply (f_equal (@List.length ascii)) in E1.
      rewrite length_take, show_list_cons, length_app in E1. lia. }
    exists (TArray t :: ts2).
    rewrite show_list_cons. simpl show. cbn [app]. f_equal.
    rewrite <- E2. rewrite Hs' at 1. reflexivity. }
  destruct (Ascii.eqb c DBUS_STRUCT_BEGIN_CHAR || Ascii.eqb c DBUS_DICT_ENTRY_BEGIN_CHAR) eqn:Eb.
  { destruct (32 <=? sd); [discriminate|].
    destruct (check_sig fuel (take (n - 2) s') 0 ad (sd + 1)) as [[|]|] eqn:E1;
      [|discriminate..].
    match type of H with (if ?b then _ else _) = _ => destruct b eqn:Estore end;
      [discriminate|].
    apply IH in E1 as [ts1 E1]. apply IH in H as [ts2 E2].
    assert (nth (n - 1) (c :: s') NUL = nth (n - 2) s' NUL) as Hnth.
    { destruct n as [|[|n]]; [lia..|]. simpl. now rewrite Nat.sub_0_r. }
    rewrite Hnth in Estore.
    assert (s' = take (n - 2) s' ++ nth (n - 2) s' NUL :: drop (n - 1) s') as Hs'.
    { rewrite <- (take_drop (n - 2) s') at 1. f_equal.
      replace (n - 1)%nat with (S (n - 2)) by lia.
      destruct (lookup_lt_is_Some_2 s' (n - 2)) as [x Hx]; [lia|].
      rewrite (nth_lookup_Some _ _ NUL _ Hx). now apply drop_S. }
    apply orb_false_iff in Estore as [Es1 Es2].
    apply orb_true_iff in Eb as [Eb|Eb]; apply Ascii.eqb_eq in Eb; subst c.
    - change (Ascii.eqb DBUS_STRUCT_BEGIN_CHAR DBUS_STRUCT_BEGIN_CHAR) with true in Es1.
      simpl in Es1. apply negb_false_iff, Ascii.eqb_eq in Es1.
      exists (TStruct ts1 :: ts2).
      rewrite show_list_cons. simpl show. cbn [app]. f_equal.
      rewrite Hs' at 1. rewrite E1, Es1, E2. rewrite <- app_assoc. reflexivity.
    - change (Ascii.eqb DBUS_DICT_ENTRY_BEGIN_CHAR DBUS_DICT_ENTRY_BEGIN_CHAR) with true in Es2.
      simpl in Es2. apply negb_false_iff, Ascii.eqb_eq in Es2.
      exists (TDictEntry ts1 :: ts2).
      rewrite show_list_cons. simpl show. cbn [app]. f_equal.
      rewrite Hs' at 1. rewrite E1, Es2, E2. rewrite <- app_assoc. reflexivity. }
  apply orb_false_iff in Eb as [Eb1 Eb2]. apply Ascii.eqb_neq in Eb1, Eb2.
  exfalso. apply En. apply Hother; assumption.
Qed.

Lemma depth_list_nonneg (f : dtype -> Z) (l : list dtype) :
  0 <= fold_right (fun t d => Z.max (f t) d) 0 l.
Proof. induction l; simpl; lia. Qed.

Lemma array_depth_nonneg (t : dtype) : 0 <= array_depth t.
Proof.
  induction t as [b|t IH|l _|l _] using dtype_induction; simpl;
    try apply depth_list_nonneg; lia.
Qed.

Lemma struct_depth_nonneg (t : dtype) : 0 <= struct_depth t.
Proof.
  induction t as [b|t IH|l _|l _] using dtype_induction; simpl; try lia.
  - pose proof (depth_list_nonneg struct_depth l). lia.
  - pose proof (depth_list_nonneg struct_depth l). lia.
Qed.

Lemma array_depth_list_cons (t : dtype) (l : list dtype) :
  array_depth_list (t :: l) = Z.max (array_depth t) (array_depth_list l).
Proof. reflexivity. Qed.

Lemma struct_depth_list_cons (t : dtype) (l : list dtype) :
  struct_depth_list (t :: l) = Z.max (struct_depth t) (struct_depth_list l).
Proof. reflexivity. Qed.

Lemma strchr_basic_code (b : basic) : strchr basic_codes (basic_code b) = true.
Proof. destruct b; reflexivity. Qed.

(** The verdict on the text of a sequence of types: the depth and length
    limits, nothing else. *)
Lemma check_sig_show (fuel : nat) :
  forall (ts : list dtype) (pos ad sd : Z) (b : bool),
    check_sig fuel (show_list ts) pos ad sd = Some b ->
    ad <= 32 -> sd <= 32 -> 0 <= pos ->
    (b = true <->
       ad + array_depth_list ts <= 32
       /\ sd + struct_depth_list ts <= 32
       /\ pos + Z.of_nat (List.length (show_list ts)) <= 255).
Proof.
  induction fuel as [|fuel IH]; intros ts pos ad sd b H Had Hsd Hpos; [discriminate|].
  destruct ts as [|t ts].
  { cbn in H. injection H as <-. cbn.
    destruct (Z.ltb_spec 255 pos); simpl; split; intros; try lia; try discriminate;
      reflexivity. }
  pose proof (get_one_full_type_show t (show_list ts)) as Hg.
  pose proof (array_depth_nonneg t) as Hat.
  pose proof (struct_depth_nonneg t) as Hst.
  pose proof (depth_list_nonneg array_depth ts) as Hal.
  pose proof (depth_list_nonneg struct_depth ts) as Hsl.
  fold (array_depth_list ts) in Hal. fold (struct_depth_list ts) in Hsl.
  rewrite array_depth_list_cons, struct_depth_list_cons.
  rewrite show_list_cons in *. rewrite length_app.
  destruct t as [bc|t1|l|l].
  - (* a basic code *)
    change (show (TBasic bc) ++ show_list ts) with (basic_code bc :: show_list ts) in *.
    rewrite (check_sig_step _ _ _ _ _ _ _ Hg) in H.
    simpl in H. rewrite strchr_basic_code in H. simpl in H.
    apply IH in H; [|lia..]. rewrite H. simpl. lia.
  - (* an array *)
    change (show (TArray t1) ++ show_list ts)
      with ("a"%char :: (show t1 ++ show_list ts)) in *.
    rewrite (check_sig_step _ _ _ _ _ _ _ Hg) in H.
    pose proof (show_length_pos t1) as Hlen1.
    assert ((List.length (show (TArray t1)) =? 1)%nat = false) as En
      by (apply Nat.eqb_neq; simpl; lia).
    rewrite En in H.
    change (Ascii.eqb "a" DBUS_TYPE_ARRAY) with true in H. cbv iota in H.
    simpl array_depth in *. simpl struct_depth in *.
    pose proof (array_depth_nonneg t1). pose proof (struct_depth_nonneg t1).
    destruct (Z.leb_spec 32 ad).
    { injection H as <-. split; [discriminate | lia]. }
    replace (List.length (show (TArray t1)) - 1)%nat with (List.length (show t1)) in H
      by (simpl; lia).
    rewrite take_app_length in H.
    destruct (check_sig fuel (show t1) 0 (ad + 1) sd) as [b1|] eqn:E1; [|discriminate].
    rewrite <- (app_nil_r (show t1)) in E1.
    change (show t1 ++ []) with (show_list [t1]) in E1.
    apply IH in E1; [|lia..].
    unfold show_list in E1. cbn [flat_map] in E1. rewrite app_nil_r in E1.
    cbn [array_depth_list struct_depth_list fold_right] in E1.
    destruct b1.
    + replace (drop (List.length (show (TArray t1))) ("a"%char :: show t1 ++ show_list ts))
        with (show_list ts) in H
        by (simpl; now rewrite drop_app_length).
      apply IH in H; [|lia..]. rewrite H.
      destruct E1 as [E1 _]. specialize (E1 eq_refl).
      simpl List.length in *. lia.
    + injection H as <-. split; [discriminate|]. intros Hall.
      assert (false = true) as Hf; [|discriminate].
      apply E1. simpl List.length in *. lia.
  - (* a struct *)
    change (show (TStruct l) ++ show_list ts)
      with ("("%char :: ((show_list l ++ [")"%char]) ++ show_list ts)) in *.
    rewrite (check_sig_step _ _ _ _ _ _ _ Hg) in H.
    assert (List.length (show (TStruct l)) = S (S (List.length (show_list l)))) as Hlen
      by (simpl; rewrite length_app; simpl; unfold show_list; lia).
    rewrite Hlen in *.
    change (Ascii.eqb "(" DBUS_TYPE_ARRAY) with false in H.
    change (Ascii.eqb "(" DBUS_STRUCT_BEGIN_CHAR) with true in H.
    change (Ascii.eqb "(" DBUS_DICT_ENTRY_BEGIN_CHAR) with false in H.
    cbn [Nat.eqb orb andb] in H. cbv iota in H.
    change (array_depth (TStruct l)) with (array_depth_list l) in *.
    change (struct_depth (TStruct l)) with (1 + struct_depth_list l) in *.
    pose proof (depth_list_nonneg array_depth l) as Hal'.
    pose proof (depth_list_nonneg struct_depth l) as Hsl'.
    fold (array_depth_list l) in Hal'. fold (struct_depth_list l) in Hsl'.
    destruct (Z.leb_spec 32 sd).
    { injection H as <-. split; [discriminate | lia]. }
    replace (S (S (List.length (show_list l))) - 2)%nat with (List.length (show_list l)) in H by lia.
    rewrite <- app_assoc in H. rewrite take_app_length in H.
    destruct (check_sig fuel (show_list l) 0 ad (sd + 1)) as [b1|] eqn:E1; [|discriminate].
    apply IH in E1; [|lia..].
    destruct b1.
    + replace (nth (S (S (List.length (show_list l))) - 1)
                 ("("%char :: show_list l ++ [")"%char] ++ show_list ts) NUL)
        with ")"%char in H.
      2:{ replace (S (S (List.length (show_list l))) - 1)%nat
            with (S (List.length (show_list l))) by lia.
          cbn [nth]. rewrite app_nth2 by lia.
          replace (List.length (show_list l) - List.length (show_list l))%nat with 0%nat by lia.
          reflexivity. }
      change (Ascii.eqb ")" DBUS_STRUCT_END_CHAR) with true in H.
      cbn [negb orb andb] in H. cbv iota in H.
      replace (drop (S (S (List.length (show_list l))))
                 ("("%char :: show_list l ++ [")"%char] ++ show_list ts))
        with (show_list ts) in H.
      2:{ cbn [drop]. rewrite app_assoc. rewrite drop_app_length'; [reflexivity|].
          rewrite length_app. simpl. lia. }
      apply IH in H; [|lia..]. rewrite H.
      destruct E1 as [E1 _]. specialize (E1 eq_refl). lia.
    + injection H as <-. split; [discriminate|]. intros Hall.
      assert (false = true) as Hf; [|discriminate].
      apply E1. lia.
  - (* a dict entry *)
    change (show (TDictEntry l) ++ show_list ts)
      with ("{"%char :: ((show_list l ++ ["}"%char]) ++ show_list ts)) in *.
    rewrite (check_sig_step _ _ _ _ _ _ _ Hg) in H.
    assert (List.length (show (TDictEntry l)) = S (S (List.length (show_list l)))) as Hlen
      by (simpl; rewrite length_app; simpl; unfold show_list; lia).
    rewrite Hlen in *.
    change (Ascii.eqb "{" DBUS_TYPE_ARRAY) with false in H.
    change (Ascii.eqb "{" DBUS_STRUCT_BEGIN_CHAR) with false in H.
    change (Ascii.eqb "{" DBUS_DICT_ENTRY_BEGIN_CHAR) with true in H.
    cbn [Nat.eqb orb andb] in H. cbv iota in H.
    change (array_depth (TDictEntry l)) with (array_depth_list l) in *.
    change (struct_depth (TDictEntry l)) with (1 + struct_depth_list l) in *.
    pose proof (depth_list_nonneg array_depth l) as Hal'.
    pose proof (depth_list_nonneg struct_depth l) as Hsl'.
    fold (array_depth_list l) in Hal'. fold (struct_depth_list l) in Hsl'.
    destruct (Z.leb_spec 32 sd).
    { injection H as <-. split; [discriminate | lia]. }
    replace (S (S (List.length (show_list l))) - 2)%nat with (List.length (show_list l)) in H by lia.
    rewrite <- app_assoc in H. rewrite take_app_length in H.
    destruct (check_sig fuel (show_list l) 0 ad (sd + 1)) as [b1|] eqn:E1; [|discriminate].
    apply IH in E1; [|lia..].
    destruct b1.
    + replace (nth (S (S (List.length (show_list l))) - 1)
                 ("{"%char :: show_list l ++ ["}"%char] ++ show_list ts) NUL)
        with "}"%char in H.
      2:{ replace (S (S (List.length (show_list l))) - 1)%nat
            with (S (List.length (show_list l))) by lia.
          cbn [nth]. rewrite app_nth2 by lia.
          replace (List.length (show_list l) - List.length (show_list l))%nat with 0%nat by lia.
          reflexivity. }
      change (Ascii.eqb "}" DBUS_DICT_ENTRY_END_CHAR) with true in H.
      cbn [negb orb andb] in H. cbv iota in H.
      replace (drop (S (S (List.length (show_list l))))
                 ("{"%char :: show_list l ++ ["}"%char] ++ show_list ts))
        with (show_list ts) in H.
      2:{ cbn [drop]. rewrite app_assoc. rewrite drop_app_length'; [reflexivity|].
          rewrite length_app. simpl. lia. }
      apply IH in H; [|lia..]. rewrite H.
      destruct E1 as [E1 _]. specialize (E1 eq_refl). lia.
    + injection H as <-. split; [discriminate|]. intros Hall.
      assert (false = true) as Hf; [|discriminate].
      apply E1. lia.
Qed.

Lemma balanced_from_show (t : dtype) :
  forall (r : list ascii) (open : list ascii),
    balanced_from (show t ++ r) open = balanced_from r open.
Proof.
  induction t as [b|t IH|l IH|l IH] using dtype_induction; intros r open.
  - destruct b; reflexivity.
  - simpl show. cbn [app balanced_from].
    change (Ascii.eqb "a" "(") with false. change (Ascii.eqb "a" "{") with false.
    change (Ascii.eqb "a" ")") with false. change (Ascii.eqb "a" "}") with false.
    cbn [orb]. cbv iota. apply IH.
  - simpl show. cbn [app balanced_from].
    change (Ascii.eqb "(" "(") with true. cbv iota.
    rewrite <- app_assoc.
    assert (forall r' open', balanced_from (flat_map show l ++ r') open'
                             = balanced_from r' open') as Hl.
    { induction IH as [|t l Ht _ IHl]; intros r' open'; [reflexivity|].
      cbn [flat_map]. rewrite <- app_assoc, Ht. apply IHl. }
    rewrite Hl. reflexivity.
  - simpl show. cbn [app balanced_from].
    change (Ascii.eqb "{" "(") with false. change (Ascii.eqb "{" "{") with true.
    cbv iota.
    rewrite <- app_assoc.
    assert (forall r' open', balanced_from (flat_map show l ++ r') open'
                             = balanced_from r' open') as Hl.
    { induction IH as [|t l Ht _ IHl]; intros r' open'; [reflexivity|].
      cbn [flat_map]. rewrite <- app_assoc, Ht. apply IHl. }
    rewrite Hl. reflexivity.
Qed.

Lemma balanced_show_list (l : list dtype) : balanced (show_list l) = true.
Proof.
  unfold balanced. induction l as [|t l IH]; [reflexivity|].
  rewrite show_list_cons, balanced_from_show. exact IH.
Qed.

Lemma signature_char_show (t : dtype) :
  Forall (fun c => signature_char c = true) (show t).
Proof.
  induction t as [b|t IH|l IH|l IH] using dtype_induction.
  - constructor; [destruct b; reflexivity | constructor].
  - simpl. constructor; [reflexivity | exact IH].
  - simpl. constructor; [reflexivity|]. apply Forall_app. split.
    + induction IH as [|t l Ht _ IHl]; [constructor|].
      cbn [flat_map]. apply Forall_app. split; assumption.
    + constructor; [reflexivity | constructor].
  - simpl. constructor; [reflexivity|]. apply Forall_app. split.
    + induction IH as [|t l Ht _ IHl]; [constructor|].
      cbn [flat_map]. apply Forall_app. split; assumption.
    + constructor; [reflexivity | constructor].
Qed.

Lemma signature_char_show_list (l : list dtype) :
  Forall (fun c => signature_char c = true) (show_list l).
Proof.
  induction l as [|t l IH]; [constructor|].
  rewrite show_list_cons. apply Forall_app. split; [apply signature_char_show | exact IH].
Qed.

Lemma show_list_nul_free (l : list dtype) : nul_free (show_list l).
Proof.
  intros Hin. pose proof (signature_char_show_list l) as H.
  rewrite Forall_forall in H. specialize (H NUL).
  rewrite list_elem_of_In in H. specialize (H Hin). discriminate.
Qed.

(** The signatures [_check_signature] accepts from depth 0: the texts of
    the sequences of types within the limits. *)
Lemma _check_signature_true_iff (s : list ascii) :
  nul_free s ->
  _check_signature s 0 0 = true <->
    exists ts, s = show_list ts
               /\ array_depth_list ts <= 32
               /\ struct_depth_list ts <= 32
               /\ (List.length s <= 255)%nat.
Proof.
  intros Hnf.
  pose proof (_check_signature_check_sig s 0 0 (S (List.length s)) Hnf ltac:(lia)) as Hc.
  split.
  - intros Ht. rewrite Ht in Hc.
    destruct (check_sig_accepts_show _ _ _ _ _ Hc) as [ts ->].
    exists ts. split; [reflexivity|].
    apply check_sig_show in Hc; [|lia..].
    destruct Hc as [Hc _]. specialize (Hc eq_refl). lia.
  - intros (ts & -> & Ha & Hs & Hl).
    apply check_sig_show in Hc; [|lia..].
    apply Hc. lia.
Qed.

Lemma bytes_text (l : list dtype) : bytes (text l) = show_list l.
Proof. apply list_ascii_of_string_of_list_ascii. Qed.

Lemma bytes_length (s : string) : List.length (bytes s) = String.length s.
Proof. induction s as [|c s IH]; simpl; [reflexivity | now rewrite IH]. Qed.

Lemma PyArg_Parse_s_cases (s : string) :
  (PyArg_Parse_s s = Ok (bytes s) /\ nul_free (bytes s))
  \/ PyArg_Parse_s s = Raise ArgumentError.
Proof.
  unfold PyArg_Parse_s.
  destruct (existsb (Ascii.eqb NUL) (bytes s)) eqn:E; [now right|].
  left. split; [reflexivity|]. intros Hin.
  assert (existsb (Ascii.eqb NUL) (bytes s) = true) as E'.
  { apply existsb_exists. exists NUL. split; [assumption | apply Ascii.eqb_refl]. }
  congruence.
Qed.

Lemma PyArg_Parse_s_text (l : list dtype) : PyArg_Parse_s (text l) = Ok (show_list l).
Proof.
  destruct (PyArg_Parse_s_cases (text l)) as [[H _]|H].
  - now rewrite bytes_text in H.
  - exfalso. unfold PyArg_Parse_s in H.
    destruct (existsb (Ascii.eqb NUL) (bytes (text l))) eqn:E; [|discriminate].
    apply existsb_exists in E as (c & Hin & Hc). apply Ascii.eqb_eq in Hc. subst c.
    rewrite bytes_text in Hin. exact (show_list_nul_free l Hin).
Qed.

(** No exception is pending after [_check_signature] on the text of a
    sequence of types, whatever it returns: [get_one_full_type] finds
    the closer of every bracket. *)
Lemma check_loop_pending_show (fuel : nat) :
  forall (m : list ascii) (start ptr : nat) (ad sd : Z) (ts : list dtype),
    string_at m ptr (show_list ts) ->
    check_loop_pending fuel m start ptr ad sd = None.
Proof.
  induction fuel as [|fuel IH]; intros m start ptr ad sd ts Hs; [reflexivity|].
  cbn [check_loop_pending].
  rewrite (string_at_load_0 _ _ _ Hs), (string_at_parse _ _ _ Hs).
  destruct ts as [|t ts]; [reflexivity|].
  rewrite show_list_cons in *. rewrite get_one_full_type_show.
  pose proof (show_length_pos t) as Hpos.
  assert (check_loop_pending fuel m start (ptr + List.length (show t)) ad sd = None)
    as Hnext.
  { apply (IH _ _ _ _ _ ts).
    pose proof (string_at_drop _ _ _ (List.length (show t)) Hs) as H.
    rewrite drop_app_length in H. apply H. rewrite length_app. lia. }
  assert (forall k l, (k <= List.length (show t))%nat ->
            take (List.length (show t) - k) (drop k (show t ++ show_list ts))
            = show_list l ->
            forall ad' sd',
              check_loop_pending fuel
                (<[(ptr + List.length (show t))%nat := NUL]> m)
                (ptr + k) (ptr + k) ad' sd' = None) as Hin.
  { intros k l Hk Hl ad' sd'. apply (IH _ _ _ _ _ l). rewrite <- Hl.
    apply string_at_truncate; [assumption|]. rewrite length_app. lia. }
  destruct t as [b|t1|l|l].
  - cbn [show List.length Nat.eqb app nth] in *.
    assert (Ascii.eqb (basic_code b) NUL = false) as -> by (destruct b; reflexivity).
    destruct (negb _); [reflexivity | exact Hnext].
  - pose proof (show_length_pos t1) as Hp1.
    cbn [show List.length app nth] in *.
    destruct (Nat.eqb_spec (S (List.length (show t1))) 1) as [E|_]; [lia|].
    change (Ascii.eqb "a" NUL) with false.
    change (Ascii.eqb "a" DBUS_TYPE_ARRAY) with true. cbv iota.
    destruct (32 <=? ad); [reflexivity|]. cbv zeta.
    pose proof (check_loop_check_sig fuel
                  (<[(ptr + S (List.length (show t1)))%nat := NUL]> m)
                  (ptr + 1) (ptr + 1) (ad + 1) sd _
                  (string_at_truncate m ptr _ 1 (S (List.length (show t1))) Hs
                     ltac:(cbn [List.length]; rewrite ?length_app;
                           cbn [List.length]; lia))) as H1.
    destruct (check_loop fuel _ (ptr + 1) (ptr + 1) (ad + 1) sd) as [[m2 [|]]|];
      [| |reflexivity].
    + destruct H1 as [_ Hm2]. rewrite (Hm2 eq_refl), insert_load_id. exact Hnext.
    + apply (Hin 1%nat [t1]); [lia|].
      cbn [drop]. rewrite drop_0.
      replace (S (List.length (show t1)) - 1)%nat with (List.length (show t1)) by lia.
      rewrite take_app_length. unfold show_list. cbn [flat_map].
      now rewrite app_nil_r.
  - cbn [show List.length app nth] in *.
    rewrite length_app in *. cbn [List.length] in *.
    destruct (Nat.eqb_spec (S (List.length (flat_map show l) + 1)) 1) as [E|_]; [lia|].
    change (Ascii.eqb "(" NUL) with false.
    change (Ascii.eqb "(" DBUS_TYPE_ARRAY) with false.
    change (Ascii.eqb "(" DBUS_STRUCT_BEGIN_CHAR) with true. cbn [orb]. cbv iota.
    destruct (32 <=? sd); [reflexivity|]. cbv zeta.
    replace (ptr + S (List.length (flat_map show l) + 1) - 1)%nat
      with (ptr + S (List.length (flat_map show l)))%nat by lia.
    pose proof (check_loop_check_sig fuel
                  (<[(ptr + S (List.length (flat_map show l)))%nat := NUL]> m)
                  (ptr + 1) (ptr + 1) ad (sd + 1) _
                  (string_at_truncate m ptr _ 1 (S (List.length (flat_map show l))) Hs
                     ltac:(cbn [List.length]; rewrite ?length_app;
                           cbn [List.length]; lia))) as H1.
    destruct (check_loop fuel _ (ptr + 1) (ptr + 1) ad (sd + 1)) as [[m2 [|]]|];
      [| |reflexivity].
    + destruct H1 as [_ Hm2]. rewrite (Hm2 eq_refl), insert_load_id.
      match goal with |- (if ?b then None else _) = None => destruct b end;
        [reflexivity|].
      replace (ptr + S (List.length (flat_map show l)) + 1)%nat
        with (ptr + S (List.length (flat_map show l) + 1))%nat by lia.
      exact Hnext.
    + pose proof (string_at_truncate m ptr _ 1 (S (List.length (flat_map show l))) Hs
                    ltac:(cbn [List.length]; rewrite ?length_app;
                          cbn [List.length]; lia)) as Hs1.
      apply (IH _ _ _ _ _ l).
      replace (show_list l)
        with (take (S (List.length (flat_map show l)) - 1)
                (drop 1 (("("%char :: flat_map show l ++ [")"%char]) ++ show_list ts)));
        [exact Hs1|].
      cbn [app drop]. rewrite drop_0.
      replace (S (List.length (flat_map show l)) - 1)%nat
        with (List.length (flat_map show l)) by lia.
      rewrite <- app_assoc. now rewrite take_app_length.
  - cbn [show List.length app nth] in *.
    rewrite length_app in *. cbn [List.length] in *.
    destruct (Nat.eqb_spec (S (List.length (flat_map show l) + 1)) 1) as [E|_]; [lia|].
    change (Ascii.eqb "{" NUL) with false.
    change (Ascii.eqb "{" DBUS_TYPE_ARRAY) with false.
    change (Ascii.eqb "{" DBUS_STRUCT_BEGIN_CHAR) with false.
    change (Ascii.eqb "{" DBUS_DICT_ENTRY_BEGIN_CHAR) with true. cbn [orb]. cbv iota.
    destruct (32 <=? sd); [reflexivity|]. cbv zeta.
    replace (ptr + S (List.length (flat_map show l) + 1) - 1)%nat
      with (ptr + S (List.length (flat_map show l)))%nat by lia.
    pose proof (check_loop_check_sig fuel
                  (<[(ptr + S (List.length (flat_map show l)))%nat := NUL]> m)
                  (ptr + 1) (ptr + 1) ad (sd + 1) _
                  (string_at_truncate m ptr _ 1 (S (List.length (flat_map show l))) Hs
                     ltac:(cbn [List.length]; rewrite ?length_app;
                           cbn [List.length]; lia))) as H1.
    destruct (check_loop fuel _ (ptr + 1) (ptr + 1) ad (sd + 1)) as [[m2 [|]]|];
      [| |reflexivity].
    + destruct H1 as [_ Hm2]. rewrite (Hm2 eq_refl), insert_load_id.
      match goal with |- (if ?b then None else _) = None => destruct b end;
        [reflexivity|].
      replace (ptr + S (List.length (flat_map show l)) + 1)%nat
        with (ptr + S (List.length (flat_map show l) + 1))%nat by lia.
      exact Hnext.
    + pose proof (string_at_truncate m ptr _ 1 (S (List.length (flat_map show l))) Hs
                    ltac:(cbn [List.length]; rewrite ?length_app;
                          cbn [List.length]; lia)) as Hs1.
      apply (IH _ _ _ _ _ l).
      replace (show_list l)
        with (take (S (List.length (flat_map show l)) - 1)
                (drop 1 (("{"%char :: flat_map show l ++ ["}"%char]) ++ show_list ts)));
        [exact Hs1|].
      cbn [app drop]. rewrite drop_0.
      replace (S (List.length (flat_map show l)) - 1)%nat
        with (List.length (flat_map show l)) by lia.
      rewrite <- app_assoc. now rewrite take_app_length.
Qed.

(** An exception is pending only when [_check_signature] returns 0: a
    call that returns 1 has met no failure. *)
Lemma check_loop_pending_false (fuel : nat) :
  forall (m : list ascii) (start ptr : nat) (ad sd : Z) (e : exn),
    check_loop_pending fuel m start ptr ad sd = Some e ->
    exists m', check_loop fuel m start ptr ad sd = Some (m', false).
Proof.
  induction fuel as [|fuel IH]; intros m start ptr ad sd e; [discriminate|].
  cbn [check_loop_pending check_loop].
  destruct (Ascii.eqb (load m ptr) NUL); [discriminate|].
  destruct (get_one_full_type (drop ptr m)) as [n|e']; [|intros _; now exists m].
  destruct (n =? 1)%nat.
  { destruct (negb (strchr basic_codes (load m ptr))); [discriminate | apply IH]. }
  destruct (Ascii.eqb (load m ptr) DBUS_TYPE_ARRAY).
  { destruct (32 <=? ad); [discriminate|]. cbv zeta.
    destruct (check_loop fuel _ (ptr + 1) (ptr + 1) (ad + 1) sd) as [[m2 [|]]|];
      [apply IH | intros _; now exists m2 | discriminate]. }
  destruct (Ascii.eqb (load m ptr) DBUS_STRUCT_BEGIN_CHAR
            || Ascii.eqb (load m ptr) DBUS_DICT_ENTRY_BEGIN_CHAR).
  { destruct (32 <=? sd); [discriminate|]. cbv zeta.
    destruct (check_loop fuel _ (ptr + 1) (ptr + 1) ad (sd + 1)) as [[m2 [|]]|];
      [| intros _; now exists m2 | discriminate].
    match goal with |- (if ?b then None else _) = Some e -> _ => destruct b end;
      [discriminate | apply IH]. }
  apply IH.
Qed.

Lemma _check_signature_pending_false (s : list ascii) (ad sd : Z) (e : exn) :
  _check_signature_pending s ad sd = Some e -> _check_signature s ad sd = false.
Proof.
  unfold _check_signature_pending, _check_signature, _check_signature_mem,
    _check_signature_at. cbv zeta.
  intros [m' H]%check_loop_pending_false. now rewrite H.
Qed.

Lemma _check_signature_pending_show (ts : list dtype) (ad sd : Z) :
  _check_signature_pending (show_list ts) ad sd = None.
Proof.
  unfold _check_signature_pending. cbv zeta.
  apply (check_loop_pending_show _ _ _ _ _ _ ts).
  split; [apply show_list_nul_free|]. exists []. reflexivity.
Qed.

Lemma check_signature_text (ts : list dtype) :
  check_signature (text ts) = Ok (_check_signature (show_list ts) 0 0).
Proof.
  unfold check_signature. rewrite PyArg_Parse_s_text. cbn [bind]. cbv zeta.
  now rewrite _check_signature_pending_show.
Qed.

Lemma check_signature_accepts (s : string) :
  check_signature s = Ok true <->
    exists ts, bytes s = show_list ts
               /\ array_depth_list ts <= 32
               /\ struct_depth_list ts <= 32
               /\ (String.length s <= 255)%nat.
Proof.
  rewrite <- bytes_length. split.
  - unfold check_signature.
    destruct (PyArg_Parse_s_cases s) as [[H Hnf] | H]; rewrite H; cbn [bind];
      [|discriminate].
    cbv zeta. destruct (_check_signature_pending (bytes s) 0 0); [discriminate|].
    intros [= Ht]. now apply (_check_signature_true_iff _ Hnf).
  - intros (ts & Hts & Hrest).
    assert (s = text ts) as ->.
    { unfold text. rewrite <- Hts. unfold bytes.
      now rewrite string_of_list_ascii_of_string. }
    rewrite check_signature_text. f_equal.
    apply (_check_signature_true_iff _ (show_list_nul_free ts)).
    exists ts. split; [reflexivity|]. rewrite bytes_text in Hrest. exact Hrest.
Qed.

Lemma show_list_inj_depth (ts : list dtype) (b : bool) :
  _check_signature (show_list ts) 0 0 = b ->
  (b = true <->
     array_depth_list ts <= 32 /\ struct_depth_list ts <= 32
     /\ (List.length (show_list ts) <= 255)%nat).
Proof.
  intros Hb.
  pose proof (_check_signature_check_sig (show_list ts) 0 0
                (S (List.length (show_list ts))) (show_list_nul_free ts) ltac:(lia)) as Hc.
  rewrite Hb in Hc. apply check_sig_show in Hc; [|lia..]. rewrite Hc. lia.
Qed.

(** C3.  On a signature with an unbalanced opening bracket
    [check_signature] does not return [False]: on ["(i"]
    [get_one_full_type] sets the module's [Error], [_check_signature]
    returns 0 with the exception left pending, and the [False] made from
    the 0 comes back with it, which the interpreter turns into a
    [SystemError]; an exception is pending only where 0 is returned.
    [_check_signature] itself returns 0 for every signature of the
    claim: brackets that do not match, a character that is no type code,
    arrays nested 33 deep, structs or dict entries nested 33 deep, more
    than 255 characters.  [check_signature] accepts none of them, and
    returns [False] for the unknown code ["Z"], for the unmatched closer
    of ["i)"] and for every sequence of types nested 33 deep (33 ['a']
    and an ['i'], 33 brackets around an ['i']). *)
Theorem check_signature_unbalanced_pending :
  _check_signature (bytes "(i") 0 0 = false
  /\ _check_signature_pending (bytes "(i") 0 0
     = Some (Error "unbalanced `%c' format")
  /\ check_signature "(i"
     = Raise (SystemError "%R returned a result with an exception set")
  /\ check_signature "i)" = Ok false
  /\ (forall (s : list ascii) (e : exn),
         _check_signature_pending s 0 0 = Some e -> _check_signature s 0 0 = false)
  /\ (forall s : list ascii,
         nul_free s -> balanced s = false -> _check_signature s 0 0 = false)
  /\ (forall s : string,
         balanced (bytes s) = false -> check_signature s <> Ok true)
  /\ (forall (s : list ascii) (c : ascii),
         nul_free s -> In c s -> signature_char c = false ->
         _check_signature s 0 0 = false)
  /\ (forall (s : string) (c : ascii),
         In c (bytes s) -> signature_char c = false ->
         check_signature s <> Ok true)
  /\ check_signature "Z" = Ok false
  /\ (forall ts : list dtype,
         33 <= array_depth_list ts -> check_signature (text ts) = Ok false)
  /\ check_signature "aaaaaaaaaaaaaaaaaaaaaaaaaaaaaaaaai" = Ok false
  /\ (forall ts : list dtype,
         33 <= struct_depth_list ts -> check_signature (text ts) = Ok false)
  /\ check_signature
       "(((((((((((((((((((((((((((((((((i)))))))))))))))))))))))))))))))))"
     = Ok false
  /\ (forall s : list ascii,
         nul_free s -> (255 < List.length s)%nat -> _check_signature s 0 0 = false)
  /\ (forall s : string,
         (255 < String.length s)%nat -> check_signature s <> Ok true).
Proof.
  repeat split; try reflexivity.
  - intros s e. apply _check_signature_pending_false.
  - intros s Hnf Hb. apply not_true_is_false. intros Ha.
    apply (_check_signature_true_iff _ Hnf) in Ha as (ts & -> & _).
    rewrite balanced_show_list in Hb. discriminate.
  - intros s Hb Ha.
    apply check_signature_accepts in Ha as (ts & Hts & _).
    rewrite Hts, balanced_show_list in Hb. discriminate.
  - intros s c Hnf Hin Hc. apply not_true_is_false. intros Ha.
    apply (_check_signature_true_iff _ Hnf) in Ha as (ts & -> & _).
    pose proof (signature_char_show_list ts) as H.
    rewrite Forall_forall in H. specialize (H c).
    rewrite list_elem_of_In in H. specialize (H Hin). congruence.
  - intros s c Hin Hc Ha.
    apply check_signature_accepts in Ha as (ts & Hts & _).
    rewrite Hts in Hin. pose proof (signature_char_show_list ts) as H.
    rewrite Forall_forall in H. specialize (H c).
    rewrite list_elem_of_In in H. specialize (H Hin). congruence.
  - intros ts Hd. rewrite check_signature_text. f_equal.
    destruct (_check_signature (show_list ts) 0 0) eqn:E; [|reflexivity].
    apply show_list_inj_depth in E. destruct E as [E _]. specialize (E eq_refl). lia.
  - intros ts Hd. rewrite check_signature_text. f_equal.
    destruct (_check_signature (show_list ts) 0 0) eqn:E; [|reflexivity].
    apply show_list_inj_depth in E. destruct E as [E _]. specialize (E eq_refl). lia.
  - intros s Hnf Hl. apply not_true_is_false. intros Ha.
    apply (_check_signature_true_iff _ Hnf) in Ha as (ts & _ & _ & _ & Hlen). lia.
  - intros s Hl Ha.
    apply check_signature_accepts in Ha as (ts & _ & _ & _ & Hlen). lia.
Qed.

End SigTree.

(** ** Signature engine: the module functions *)

Module SigApi.
Import Sig SigSpec SigMem SigTree.

(** When [_check_signature] accepts, the memory is as it was. *)
Lemma _check_signature_accept_restores (s : list ascii) (ad sd : Z) (m' : list ascii) :
  nul_free s ->
  _check_signature_mem s ad sd = Some (m', true) -> m' = s ++ [NUL].
Proof.
  intros Hnf H.
  destruct (_check_signature_mem_spec s ad sd Hnf) as (m'' & b & Hm & _ & Hr).
  rewrite Hm in H. injection H as <- ->. now apply Hr.
Qed.

(** C2.  [_check_signature] does not leave a rejected input as it was: on
    ["aZi"] the nested call on the element type of the array fails, and
    the function returns 0 with the terminator it wrote over the ['i']
    still in place. *)
Theorem _check_signature_clobbers_rejected_input :
  _check_signature_mem (bytes "aZi") 0 0
    = Some (bytes "aZ" ++ [NUL; NUL], false)
  /\ bytes "aZ" ++ [NUL; NUL] <> bytes "aZi" ++ [NUL].
Proof.
  split; [reflexivity | discriminate].
Qed.

Lemma utf8_valid_ascii (s : list ascii) :
  Forall (fun c => code c < 128) s -> utf8_valid s = true.
Proof.
  induction 1 as [|c s Hc _ IH]; [reflexivity|].
  cbn [utf8_valid]. unfold byte_in at 1.
  assert (0 <= code c) as H0 by (unfold code; lia).
  destruct (Z.leb_spec 0 (code c)); [|lia].
  destruct (Z.leb_spec (code c) 127); [|lia]. exact IH.
Qed.

Lemma signature_char_ascii (c : ascii) : signature_char c = true -> code c < 128.
Proof.
  unfold signature_char. cbn. rewrite !orb_true_iff.
  intros H.
  repeat match type of H with
         | _ \/ _ => destruct H as [H|H]
         end;
    try discriminate; apply Ascii.eqb_eq in H; subst c; reflexivity.
Qed.

Lemma utf8_valid_show (t : dtype) : utf8_valid (show t) = true.
Proof.
  apply utf8_valid_ascii. eapply Forall_impl; [apply signature_char_show|].
  intros c. apply signature_char_ascii.
Qed.

Lemma split_loop_show (ts : list dtype) :
  forall (r : list ascii) (acc : list string) (fuel : nat),
    (List.length ts < fuel)%nat ->
    nth 0 r NUL = NUL ->
    split_loop fuel (show_list ts ++ r) acc
    = Some (Ok (acc ++ map (fun t => string_of_list_ascii (show t)) ts)).
Proof.
  induction ts as [|t ts IH]; intros r acc fuel Hfuel Hr.
  - destruct fuel; [simpl in Hfuel; lia|]. simpl.
    rewrite Hr. simpl. now rewrite app_nil_r.
  - destruct fuel; [simpl in Hfuel; lia|].
    rewrite show_list_cons, <- app_assoc. cbn [split_loop].
    rewrite get_one_full_type_show.
    assert (nth 0 (show t ++ show_list ts ++ r) NUL <> NUL) as Hh.
    { pose proof (signature_char_show t) as Hs.
      destruct (show t) as [|c s] eqn:E.
      - pose proof (show_length_pos t) as Hp. rewrite E in Hp. simpl in Hp. lia.
      - simpl. inversion Hs as [|? ? Hc _]; subst. intros ->. discriminate. }
    rewrite eqb_NUL_false by assumption.
    rewrite take_app_length, drop_app_length.
    unfold PyUnicode_FromStringAndSize. rewrite utf8_valid_show.
    rewrite IH by (simpl in Hfuel; lia || assumption).
    rewrite <- app_assoc. reflexivity.
Qed.

Lemma show_list_length (ts : list dtype) :
  (List.length ts <= List.length (show_list ts))%nat.
Proof.
  induction ts as [|t ts IH]; [simpl; lia|].
  rewrite show_list_cons, length_app. pose proof (show_length_pos t). simpl. lia.
Qed.

(** C9.  [split_signature] returns the top-level full types of a
    signature in order, each as one string, whatever they contain:
    ["ii"] gives ["i"], ["i"]; ["ai"] gives ["ai"]; ["a{is}"] gives
    ["a{is}"]. *)
Theorem split_signature_full_types :
  (forall ts : list dtype,
      split_signature (text ts) = Ok (map (fun t => text [t]) ts))
  /\ split_signature "ii" = Ok ["i"; "i"]%string
  /\ split_signature "ai" = Ok ["ai"]%string
  /\ split_signature "a{is}" = Ok ["a{is}"]%string.
Proof.
  split; [|repeat split; reflexivity].
  intros ts. unfold split_signature. rewrite PyArg_Parse_s_text. cbn [bind].
  pose proof (split_loop_show ts [] [] (S (List.length (show_list ts)))) as H.
  rewrite app_nil_r in H. rewrite H; [|pose proof (show_list_length ts); lia | reflexivity].
  simpl. f_equal. apply map_ext. intros t. unfold text, show_list. simpl.
  now rewrite app_nil_r.
Qed.

(** A character outside ASCII is several bytes of the C string, which
    [split_signature] takes for one full type each: no [str] can be made
    of the first byte alone.  The string here is U+00E9, the bytes 195
    and 169. *)
Lemma split_signature_non_ascii :
  split_signature (String "195" (String "169" EmptyString))
    = Raise UnicodeDecodeError
  /\ split_signature (String "195" (String "169" EmptyString))
     <> Ok [String "195" (String "169" EmptyString)].
Proof. split; [reflexivity | discriminate]. Qed.

(** C10, amended.  For an ASCII character that is neither the array
    marker, nor an opening bracket, nor NUL, [split_signature] of the
    one-character string returns that string as its only full type, and
    when the character is none of the fourteen basic codes, as ['Z'],
    [check_signature] returns [False] for it. *)
Theorem split_signature_unknown_code (c : ascii) :
  code c < 128 ->
  c <> "a"%char -> c <> "("%char -> c <> "{"%char -> c <> NUL ->
  split_signature (String c EmptyString) = Ok [String c EmptyString]
  /\ (strchr basic_codes c = false ->
      check_signature (String c EmptyString) = Ok false).
Proof.
  intros Hascii Ha Hs Hd Hn.
  assert (PyArg_Parse_s (String c EmptyString) = Ok [c]) as Hp.
  { apply PyArg_Parse_s_Ok. split; [reflexivity|].
    intros [H|[]]. simpl in H. congruence. }
  assert (get_one_full_type [c] = Ok 1%nat) as Hg.
  { cbn [get_one_full_type].
    unfold DBUS_TYPE_ARRAY, DBUS_STRUCT_BEGIN_CHAR, DBUS_DICT_ENTRY_BEGIN_CHAR.
    apply Ascii.eqb_neq in Ha, Hs, Hd, Hn. now rewrite Ha, Hs, Hd, Hn. }
  split.
  - unfold split_signature. rewrite Hp. cbn [bind List.length].
    change (split_loop 2 [c] []) with
      (if Ascii.eqb c NUL then Some (Ok [])
       else match get_one_full_type [c] with
            | Ok n =>
                match PyUnicode_FromStringAndSize (take n [c]) with
                | Raise e => Some (Raise e)
                | Ok Pstr => split_loop 1 (drop n [c]) ([] ++ [Pstr])
                end
            | Raise _ => Some (Raise (Error "illegal signature string"))
            end).
    rewrite eqb_NUL_false by assumption. rewrite Hg.
    unfold PyUnicode_FromStringAndSize. cbn [take].
    rewrite (utf8_valid_ascii [c]) by (constructor; [assumption | constructor]).
    reflexivity.
  - intros Hb. unfold check_signature. rewrite Hp. cbn [bind]. cbv zeta.
    assert (_check_signature_pending [c] 0 0 = None) as ->.
    { unfold _check_signature_pending. cbv zeta.
      cbn [app List.length check_loop_pending]. unfold load. cbn [nth drop].
      rewrite (eqb_NUL_false c Hn).
      assert (get_one_full_type [c; NUL] = Ok 1%nat) as ->.
      { cbn [get_one_full_type].
        unfold DBUS_TYPE_ARRAY, DBUS_STRUCT_BEGIN_CHAR, DBUS_DICT_ENTRY_BEGIN_CHAR.
        apply Ascii.eqb_neq in Ha, Hs, Hd, Hn. now rewrite Ha, Hs, Hd, Hn. }
      cbn [Nat.eqb]. rewrite Hb. reflexivity. }
    f_equal.
    assert (nul_free [c]) as Hnf by (intros [H|[]]; congruence).
    pose proof (_check_signature_check_sig [c] 0 0 2 Hnf ltac:(simpl; lia)) as Hc.
    rewrite (check_sig_step _ _ _ _ _ _ _ Hg) in Hc. simpl in Hc.
    rewrite Hb in Hc. simpl in Hc. congruence.
Qed.

Lemma split_signature_unknown_code_witness :
  split_signature "Z" = Ok ["Z"%string] /\ check_signature "Z" = Ok false.
Proof.
  destruct (split_signature_unknown_code "Z"%char) as [H1 H2];
    try discriminate; [reflexivity|].
  split; [exact H1 | apply H2; reflexivity].
Defined.

End SigApi.

(** ** Numeric ranges *)

Module NumProofs.
Import Py Num NumSpec DBus Codec.

Lemma int_range_inv (type : ascii) (lo hi : Z) :
  int_range type = Some (lo, hi) ->
  (type = "y"%char /\ lo = 0 /\ hi = 255)
  \/ (type = "q"%char /\ lo = 0 /\ hi = 65535)
  \/ (type = "u"%char /\ lo = 0 /\ hi = 4294967295)
  \/ (type = "t"%char /\ lo = 0 /\ hi = 18446744073709551615)
  \/ (type = "n"%char /\ lo = -32768 /\ hi = 32767)
  \/ (type = "i"%char /\ lo = -2147483648 /\ hi = 2147483647)
  \/ (type = "x"%char /\ lo = -9223372036854775808 /\ hi = 9223372036854775807).
Proof.
  unfold int_range.
  repeat match goal with
         | |- context [Ascii.eqb type ?c] =>
             destruct (Ascii.eqb_spec type c) as [->|?];
             [intros [= <- <-]; tauto|]
         end.
  discriminate.
Qed.

Lemma check_number_spec (type : ascii) (lo hi n : Z) :
  int_range type = Some (lo, hi) ->
  check_number (PyLong n) type
  = if (lo <=? n) && (n <=? hi) then Ok tt else Raise range_error.
Proof.
  intros H. apply int_range_inv in H.
  assert (forall a b, (if (n <? a) || (b <? n) then Raise range_error else Ok tt)
                      = (if (a <=? n) && (n <=? b) then Ok tt else @Raise unit range_error))
    as Hcmp.
  { intros a b. rewrite !Z.ltb_antisym, <- negb_andb.
    now destruct ((a <=? n) && (n <=? b)). }
  destruct H as [H|[H|[H|[H|[H|[H|H]]]]]]; destruct H as (-> & -> & ->);
    apply Hcmp.
Qed.

Lemma wrap_unsigned_small (w x : Z) : 0 <= x < 2 ^ w -> wrap_unsigned w x = x.
Proof. intros H. unfold wrap_unsigned. now apply Z.mod_small. Qed.

Lemma wrap_signed_small (w x : Z) :
  0 < w -> - 2 ^ (w - 1) <= x < 2 ^ (w - 1) -> wrap_signed w x = x.
Proof.
  intros Hw H. unfold wrap_signed.
  assert (2 ^ w = 2 * 2 ^ (w - 1)) as Hp.
  { replace w with (1 + (w - 1)) at 1 by lia. rewrite Z.pow_add_r by lia. reflexivity. }
  rewrite Z.mod_small by lia. lia.
Qed.

(** The integer cases of [message_append_arg]. *)
Lemma message_append_arg_int (type : ascii) (lo hi n : Z) (fuel : nat)
    (iter : DBusMessageIter) :
  int_range type = Some (lo, hi) ->
  message_append_arg (S fuel) iter [type] (PyLong n)
  = if (lo <=? n) && (n <=? hi)
    then Ok (dbus_message_iter_append_basic iter type (VInt n))
    else Raise range_error.
Proof.
  intros H. pose proof (check_number_spec type lo hi n H) as Hc.
  destruct ((lo <=? n) && (n <=? hi)) eqn:Hb.
  - apply andb_true_iff in Hb as [H1 H2]. apply Z.leb_le in H1, H2.
    apply int_range_inv in H.
    destruct H as [H|[H|[H|[H|[H|[H|H]]]]]]; destruct H as (-> & -> & ->);
      cbn [message_append_arg nth]; cbn [Ascii.eqb Bool.eqb DBUS_TYPE_BYTE
        DBUS_TYPE_BOOLEAN DBUS_TYPE_INT16 DBUS_TYPE_UINT16 DBUS_TYPE_INT32
        DBUS_TYPE_UINT32 DBUS_TYPE_INT64 DBUS_TYPE_UINT64 andb];
      rewrite Hc; cbn [bind]; do 3 f_equal;
      unfold PyLong_AsLong, PyLong_AsLongLong, PyLong_AsUnsignedLongMask,
        PyLong_AsUnsignedLongLong, PyLong_AsLong, long_value.
    + destruct (Z.leb_spec (- 2 ^ 63) n); [|lia].
      destruct (Z.leb_spec n (2 ^ 63 - 1)); [|lia]. cbn [andb].
      apply wrap_unsigned_small. lia.
    + destruct (Z.leb_spec (- 2 ^ 63) n); [|lia].
      destruct (Z.leb_spec n (2 ^ 63 - 1)); [|lia]. cbn [andb].
      apply wrap_unsigned_small. lia.
    + rewrite (wrap_unsigned_small 64) by lia. apply wrap_unsigned_small. lia.
    + destruct (Z.leb_spec 0 n); [|lia].
      destruct (Z.leb_spec n (2 ^ 64 - 1)); [|lia]. cbn [andb].
      apply wrap_unsigned_small. lia.
    + destruct (Z.leb_spec (- 2 ^ 63) n); [|lia].
      destruct (Z.leb_spec n (2 ^ 63 - 1)); [|lia]. cbn [andb].
      apply wrap_signed_small; lia.
    + destruct (Z.leb_spec (- 2 ^ 63) n); [|lia].
      destruct (Z.leb_spec n (2 ^ 63 - 1)); [|lia]. cbn [andb].
      apply wrap_signed_small; lia.
    + destruct (Z.leb_spec (- 2 ^ 63) n); [|lia].
      destruct (Z.leb_spec n (2 ^ 63 - 1)); [|lia]. cbn [andb].
      apply wrap_signed_small; lia.
  - apply int_range_inv in H.
    destruct H as [H|[H|[H|[H|[H|[H|H]]]]]]; destruct H as (-> & -> & ->);
      cbn [message_append_arg nth]; cbn [Ascii.eqb Bool.eqb DBUS_TYPE_BYTE
        DBUS_TYPE_BOOLEAN DBUS_TYPE_INT16 DBUS_TYPE_UINT16 DBUS_TYPE_INT32
        DBUS_TYPE_UINT32 DBUS_TYPE_INT64 DBUS_TYPE_UINT64 andb];
      rewrite Hc; reflexivity.
Qed.

(** C5.  Against a fixed-width integer type code an integer outside the
    bounds of the type is refused with the range error, by [check_number]
    and so by the encoder, and an integer within the bounds passes the
    check and is written as it is.  300 against ['y'] is refused. *)
Theorem check_number_range (type : ascii) (lo hi n : Z) :
  int_range type = Some (lo, hi) ->
  (lo <= n <= hi ->
     check_number (PyLong n) type = Ok tt
     /\ forall fuel iter,
          message_append_arg (S fuel) iter [type] (PyLong n)
          = Ok (dbus_message_iter_append_basic iter type (VInt n)))
  /\ (~ (lo <= n <= hi) ->
        check_number (PyLong n) type = Raise range_error
        /\ forall fuel iter,
             message_append_arg (S fuel) iter [type] (PyLong n) = Raise range_error)
  /\ check_number (PyLong 300) "y" = Raise range_error
  /\ message_set_args [] "y" (PyTuple [PyLong 300]) = Raise range_error.
Proof.
  intros H. pose proof (check_number_spec type lo hi n H) as Hc.
  split; [|split; [|split; reflexivity]].
  - intros Hn.
    assert ((lo <=? n) && (n <=? hi) = true) as Hb.
    { apply andb_true_iff. split; apply Z.leb_le; lia. }
    rewrite Hb in Hc. split; [assumption|]. intros fuel iter.
    rewrite (message_append_arg_int type lo hi n fuel iter H), Hb. reflexivity.
  - intros Hn.
    assert ((lo <=? n) && (n <=? hi) = false) as Hb.
    { destruct (Z.leb_spec lo n); destruct (Z.leb_spec n hi); try reflexivity; lia. }
    rewrite Hb in Hc. split; [assumption|]. intros fuel iter.
    rewrite (message_append_arg_int type lo hi n fuel iter H), Hb. reflexivity.
Qed.

Lemma check_number_range_witness :
  Num.check_number (PyLong 255) "y" = Ok tt
  /\ Num.check_number (PyLong 256) "y" = Raise range_error.
Proof.
  destruct (check_number_range "y" 0 255 255 eq_refl) as (H1 & _).
  destruct (check_number_range "y" 0 255 256 eq_refl) as (_ & H2 & _).
  split; [apply H1; lia | apply H2; lia].
Defined.

End NumProofs.

(** ** Dictionaries *)

Module DictProofs.
Import Py DBus Codec CodecSpec.

Lemma token_eqb_eq (a b : token) : token_eqb a b = true -> a = b.
Proof.
  destruct a, b; simpl; try discriminate; try reflexivity.
  - intros H. apply Z.eqb_eq in H. now subst.
  - intros H. apply Z.eqb_eq in H. now subst.
  - intros H. apply String.eqb_eq in H. now subst.
  - intros H. apply String.eqb_eq in H. now subst.
Qed.

Lemma tokens_eqb_eq (a b : list token) : tokens_eqb a b = true -> a = b.
Proof.
  revert b. induction a as [|x a IH]; intros [|y b]; simpl; try discriminate.
  - reflexivity.
  - intros H. apply andb_true_iff in H as [H1 H2].
    apply token_eqb_eq in H1. apply IH in H2. now subst.
Qed.

(** Equality of keys is symmetric and transitive (a NaN is not equal to
    itself). *)
Lemma py_eqb_sym (a b : pyobj) : py_eqb a b = true -> py_eqb b a = true.
Proof.
  unfold py_eqb. destruct (py_key a) as [x|], (py_key b) as [y|]; try discriminate.
  intros H. pose proof (tokens_eqb_eq _ _ H) as ->. exact H.
Qed.

Lemma py_eqb_trans (a b c : pyobj) :
  py_eqb a b = true -> py_eqb b c = true -> py_eqb a c = true.
Proof.
  unfold py_eqb.
  destruct (py_key a) as [x|], (py_key b) as [y|], (py_key c) as [z|];
    try discriminate.
  intros H1 H2. pose proof (tokens_eqb_eq _ _ H1) as ->. exact H2.
Qed.

Lemma dict_get_dict_set (d : list (pyobj * pyobj)) (k v q : pyobj) :
  dict_get (dict_set d k v) q
  = if py_eqb k q then Some v else dict_get d q.
Proof.
  induction d as [|[k0 v0] d IH]; simpl; [reflexivity|].
  destruct (py_eqb k0 k) eqn:E0; simpl.
  - destruct (py_eqb k0 q) eqn:E1.
    + rewrite (py_eqb_trans k k0 q (py_eqb_sym _ _ E0) E1). reflexivity.
    + destruct (py_eqb k q) eqn:E2; [|reflexivity].
      rewrite (py_eqb_trans k0 k q E0 E2) in E1. discriminate.
  - rewrite IH. destruct (py_eqb k0 q) eqn:E1; [|reflexivity].
    destruct (py_eqb k q) eqn:E2; [|reflexivity].
    rewrite (py_eqb_trans k0 q k E1 (py_eqb_sym _ _ E2)) in E0. discriminate.
Qed.

Lemma dict_get_fold (kvs : list (pyobj * pyobj)) :
  forall (d : list (pyobj * pyobj)) (q : pyobj),
    dict_get (fold_left (fun d kv => dict_set d (fst kv) (snd kv)) kvs d) q
    = match last_value kvs q with
      | Some v => Some v
      | None => dict_get d q
      end.
Proof.
  induction kvs as [|[k v] kvs IH]; intros d q; simpl; [reflexivity|].
  rewrite IH. destruct (last_value kvs q); [reflexivity|].
  rewrite dict_get_dict_set. destruct (py_eqb k q); reflexivity.
Qed.

(** The loop of the array case on dict entries: one [PyDict_SetItem] for
    each entry, in the order of the entries. *)
Lemma read_items_loop_dict (entries : list wire) (kvs : list (pyobj * pyobj)) :
  Forall2 (fun w kv => message_read_arg w = Ok (PyTuple [fst kv; snd kv])) entries kvs ->
  Forall (fun kv => py_hashable (fst kv) = true) kvs ->
  forall d,
    read_items_loop message_read_arg entries (PyDict d)
    = Ok (PyDict (fold_left (fun d kv => dict_set d (fst kv) (snd kv)) kvs d)).
Proof.
  induction 1 as [|w kv entries kvs Hw _ IH]; intros Hh d; [reflexivity|].
  inversion Hh as [|? ? Hk Hh']; subst.
  cbn [read_items_loop]. rewrite Hw. cbn [bind PyTuple_Check negb].
  unfold PyDict_SetItem. cbn. rewrite Hk. cbn [bind]. apply IH. assumption.
Qed.

(** A dict entry is read as the pair of its first two values. *)
Lemma message_read_arg_dict_entry (sig : list ascii) (wk wv : wire)
    (rest : list wire) (k v : pyobj) :
  message_read_arg wk = Ok k -> message_read_arg wv = Ok v ->
  message_read_arg (WContainer DBUS_TYPE_DICT_ENTRY sig (wk :: wv :: rest))
  = Ok (PyTuple [k; v]).
Proof.
  intros Hk Hv. cbn [message_read_arg]. simpl. rewrite Hk, Hv. reflexivity.
Qed.

(** C6.  An array whose element type is a dict entry is read as a dict:
    the entries are read in their order on the wire and each pair is
    inserted with [PyDict_SetItem], so the dict holds for every key the
    value of the last entry with that key. *)
Theorem message_read_arg_dict_last_wins (signature : list ascii)
    (entries : list wire) (kvs : list (pyobj * pyobj)) :
  first_type_in_signature signature = DBUS_TYPE_DICT_ENTRY ->
  Forall2 (fun w kv => message_read_arg w = Ok (PyTuple [fst kv; snd kv])) entries kvs ->
  Forall (fun kv => py_hashable (fst kv) = true) kvs ->
  message_read_arg (WContainer DBUS_TYPE_ARRAY signature entries)
    = Ok (PyDict (dict_of kvs))
  /\ (forall k, dict_get (dict_of kvs) k = last_value kvs k)
  /\ (forall before k1 v1 between k2 v2 after,
         kvs = before ++ (k1, v1) :: between ++ (k2, v2) :: after ->
         py_eqb k1 k2 = true ->
         Forall (fun kv => py_eqb (fst kv) k2 = false) after ->
         dict_get (dict_of kvs) k1 = Some v2).
Proof.
  intros Hsig Hread Hhash.
  assert (forall k, dict_get (dict_of kvs) k = last_value kvs k) as Hget.
  { intros k. unfold dict_of. rewrite dict_get_fold.
    destruct (last_value kvs k); reflexivity. }
  split; [|split; [exact Hget|]].
  - cbn [message_read_arg]. rewrite Hsig. simpl.
    apply read_items_loop_dict; assumption.
  - intros before k1 v1 between k2 v2 after -> Heq Hafter.
    rewrite Hget.
    assert (forall l k, last_value (l ++ (k2, v2) :: after) k
                        = match last_value ((k2, v2) :: after) k with
                          | Some v => Some v
                          | None => last_value l k
                          end) as Happ.
    { induction l as [|[k' v'] l IHl]; intros k.
      - simpl. destruct (last_value after k); [reflexivity|].
        destruct (py_eqb k2 k); reflexivity.
      - cbn [app last_value]. fold (last_value (l ++ (k2, v2) :: after) k).
        rewrite IHl. cbn [last_value].
        destruct (last_value after k); [reflexivity|].
        destruct (py_eqb k2 k); reflexivity. }
    change (before ++ (k1, v1) :: between ++ (k2, v2) :: after)
      with (before ++ ((k1, v1) :: between) ++ (k2, v2) :: after).
    rewrite app_assoc, Happ. cbn [last_value].
    assert (last_value after k1 = None) as ->.
    { clear -Hafter Heq. induction Hafter as [|[k' v'] after Hk _ IH]; [reflexivity|].
      cbn [last_value]. rewrite IH. simpl in Hk.
      destruct (py_eqb k' k1) eqn:E; [|reflexivity].
      rewrite (py_eqb_trans k' k1 k2 E Heq) in Hk. discriminate. }
    rewrite (py_eqb_sym _ _ Heq). reflexivity.
Qed.

Lemma message_read_arg_dict_last_wins_witness :
  message_read_arg
    (WContainer "a" (bytes "{is}")
       [WContainer "e" [] [WBasic "i" (VInt 1); WBasic "s" (VStr (bytes "a"))];
        WContainer "e" [] [WBasic "i" (VInt 2); WBasic "s" (VStr (bytes "c"))];
        WContainer "e" [] [WBasic "i" (VInt 1); WBasic "s" (VStr (bytes "b"))]])
    = Ok (PyDict [(PyLong 1, PyUnicode "b"); (PyLong 2, PyUnicode "c")])
  /\ dict_get (dict_of [(PyLong 1, PyUnicode "a"); (PyLong 2, PyUnicode "c");
                        (PyLong 1, PyUnicode "b")]) (PyLong 1)
     = Some (PyUnicode "b").
Proof.
  destruct (message_read_arg_dict_last_wins (bytes "{is}")
              [WContainer "e" [] [WBasic "i" (VInt 1); WBasic "s" (VStr (bytes "a"))];
               WContainer "e" [] [WBasic "i" (VInt 2); WBasic "s" (VStr (bytes "c"))];
               WContainer "e" [] [WBasic "i" (VInt 1); WBasic "s" (VStr (bytes "b"))]]
              [(PyLong 1, PyUnicode "a"); (PyLong 2, PyUnicode "c");
               (PyLong 1, PyUnicode "b")])
    as (H1 & _ & H3).
  - reflexivity.
  - repeat constructor.
  - repeat constructor.
  - split; [exact H1|].
    apply (H3 [] (PyLong 1) (PyUnicode "a") [(PyLong 2, PyUnicode "c")]
              (PyLong 1) (PyUnicode "b") []); [reflexivity | reflexivity | constructor].
Defined.

End DictProofs.

(** ** Argument codec *)

Module CodecProofs.
Import Py Num NumSpec DBus Sig SigSpec SigMem SigTree SigApi Names Codec CodecSpec
       NumProofs DictProofs.

Lemma show_head (t : dtype) :
  exists c rest, show t = c :: rest /\ c <> NUL
                 /\ c <> DBUS_STRUCT_END_CHAR /\ c <> DBUS_DICT_ENTRY_END_CHAR.
Proof.
  destruct t as [b|t|l|l]; simpl; eexists; eexists;
    (split; [reflexivity|]); try (repeat split; discriminate).
  destruct b; repeat split; discriminate.
Qed.

Lemma contents_sig_cons (t : dtype) (ts : list dtype) (closer : list ascii) :
  contents_sig (t :: ts) closer = show t ++ show_list ts ++ closer.
Proof. unfold contents_sig. now rewrite show_list_cons, <- app_assoc. Qed.

Lemma contents_sig_next (ts : list dtype) (closer : list ascii) :
  closer = [] \/ closer = [DBUS_STRUCT_END_CHAR] \/ closer = [DBUS_DICT_ENTRY_END_CHAR] ->
  (if Ascii.eqb (nth 0 (show_list ts ++ closer) NUL) DBUS_STRUCT_END_CHAR
      || Ascii.eqb (nth 0 (show_list ts ++ closer) NUL) DBUS_DICT_ENTRY_END_CHAR
   then drop 1 (show_list ts ++ closer) else show_list ts ++ closer)
  = contents_sig ts closer.
Proof.
  intros Hc. destruct ts as [|t ts].
  - simpl. destruct Hc as [->|[->| ->]]; reflexivity.
  - rewrite show_list_cons. unfold contents_sig. rewrite show_list_cons.
    destruct (show_head t) as (c & rest & -> & _ & H1 & H2).
    cbn [app nth].
    apply Ascii.eqb_neq in H1, H2. rewrite H1, H2. reflexivity.
Qed.

(** The loop of [message_append_args] pairs the types of the signature
    with the values of the sequence. *)
Lemma message_append_args_loop_each
    (f : DBusMessageIter -> list ascii -> pyobj -> result DBusMessageIter)
    (args : pyobj) (closer : list ascii) :
  closer = [] \/ closer = [DBUS_STRUCT_END_CHAR] \/ closer = [DBUS_DICT_ENTRY_END_CHAR] ->
  forall (ts : list dtype) (n : nat) (iter : DBusMessageIter) (pre vs : list pyobj),
    (List.length ts < n)%nat ->
    sequence_items args = pre ++ vs ->
    message_append_args_loop f n iter (contents_sig ts closer) args (List.length pre)
    = append_each f iter ts vs.
Proof.
  intros Hc ts. induction ts as [|t ts IH]; intros n iter pre vs Hn Hargs.
  - destruct n as [|n]; [simpl in Hn; lia|].
    cbn [contents_sig message_append_args_loop nth].
    change (Ascii.eqb NUL NUL) with true. cbv iota.
    unfold PySequence_Size. rewrite Hargs, length_app.
    destruct vs as [|v vs]; simpl List.length.
    + replace (Z.of_nat (List.length pre) =? Z.of_nat (List.length pre + 0)) with true
        by (symmetry; apply Z.eqb_eq; lia).
      reflexivity.
    + replace (Z.of_nat (List.length pre) =? Z.of_nat (List.length pre + S (List.length vs)))
        with false by (symmetry; apply Z.eqb_neq; lia).
      reflexivity.
  - destruct n as [|n]; [simpl in Hn; lia|].
    rewrite contents_sig_cons. cbn [message_append_args_loop].
    destruct (show_head t) as (c & rest & Hshow & Hnul & _).
    assert (nth 0 (show t ++ show_list ts ++ closer) NUL = c) as -> by now rewrite Hshow.
    rewrite eqb_NUL_false by assumption.
    rewrite get_one_full_type_show. cbn [bind].
    unfold PySequence_Size, PySequence_GetItem. rewrite Hargs, length_app.
    destruct vs as [|v vs]; simpl List.length.
    + replace (Z.of_nat (List.length pre) =? Z.of_nat (List.length pre + 0)) with true
        by (symmetry; apply Z.eqb_eq; lia).
      reflexivity.
    + replace (Z.of_nat (List.length pre) =? Z.of_nat (List.length pre + S (List.length vs)))
        with false by (symmetry; apply Z.eqb_neq; lia).
      rewrite app_nth2 by lia. rewrite Nat.sub_diag. cbn [nth].
      rewrite take_app_length, drop_app_length.
      cbn [append_each].
      destruct (f iter (show t) v) as [iter'|e]; [|reflexivity]. cbn [bind].
      rewrite (contents_sig_next ts closer Hc).
      replace (S (List.length pre)) with (List.length (pre ++ [v]))
        by (rewrite length_app; simpl; lia).
      apply IH; [simpl in Hn; lia|].
      rewrite <- app_assoc. exact Hargs.
Qed.

Lemma message_append_args_each (fuel : nat) (iter : DBusMessageIter)
    (ts : list dtype) (args : pyobj) :
  message_append_args fuel iter (show_list ts) args
  = append_each (message_append_arg fuel) iter ts (sequence_items args).
Proof.
  unfold message_append_args, message_append_args_with.
  replace (show_list ts) with (contents_sig ts []) at 2
    by (destruct ts; [reflexivity | apply app_nil_r]).
  apply (message_append_args_loop_each _ args [] (or_introl eq_refl) ts _ iter []).
  - pose proof (show_list_length ts). lia.
  - reflexivity.
Qed.

(** Encoding succeeds only with as many values as types; with too few or
    too many values, once the values that have a type are encoded, the
    arity error is raised. *)
Lemma append_each_length
    (f : DBusMessageIter -> list ascii -> pyobj -> result DBusMessageIter)
    (ts : list dtype) :
  forall (vs : list pyobj) (iter iter' : DBusMessageIter),
    append_each f iter ts vs = Ok iter' -> List.length vs = List.length ts.
Proof.
  induction ts as [|t ts IH]; intros [|v vs] iter iter' H; simpl in H;
    try discriminate; [reflexivity|].
  destruct (f iter (show t) v) as [iter1|]; [|discriminate].
  simpl in H. apply IH in H. simpl. now rewrite H.
Qed.

Lemma append_each_arity
    (f : DBusMessageIter -> list ascii -> pyobj -> result DBusMessageIter)
    (ts : list dtype) :
  forall (vs : list pyobj) (iter : DBusMessageIter),
    (forall i t v iter0, ts !! i = Some t -> vs !! i = Some v ->
                         exists iter1, f iter0 (show t) v = Ok iter1) ->
    List.length vs <> List.length ts ->
    append_each f iter ts vs
    = Raise (if (List.length vs <? List.length ts)%nat then too_few else too_many).
Proof.
  induction ts as [|t ts IH]; intros [|v vs] iter Hf Hlen; simpl in Hlen;
    try (contradiction Hlen; reflexivity); try reflexivity.
  cbn [append_each].
  destruct (Hf 0%nat t v iter eq_refl eq_refl) as [iter1 ->]. cbn [bind].
  rewrite IH; [reflexivity | | lia].
  intros i t' v' iter0 Ht Hv. exact (Hf (S i) t' v' iter0 Ht Hv).
Qed.

Lemma check_signature_text_true (ts : list dtype) :
  check_signature (text ts) = Ok true -> _check_signature (show_list ts) 0 0 = true.
Proof. rewrite check_signature_text. now intros [= ->]. Qed.

Lemma message_set_args_each (message : list wire) (ts : list dtype) (args : pyobj) :
  check_signature (text ts) = Ok true ->
  PySequence_Check args = true ->
  message_set_args message (text ts) args
  = (do iter <- append_each
                  (message_append_arg (recursion_bound (show_list ts) args))
                  (dbus_message_iter_init_append message) ts (sequence_items args);
     Ok (items iter)).
Proof.
  intros Hsig Hseq. unfold message_set_args.
  rewrite PyArg_Parse_s_text. cbn [bind]. rewrite Hseq. cbn [negb].
  rewrite (check_signature_text_true ts Hsig). cbn [negb].
  rewrite message_append_args_each. reflexivity.
Qed.

(** Without the arity check first: a value that is refused is reported
    before a missing value is, and an arity error can come from a struct
    although the message has as many values as types. *)
Lemma arity_error_not_exact :
  split_signature "yy" = Ok ["y"; "y"]%string
  /\ message_set_args [] "yy" (PyTuple [PyLong 300]) = Raise range_error
  /\ range_error <> too_few /\ range_error <> too_many
  /\ split_signature "(ii)" = Ok ["(ii)"]%string
  /\ message_set_args [] "(ii)" (PyTuple [PyTuple [PyLong 1]]) = Raise too_few.
Proof. repeat split; try reflexivity; discriminate. Qed.

(** C4, amended.  [set_args] with an accepted signature encodes the value
    at each position against the full type at that position, in order.
    It succeeds only when there are as many values as top-level full
    types.  With fewer or more values, once the values that have a type
    are encoded, it fails with the arity error; [(1,)] and [(1, 2, 3)]
    against ["ii"] fail so.  The values are the items of the sequence
    given: a [str] counts one value for each of its characters, as the
    one character U+00E9 (the bytes 195 and 169) against ["s"] and
    against ["ss"]. *)
Theorem message_set_args_arity (message : list wire) (ts : list dtype) (args : pyobj) :
  check_signature (text ts) = Ok true ->
  PySequence_Check args = true ->
  message_set_args message (text ts) args
    = (do iter <- append_each
                    (message_append_arg (recursion_bound (show_list ts) args))
                    (dbus_message_iter_init_append message) ts (sequence_items args);
       Ok (items iter))
  /\ (forall body,
        message_set_args message (text ts) args = Ok body ->
        List.length (sequence_items args) = List.length ts)
  /\ ((forall i t v iter,
          ts !! i = Some t -> sequence_items args !! i = Some v ->
          exists iter',
            message_append_arg (recursion_bound (show_list ts) args) iter (show t) v
            = Ok iter') ->
      List.length (sequence_items args) <> List.length ts ->
      message_set_args message (text ts) args
      = Raise (if (List.length (sequence_items args) <? List.length ts)%nat
               then too_few else too_many))
  /\ message_set_args [] "ii" (PyTuple [PyLong 1]) = Raise too_few
  /\ message_set_args [] "ii" (PyTuple [PyLong 1; PyLong 2; PyLong 3]) = Raise too_many
  /\ message_set_args [] "ii" (PyTuple [PyLong 1; PyLong 2])
     = Ok [WBasic "i" (VInt 1); WBasic "i" (VInt 2)]
  /\ message_set_args [] "s" (PyUnicode (String "195" (String "169" EmptyString)))
     = Ok [WBasic "s" (VStr ["195"%char; "169"%char])]
  /\ message_set_args [] "ss" (PyUnicode (String "195" (String "169" EmptyString)))
     = Raise too_few.
Proof.
  intros Hsig Hseq.
  pose proof (message_set_args_each message ts args Hsig Hseq) as Heach.
  split; [exact Heach|]. split; [|split; [|repeat split; reflexivity]].
  - intros body H. rewrite Heach in H.
    destruct (append_each _ _ ts (sequence_items args)) as [iter'|] eqn:E;
      [|discriminate].
    eapply append_each_length. exact E.
  - intros Hf Hlen. rewrite Heach.
    rewrite (append_each_arity _ ts (sequence_items args) _ Hf Hlen). reflexivity.
Qed.

Lemma message_set_args_arity_witness :
  message_set_args [] "ii" (PyTuple [PyLong 1]) = Raise too_few.
Proof.
  destruct (message_set_args_arity [] [TBasic Int32; TBasic Int32] (PyTuple [PyLong 1]))
    as (_ & _ & H & _); [reflexivity | reflexivity |].
  apply H.
  - intros i t v iter Ht Hv.
    destruct i as [|[|i]]; simpl in Ht, Hv; try discriminate.
    injection Ht as <-. injection Hv as <-. eexists. reflexivity.
  - simpl. lia.
Defined.

(** *** The cases of [message_append_arg] *)

Lemma append_arg_boolean (fuel : nat) (iter : DBusMessageIter) (arg : pyobj) :
  message_append_arg (S fuel) iter ["b"%char] arg
  = Ok (push iter (WBasic "b" (VInt (wrap_unsigned 32 (PyObject_IsTrue arg))))).
Proof. reflexivity. Qed.

Lemma append_arg_double (fuel : nat) (iter : DBusMessageIter) (arg : pyobj) :
  message_append_arg (S fuel) iter ["d"%char] arg
  = (do dbl <- PyFloat_AsDouble arg; Ok (push iter (WBasic "d" (VDbl dbl)))).
Proof. reflexivity. Qed.

Lemma append_arg_string (fuel : nat) (iter : DBusMessageIter) (s : string) :
  message_append_arg (S fuel) iter ["s"%char] (PyUnicode s)
  = Ok (push iter (WBasic "s" (VStr (cstr (bytes s))))).
Proof. reflexivity. Qed.

Lemma append_arg_object_path (fuel : nat) (iter : DBusMessageIter) (s : string) :
  message_append_arg (S fuel) iter ["o"%char] (PyUnicode s)
  = if negb (_check_path (cstr (bytes s)))
    then Raise (ValueError "invalid object path argument")
    else Ok (push iter (WBasic "o" (VStr (cstr (bytes s))))).
Proof. reflexivity. Qed.

Lemma append_arg_signature (fuel : nat) (iter : DBusMessageIter) (s : string) :
  message_append_arg (S fuel) iter ["g"%char] (PyUnicode s)
  = if negb (_check_signature (cstr (bytes s)) 0 0)
    then Raise (ValueError "invalid signature")
    else Ok (push iter (WBasic "g" (VStr (cstr (bytes s))))).
Proof. reflexivity. Qed.

Lemma append_arg_struct (fuel : nat) (iter : DBusMessageIter)
    (rest : list ascii) (arg : pyobj) :
  message_append_arg (S fuel) iter ("("%char :: rest) arg
  = if negb (PySequence_Check arg)
    then Raise (TypeError "expecting sequence argument for struct format")
    else
      do subiter <- message_append_args_with (message_append_arg fuel)
                      (dbus_message_iter_open_container DBUS_TYPE_STRUCT []) rest arg;
      Ok (push iter (WContainer (container_type subiter)
                       (contained_signature subiter) (items subiter))).
Proof. reflexivity. Qed.

Lemma append_arg_dict_entry (fuel : nat) (iter : DBusMessageIter)
    (rest : list ascii) (arg : pyobj) :
  message_append_arg (S fuel) iter ("{"%char :: rest) arg
  = if negb (PySequence_Check arg)
    then Raise (TypeError "expecting sequence argument for dict_entry format")
    else
      do subiter <- message_append_args_with (message_append_arg fuel)
                      (dbus_message_iter_open_container DBUS_TYPE_DICT_ENTRY []) rest arg;
      Ok (push iter (WContainer (container_type subiter)
                       (contained_signature subiter) (items subiter))).
Proof. reflexivity. Qed.

Lemma append_arg_array (fuel : nat) (iter : DBusMessageIter)
    (rest : list ascii) (arg : pyobj) :
  message_append_arg (S fuel) iter ("a"%char :: rest) arg
  = do subiter <-
      (if Ascii.eqb (nth 0 rest NUL) DBUS_TYPE_BYTE then
         if negb (PyBytes_Check arg) then
           Raise (TypeError "expecting bytes argument for array of byte")
         else
           Ok (dbus_message_iter_append_fixed_array
                 (dbus_message_iter_open_container DBUS_TYPE_ARRAY rest)
                 (nth 0 rest NUL) (PyBytes_AS_STRING arg))
       else
         do Parray <-
           (if Ascii.eqb (nth 0 rest NUL) DBUS_DICT_ENTRY_BEGIN_CHAR then
              if negb (PyDict_Check arg) then
                Raise (TypeError "expecting dict argument for dict format")
              else Ok (PyDict_Items arg)
            else
              if negb (PySequence_Check arg) then
                Raise (TypeError "expecting sequence argument for array format")
              else Ok arg);
         append_items (message_append_arg fuel)
           (dbus_message_iter_open_container DBUS_TYPE_ARRAY rest) rest
           (sequence_items Parray));
    Ok (push iter (WContainer (container_type subiter)
                     (contained_signature subiter) (items subiter))).
Proof. reflexivity. Qed.

Lemma append_arg_variant (fuel : nat) (iter : DBusMessageIter)
    (s : string) (v : pyobj) :
  message_append_arg (S fuel) iter ["v"%char] (PyTuple [PyUnicode s; v])
  = let subtype := cstr (bytes s) in
    if negb (_check_signature subtype 0 0) then
      Raise (ValueError "invalid signature for variant")
    else
      match get_one_full_type subtype with
      | Raise _ =>
          Raise (ValueError "variant signature must be exactly one full type")
      | Ok end_ =>
          if negb (Ascii.eqb (nth end_ subtype NUL) NUL) then
            Raise (ValueError "variant signature must be exactly one full type")
          else
            do subiter <- message_append_arg fuel
                            (dbus_message_iter_open_container "v" subtype) subtype v;
            Ok (push iter (WContainer (container_type subiter)
                             (contained_signature subiter) (items subiter)))
      end.
Proof. reflexivity. Qed.

(** *** Reading back *)

Lemma message_read_arg_int (b : basic) (lo hi n : Z) :
  int_range (basic_code b) = Some (lo, hi) ->
  message_read_arg (WBasic (basic_code b) (VInt n)) = Ok (PyLong n).
Proof. destruct b; simpl; try discriminate; reflexivity. Qed.

Lemma string_of_bytes (s : string) : string_of_list_ascii (bytes s) = s.
Proof. apply string_of_list_ascii_of_string. Qed.

Lemma PyUnicode_FromString_bytes (s : string) :
  nul_free (bytes s) -> utf8_valid (bytes s) = true ->
  PyUnicode_FromString (bytes s) = Ok (PyUnicode s).
Proof.
  intros Hnf Hu. unfold PyUnicode_FromString, PyUnicode_FromStringAndSize.
  rewrite cstr_nul_free by assumption. rewrite Hu. cbn [bind].
  now rewrite string_of_bytes.
Qed.

Lemma message_read_arg_text (b : basic) (s : string) :
  text_kind b = true -> nul_free (bytes s) -> utf8_valid (bytes s) = true ->
  message_read_arg (WBasic (basic_code b) (VStr (bytes s))) = Ok (PyUnicode s).
Proof.
  intros Hk Hnf Hu.
  destruct b; try discriminate; cbn; now apply PyUnicode_FromString_bytes.
Qed.

Lemma fixed_array_bytes (data : list ascii) :
  dbus_message_iter_get_fixed_array (map (fun b => WBasic "y" (VInt (code b))) data)
  = data.
Proof.
  unfold dbus_message_iter_get_fixed_array. rewrite map_map.
  rewrite <- (map_id data) at 2. apply map_ext. intros c. cbn [as_int].
  unfold code. rewrite N2Z.id. apply ascii_N_embedding.
Qed.

(** Inserting the items of a dict in their order gives the dict. *)
Lemma dict_set_fresh (d : list (pyobj * pyobj)) (k v : pyobj) :
  Forall (fun kv => py_eqb (fst kv) k = false) d -> dict_set d k v = d ++ [(k, v)].
Proof.
  induction 1 as [|[k0 v0] d Hk _ IH]; [reflexivity|].
  simpl in *. rewrite Hk. now rewrite IH.
Qed.

Lemma dict_wf_fold (d : list (pyobj * pyobj)) :
  dict_wf d ->
  forall d0,
    Forall (fun kv0 => Forall (fun kv => py_eqb (fst kv0) (fst kv) = false) d) d0 ->
    fold_left (fun d kv => dict_set d (fst kv) (snd kv)) d d0 = d0 ++ d.
Proof.
  induction d as [|[k v] d IH]; intros Hwf d0 Hd0.
  - simpl. now rewrite app_nil_r.
  - destruct Hwf as (Hh & Hk & Hwf). cbn [fold_left fst snd].
    rewrite dict_set_fresh.
    + rewrite IH; [now rewrite <- app_assoc | assumption |].
      apply Forall_app. split.
      * eapply Forall_impl; [exact Hd0|]. intros kv0 H. now inversion H.
      * constructor; [exact Hk | constructor].
    + eapply Forall_impl; [exact Hd0|]. intros kv0 H. now inversion H.
Qed.

(** *** Round trip *)

Import RoundTrip.

Lemma push_all_nil (iter : DBusMessageIter) : push_all iter [] = iter.
Proof. destruct iter. unfold push_all. simpl. now rewrite app_nil_r. Qed.

Lemma push_push_all (iter : DBusMessageIter) (w : wire) (ws : list wire) :
  push_all (push iter w) ws = push_all iter (w :: ws).
Proof. unfold push_all, push. simpl. now rewrite <- app_assoc. Qed.

Lemma py_size_items (vs : list pyobj) (fuel : nat) :
  ((fix sizes (l : list pyobj) : nat :=
      match l with
      | [] => O
      | x :: l' => (py_size x + sizes l')%nat
      end) vs <= fuel)%nat ->
  Forall (fun v => (py_size v <= fuel)%nat) vs.
Proof.
  revert fuel. induction vs as [|v vs IH]; intros fuel H; constructor.
  - lia.
  - apply IH. lia.
Qed.

Lemma py_size_entries (d : list (pyobj * pyobj)) (fuel : nat) :
  ((fix sizes (d : list (pyobj * pyobj)) : nat :=
      match d with
      | [] => O
      | (k, v) :: d' => (S (py_size k + py_size v) + sizes d')%nat
      end) d <= fuel)%nat ->
  Forall (fun kv => (S (py_size (fst kv) + py_size (snd kv)) <= fuel)%nat) d.
Proof.
  revert fuel. induction d as [|[k v] d IH]; intros fuel H; constructor.
  - simpl. lia.
  - apply IH. lia.
Qed.

Lemma dict_wf_hashable (d : list (pyobj * pyobj)) :
  dict_wf d -> Forall (fun kv => py_hashable (fst kv) = true) d.
Proof.
  induction d as [|[k v] d IH]; intros H; constructor.
  - apply H.
  - apply IH, H.
Qed.

Lemma cstr_show (t : dtype) : cstr (show t) = show t.
Proof.
  apply cstr_nul_free. pose proof (show_list_nul_free [t]) as H.
  unfold show_list in H. simpl in H. now rewrite app_nil_r in H.
Qed.

Lemma bytes_text_one (t : dtype) : bytes (text [t]) = show t.
Proof. rewrite bytes_text. unfold show_list. simpl. apply app_nil_r. Qed.

Lemma contents_sig_length (ts : list dtype) (closer : list ascii) :
  (List.length ts < S (List.length (contents_sig ts closer)))%nat.
Proof.
  destruct ts as [|t ts]; [simpl; lia|].
  unfold contents_sig. rewrite length_app.
  pose proof (show_list_length (t :: ts)). lia.
Qed.


Lemma show_head_byte (t : dtype) :
  nth 0 (show t) NUL = DBUS_TYPE_BYTE -> t = TBasic Byte.
Proof.
  destruct t as [b|t|l|l]; simpl; try discriminate.
  destruct b; try discriminate. reflexivity.
Qed.

Lemma show_head_dict_entry (t : dtype) :
  nth 0 (show t) NUL = DBUS_DICT_ENTRY_BEGIN_CHAR -> exists l, t = TDictEntry l.
Proof.
  destruct t as [b|t|l|l]; simpl; try discriminate.
  - destruct b; discriminate.
  - intros _. now exists l.
Qed.

Lemma first_type_show (t : dtype) :
  t <> TBasic Byte -> (forall l, t <> TDictEntry l) ->
  Ascii.eqb (first_type_in_signature (show t)) DBUS_TYPE_BYTE = false
  /\ Ascii.eqb (first_type_in_signature (show t)) DBUS_TYPE_DICT_ENTRY = false.
Proof.
  intros Hb Hd. destruct t as [b|t|l|l].
  - destruct b; try (split; reflexivity). contradiction Hb. reflexivity.
  - split; reflexivity.
  - split; reflexivity.
  - contradiction (Hd l). reflexivity.
Qed.





End CodecProofs.

(** ** Interface, member and error names *)

Module NameProofs.
Import Names Grammar NamesApi.

Lemma char_at_middle (pre : list ascii) (c : ascii) (r : list ascii) :
  char_at NUL (pre ++ c :: r) (Z.of_nat (List.length pre)) = c.
Proof.
  apply char_at_lookup. rewrite lookup_app_r by lia.
  replace (List.length pre - List.length pre)%nat with 0%nat by lia. reflexivity.
Qed.

Lemma char_at_middle_before (before : ascii) (pre : list ascii) (c : ascii)
    (r : list ascii) :
  char_at before (pre ++ c :: r) (Z.of_nat (List.length pre)) = c.
Proof.
  apply char_at_lookup. rewrite lookup_app_r by lia.
  replace (List.length pre - List.length pre)%nat with 0%nat by lia. reflexivity.
Qed.

Lemma last_cons_default (c p : ascii) (r : list ascii) :
  List.last (c :: r) p = List.last r c.
Proof.
  revert c p. induction r as [|x r IH]; intros c p; [reflexivity|].
  change (List.last (c :: x :: r) p) with (List.last (x :: r) p).
  rewrite !IH. reflexivity.
Qed.

Lemma last_app_cons (a : list ascii) (c p : ascii) (r : list ascii) :
  List.last (a ++ c :: r) p = List.last r c.
Proof.
  revert p. induction a as [|x a IH]; intros p; simpl app;
    [apply last_cons_default|].
  rewrite last_cons_default. apply IH.
Qed.

Lemma char_at_last (before : ascii) (c0 : ascii) (r : list ascii) :
  char_at before (c0 :: r) (Z.of_nat (List.length (c0 :: r)) - 1) = List.last r c0.
Proof.
  revert c0. induction r as [|c r IH]; intros c0; [reflexivity|].
  rewrite last_cons_default.
  rewrite <- (IH c).
  unfold char_at. simpl List.length.
  destruct (Z.ltb_spec (Z.of_nat (S (S (List.length r))) - 1) 0); [lia|].
  destruct (Z.ltb_spec (Z.of_nat (S (List.length r)) - 1) 0); [lia|].
  replace (Z.to_nat (Z.of_nat (S (S (List.length r))) - 1))
    with (S (Z.to_nat (Z.of_nat (S (List.length r)) - 1))) by lia.
  reflexivity.
Qed.

Lemma chain_app (next : ascii -> ascii -> bool) (a b : list ascii) :
  forall p, chain next p (a ++ b) = chain next p a && chain next (List.last a p) b.
Proof.
  induction a as [|x a IH]; intros p; [reflexivity|].
  simpl app. cbn [chain]. rewrite IH, last_cons_default, andb_assoc. reflexivity.
Qed.

Lemma chain_impl (next1 next2 : ascii -> ascii -> bool) (P : ascii -> Prop)
    (r : list ascii) :
  (forall p c, P p -> In c r -> next1 p c = true -> next2 p c = true /\ P c) ->
  forall p, P p -> chain next1 p r = true -> chain next2 p r = true.
Proof.
  induction r as [|c r IH]; intros Hstep p Hp; [reflexivity|].
  cbn [chain]. rewrite !andb_true_iff. intros [H1 H2].
  destruct (Hstep p c Hp (or_introl eq_refl) H1) as [H3 Hc].
  split; [assumption|]. apply IH; [|assumption|assumption].
  intros p' c' Hp' Hin. apply Hstep; [assumption | now right].
Qed.

Lemma dots_app (a b : list ascii) : dots (a ++ b) = dots a + dots b.
Proof. induction a as [|x a IH]; simpl; [reflexivity|]. rewrite IH. lia. Qed.

(** *** The loops *)

Lemma interface_loop_chain (r : list ascii) :
  forall (pre : list ascii) (p : ascii) (nd : Z) (fuel : nat),
    nul_free r -> (List.length r <= fuel)%nat ->
    interface_loop fuel (pre ++ p :: r) (Z.of_nat (S (List.length pre))) nd
    = if chain interface_next p r
      then Some (Z.of_nat (List.length (pre ++ p :: r)), nd + dots r)
      else None.
Proof.
  induction r as [|c r IH]; intros pre p nd fuel Hnf Hfuel.
  - assert (char_at NUL (pre ++ [p]) (Z.of_nat (S (List.length pre))) = NUL) as E.
    { apply char_at_end. rewrite length_app. simpl. lia. }
    cbn [chain dots]. rewrite Z.add_0_r.
    replace (List.length (pre ++ [p])) with (S (List.length pre))
      by (rewrite length_app; simpl; lia).
    destruct fuel; simpl; rewrite E; reflexivity.
  - apply nul_free_cons in Hnf as [Hc Hnf].
    destruct fuel as [|fuel]; [simpl in Hfuel; lia|].
    assert (pre ++ p :: c :: r = (pre ++ [p]) ++ c :: r) as Es
      by (rewrite <- app_assoc; reflexivity).
    assert (S (List.length pre) = List.length (pre ++ [p])) as El
      by (rewrite length_app; simpl; lia).
    assert (char_at NUL (pre ++ p :: c :: r) (Z.of_nat (S (List.length pre))) = c) as Ec.
    { rewrite Es, El. apply char_at_middle. }
    assert (char_at NUL (pre ++ p :: c :: r) (Z.of_nat (S (List.length pre)) - 1) = p) as Ep.
    { replace (Z.of_nat (S (List.length pre)) - 1) with (Z.of_nat (List.length pre)) by lia.
      apply char_at_middle. }
    assert (interface_char_ok (pre ++ p :: c :: r) (Z.of_nat (S (List.length pre)))
            = interface_next p c) as Eok.
    { unfold interface_char_ok. cbv zeta. rewrite Ec, Ep. reflexivity. }
    cbn [interface_loop]. rewrite Ec, Eok, (eqb_NUL_false c Hc).
    cbn [chain]. destruct (interface_next p c); [|reflexivity]. cbn [negb andb].
    replace (Z.of_nat (S (List.length pre)) + 1)
      with (Z.of_nat (S (List.length (pre ++ [p])))) by lia.
    rewrite Es. rewrite IH by (assumption || (simpl in Hfuel; lia)).
    destruct (chain interface_next c r); [|reflexivity].
    f_equal. f_equal. cbn [dots]. destruct (Ascii.eqb c "."); lia.
Qed.

Lemma member_loop_forallb (r : list ascii) :
  forall (pre : list ascii) (fuel : nat),
    nul_free r -> (List.length r <= fuel)%nat ->
    member_loop fuel (pre ++ r) (Z.of_nat (List.length pre))
    = if forallb name_part r
      then Some (Z.of_nat (List.length (pre ++ r)))
      else None.
Proof.
  induction r as [|c r IH]; intros pre fuel Hnf Hfuel.
  - rewrite app_nil_r.
    assert (char_at NUL pre (Z.of_nat (List.length pre)) = NUL) as E
      by (apply char_at_end; lia).
    destruct fuel; simpl; rewrite E; reflexivity.
  - apply nul_free_cons in Hnf as [Hc Hnf].
    destruct fuel as [|fuel]; [simpl in Hfuel; lia|].
    cbn [member_loop]. unfold member_char_ok. cbv zeta.
    rewrite char_at_middle, (eqb_NUL_false c Hc).
    cbn [forallb]. fold (name_part c).
    destruct (name_part c); [|reflexivity]. cbn [negb andb].
    assert (pre ++ c :: r = (pre ++ [c]) ++ r) as Es
      by (rewrite <- app_assoc; reflexivity).
    replace (Z.of_nat (List.length pre) + 1)
      with (Z.of_nat (List.length (pre ++ [c])))
      by (rewrite length_app; simpl; lia).
    rewrite Es. apply IH; [assumption | simpl in Hfuel; lia].
Qed.

Lemma bus_name_loop_chain (before first : ascii) (r : list ascii) :
  forall (pre : list ascii) (p : ascii) (nd : Z) (fuel : nat),
    nul_free r -> (List.length r <= fuel)%nat ->
    char_at before (pre ++ p :: r) 0 = first ->
    bus_name_loop fuel before (pre ++ p :: r) (Z.of_nat (S (List.length pre))) nd
    = if chain (bus_name_next first) p r
      then Some (Z.of_nat (List.length (pre ++ p :: r)), nd + dots r)
      else None.
Proof.
  induction r as [|c r IH]; intros pre p nd fuel Hnf Hfuel Hfirst.
  - assert (char_at before (pre ++ [p]) (Z.of_nat (S (List.length pre))) = NUL) as E.
    { apply char_at_end. rewrite length_app. simpl. lia. }
    cbn [chain dots]. rewrite Z.add_0_r.
    replace (List.length (pre ++ [p])) with (S (List.length pre))
      by (rewrite length_app; simpl; lia).
    destruct fuel; simpl; rewrite E; reflexivity.
  - apply nul_free_cons in Hnf as [Hc Hnf].
    destruct fuel as [|fuel]; [simpl in Hfuel; lia|].
    assert (pre ++ p :: c :: r = (pre ++ [p]) ++ c :: r) as Es
      by (rewrite <- app_assoc; reflexivity).
    assert (S (List.length pre) = List.length (pre ++ [p])) as El
      by (rewrite length_app; simpl; lia).
    assert (char_at before (pre ++ p :: c :: r) (Z.of_nat (S (List.length pre))) = c) as Ec.
    { rewrite Es, El. apply char_at_middle_before. }
    assert (char_at before (pre ++ p :: c :: r) (Z.of_nat (S (List.length pre)) - 1) = p)
      as Ep.
    { replace (Z.of_nat (S (List.length pre)) - 1) with (Z.of_nat (List.length pre)) by lia.
      apply char_at_middle_before. }
    assert (bus_name_char_ok before (pre ++ p :: c :: r) (Z.of_nat (S (List.length pre)))
            = bus_name_next first p c) as Eok.
    { unfold bus_name_char_ok, bus_name_next. cbv zeta. rewrite Ec, Ep, Hfirst.
      destruct (Z.eqb_spec (Z.of_nat (S (List.length pre))) 0) as [|_]; [lia|].
      destruct (Z.ltb_spec 0 (Z.of_nat (S (List.length pre)))) as [_|]; [|lia].
      rewrite andb_false_r, orb_false_r, andb_true_r. reflexivity. }
    cbn [bus_name_loop]. rewrite Ec, Eok, (eqb_NUL_false c Hc).
    cbn [chain]. destruct (bus_name_next first p c); [|reflexivity]. cbn [negb andb].
    replace (Z.of_nat (S (List.length pre)) + 1)
      with (Z.of_nat (S (List.length (pre ++ [p])))) by lia.
    rewrite Es. rewrite IH; [| assumption | simpl in Hfuel; lia | rewrite <- Es; assumption].
    destruct (chain (bus_name_next first) c r); [|reflexivity].
    f_equal. f_equal. cbn [dots]. destruct (Ascii.eqb c "."); lia.
Qed.

(** *** The validators on a string given by its characters *)

Lemma _check_interface_nil : _check_interface [] = false.
Proof. reflexivity. Qed.

Lemma _check_interface_cons (c0 : ascii) (r : list ascii) :
  nul_free r ->
  _check_interface (c0 :: r)
  = name_start c0 && chain interface_next c0 r
    && negb (Ascii.eqb (List.last r c0) ".") && negb (dots r =? 0)
    && (Z.of_nat (S (List.length r)) <=? 255).
Proof.
  intros Hnf. unfold _check_interface.
  change (char_at NUL (c0 :: r) 0) with c0. fold (name_start c0).
  destruct (name_start c0); [|reflexivity]. cbn [negb andb].
  pose proof (interface_loop_chain r [] c0 0 (List.length (c0 :: r)) Hnf) as H.
  cbn [app] in H. change (Z.of_nat (S (@List.length ascii []))) with 1 in H.
  rewrite H by (simpl; lia).
  destruct (chain interface_next c0 r); [|reflexivity]. cbn [andb].
  rewrite (char_at_last NUL c0 r). rewrite Z.add_0_l. cbn [List.length].
  unfold DBUS_MAXIMUM_NAME_LENGTH.
  destruct (Ascii.eqb (List.last r c0) "."); [reflexivity|].
  destruct (dots r =? 0); [reflexivity|]. cbn [orb negb andb].
  rewrite Z.leb_antisym. destruct (255 <? Z.of_nat (S (List.length r))); reflexivity.
Qed.

Lemma _check_member_nil : _check_member [] = false.
Proof. reflexivity. Qed.

Lemma _check_member_cons (c0 : ascii) (r : list ascii) :
  nul_free r ->
  _check_member (c0 :: r)
  = name_start c0 && forallb name_part r
    && (Z.of_nat (S (List.length r)) <=? 255).
Proof.
  intros Hnf. unfold _check_member.
  change (char_at NUL (c0 :: r) 0) with c0. fold (name_start c0).
  destruct (name_start c0); [|reflexivity]. cbn [negb andb].
  pose proof (member_loop_forallb r [c0] (List.length (c0 :: r)) Hnf) as H.
  cbn [app] in H. change (Z.of_nat (@List.length ascii [c0])) with 1 in H.
  rewrite H by (simpl; lia). cbn [List.length].
  destruct (forallb name_part r); [|reflexivity]. cbn [andb].
  unfold DBUS_MAXIMUM_NAME_LENGTH.
  rewrite Z.leb_antisym. destruct (255 <? Z.of_nat (S (List.length r))); reflexivity.
Qed.

Lemma _check_bus_name_cons (before c0 : ascii) (r : list ascii) :
  nul_free (c0 :: r) ->
  _check_bus_name before (c0 :: r)
  = negb (Ascii.eqb c0 ".")
    && (isalpha c0 || Ascii.eqb c0 "_" || Ascii.eqb c0 "-" || Ascii.eqb c0 ":")
    && chain (bus_name_next c0) c0 r
    && negb (Ascii.eqb (List.last r c0) ".") && negb (dots r =? 0)
    && (Z.of_nat (S (List.length r)) <=? 255).
Proof.
  intros [Hc Hnf]%nul_free_cons. unfold _check_bus_name.
  change (char_at before (c0 :: r) 0) with c0.
  destruct (Ascii.eqb c0 ".") eqn:Edot; [reflexivity|]. cbn [negb andb].
  cbn [List.length bus_name_loop].
  change (char_at before (c0 :: r) 0) with c0.
  rewrite (eqb_NUL_false c0 Hc), Edot.
  assert (bus_name_char_ok before (c0 :: r) 0
          = isalpha c0 || Ascii.eqb c0 "_" || Ascii.eqb c0 "-" || Ascii.eqb c0 ":") as ->.
  { unfold bus_name_char_ok. cbv zeta.
    change (char_at before (c0 :: r) 0) with c0. rewrite Edot.
    change (0 =? 0) with true. change (0 <? 0) with false.
    cbn [andb]. rewrite !andb_false_r, andb_true_r, !orb_false_r. reflexivity. }
  destruct (isalpha c0 || Ascii.eqb c0 "_" || Ascii.eqb c0 "-" || Ascii.eqb c0 ":");
    [|reflexivity].
  cbn [negb andb].
  pose proof (bus_name_loop_chain before c0 r [] c0 0 (List.length r) Hnf) as H.
  cbn [app] in H. change (Z.of_nat (S (@List.length ascii []))) with 1 in H.
  change (0 + 1) with 1. rewrite H by (reflexivity || lia).
  destruct (chain (bus_name_next c0) c0 r); [|reflexivity]. cbn [andb].
  rewrite (char_at_last before c0 r). rewrite Z.add_0_l. cbn [List.length].
  unfold DBUS_MAXIMUM_NAME_LENGTH.
  destruct (Ascii.eqb (List.last r c0) "."); [reflexivity|].
  destruct (dots r =? 0); [reflexivity|]. cbn [orb negb andb].
  rewrite Z.leb_antisym. destruct (255 <? Z.of_nat (S (List.length r))); reflexivity.
Qed.

Lemma _check_bus_name_nil (before : ascii) : _check_bus_name before [] = false.
Proof.
  unfold _check_bus_name. change (char_at before [] 0) with NUL.
  change (Ascii.eqb NUL ".") with false.
  cbn [List.length bus_name_loop]. change (char_at before [] 0) with NUL.
  change (Ascii.eqb NUL NUL) with true. cbv iota beta.
  change (0 =? 0) with true. rewrite orb_true_r. reflexivity.
Qed.

(** *** Elements *)

Lemma name_start_not_dot (c : ascii) : name_start c = true -> c <> "."%char.
Proof. intros H ->. vm_compute in H. discriminate. Qed.

Lemma name_part_not_dot (c : ascii) : name_part c = true -> c <> "."%char.
Proof. intros H ->. vm_compute in H. discriminate. Qed.

Lemma name_start_part (c : ascii) : name_start c = true -> name_part c = true.
Proof.
  unfold name_start, name_part, isalnum.
  rewrite !orb_true_iff. intros [H|H]; [left; now left | now right].
Qed.

Lemma interface_next_cases (p c : ascii) :
  interface_next p c = true <->
    (c = "."%char /\ p <> "."%char)
    \/ (c <> "."%char /\ (name_start c = true
                          \/ (name_part c = true /\ p <> "."%char))).
Proof.
  unfold interface_next, name_start, name_part, isalnum.
  destruct (Ascii.eqb_spec c "."%char) as [->|Hc].
  - change (isalpha ".") with false. change (isdigit ".") with false.
    change (Ascii.eqb "." "_") with false. cbn [orb andb].
    rewrite orb_false_r, negb_true_iff, Ascii.eqb_neq. split.
    + intros H. left. now split.
    + intros [[_ H]|[H _]]; [assumption | congruence].
  - cbn [andb]. rewrite orb_false_r.
    rewrite !orb_true_iff, andb_true_iff, negb_true_iff, Ascii.eqb_neq.
    split.
    + intros [[H|H]|[H1 H2]]; right; (split; [assumption|]).
      * left. now left.
      * left. now right.
      * right. split; [left; now right | assumption].
    + intros [[H _]|[_ [[H|H]|[[[H|H]|H] H2]]]]; try congruence; auto.
Qed.

Lemma split_dots_elements (r : list ascii) :
  forall p,
    chain interface_next p r = true -> List.last r p <> "."%char ->
    exists e es,
      split_dots r = e :: es
      /\ (if Ascii.eqb p "." then element e
          else Forall (fun c => name_part c = true) e)
      /\ Forall element es.
Proof.
  induction r as [|c r IH]; intros p Hchain Hlast.
  - exists [], []. split; [reflexivity|]. split; [|constructor].
    simpl in Hlast. apply Ascii.eqb_neq in Hlast. rewrite Hlast. constructor.
  - cbn [chain] in Hchain. apply andb_true_iff in Hchain as [Hpc Hchain].
    rewrite last_cons_default in Hlast.
    destruct (IH c Hchain Hlast) as (e & es & Hsplit & He & Hes).
    apply interface_next_cases in Hpc.
    cbn [split_dots]. rewrite Hsplit.
    destruct Hpc as [[-> Hp]|[Hc Hpc]].
    + change (Ascii.eqb "." ".") with true. change (Ascii.eqb "." ".") with true in He.
      exists [], (e :: es). split; [reflexivity|].
      apply Ascii.eqb_neq in Hp. rewrite Hp.
      split; [constructor | constructor; assumption].
    + apply Ascii.eqb_neq in Hc. rewrite Hc in He |- *.
      exists (c :: e), es. split; [reflexivity|]. split; [|assumption].
      destruct (Ascii.eqb_spec p "."%char) as [->|Hp].
      * destruct Hpc as [Hs|[_ Hp]]; [|congruence]. split; assumption.
      * constructor; [|assumption].
        destruct Hpc as [Hs|[Hs _]]; [now apply name_start_part | assumption].
Qed.

Lemma split_dots_length (s : list ascii) :
  Z.of_nat (List.length (split_dots s)) = 1 + dots s.
Proof.
  induction s as [|c s IH]; [reflexivity|].
  pose proof (dots_nonneg s).
  cbn [split_dots dots].
  destruct (Ascii.eqb c "."); [simpl List.length; lia|].
  destruct (split_dots s) as [|e es]; simpl List.length in *; lia.
Qed.

Lemma join_split_dots (s : list ascii) : join_dots (split_dots s) = s.
Proof.
  induction s as [|c s IH]; [reflexivity|].
  pose proof (split_dots_length s) as Hlen. pose proof (dots_nonneg s) as Hd.
  cbn [split_dots].
  destruct (split_dots s) as [|e es]; [simpl in Hlen; lia|].
  destruct (Ascii.eqb_spec c "."%char) as [->|Hc].
  - cbn [join_dots app]. cbn [join_dots] in IH. rewrite IH. reflexivity.
  - cbn [join_dots] in IH |- *. destruct es; simpl; rewrite <- IH; reflexivity.
Qed.

Lemma chain_name_part (r : list ascii) :
  forall p, p <> "."%char -> Forall (fun c => name_part c = true) r ->
    chain interface_next p r = true
    /\ List.last r p <> "."%char /\ dots r = 0.
Proof.
  induction r as [|c r IH]; intros p Hp Hall.
  - split; [reflexivity|]. split; [assumption | reflexivity].
  - inversion Hall as [|? ? Hc Hr]; subst.
    pose proof (name_part_not_dot c Hc) as Hcd.
    destruct (IH c Hcd Hr) as (H1 & H2 & H3).
    cbn [chain dots]. rewrite last_cons_default.
    split; [|split; [assumption|]].
    + apply andb_true_iff. split; [|assumption].
      apply interface_next_cases. right. split; [assumption|]. right. now split.
    + apply Ascii.eqb_neq in Hcd. rewrite Hcd. lia.
Qed.

Lemma join_dots_elements (es : list (list ascii)) :
  Forall element es -> es <> [] ->
  exists c r,
    join_dots es = c :: r /\ name_start c = true
    /\ chain interface_next c r = true
    /\ List.last r c <> "."%char
    /\ dots r = Z.of_nat (List.length es) - 1.
Proof.
  induction es as [|e es IH]; intros Hall Hne; [congruence|].
  inversion Hall as [|? ? He Hes]; subst.
  destruct e as [|c r0]; [destruct He|]. destruct He as [Hc Hr0].
  pose proof (name_start_not_dot c Hc) as Hcd.
  destruct (chain_name_part r0 c Hcd Hr0) as (H1 & H2 & H3).
  destruct es as [|e' es'].
  - exists c, r0. cbn [join_dots]. repeat split; assumption.
  - destruct (IH Hes) as (c' & r' & Hj & Hc' & Hch & Hl & Hd); [discriminate|].
    exists c, (r0 ++ "."%char :: c' :: r').
    change (join_dots ((c :: r0) :: e' :: es'))
      with ((c :: r0) ++ "."%char :: join_dots (e' :: es')).
    rewrite Hj. split; [reflexivity|]. split; [assumption|].
    pose proof (name_start_not_dot c' Hc') as Hcd'.
    split; [|split].
    + rewrite chain_app, H1. cbn [andb chain]. rewrite Hch, andb_true_r.
      apply andb_true_iff. split; apply interface_next_cases.
      * left. now split.
      * right. split; [assumption|]. now left.
    + rewrite last_app_cons, last_cons_default. assumption.
    + rewrite dots_app, H3. cbn [dots].
      change (Ascii.eqb "." ".") with true.
      apply Ascii.eqb_neq in Hcd'. rewrite Hcd'. rewrite Hd.
      simpl List.length. lia.
Qed.

Lemma chain_interface_nul_free (r : list ascii) :
  forall p, chain interface_next p r = true -> nul_free r.
Proof.
  induction r as [|c r IH]; intros p H; [intros []|].
  cbn [chain] in H. apply andb_true_iff in H as [H1 H2].
  apply nul_free_cons. split; [|eapply IH; eassumption].
  intros ->. unfold interface_next in H1.
  change (isalpha NUL) with false in H1. change (isdigit NUL) with false in H1.
  change (Ascii.eqb NUL "_") with false in H1.
  change (Ascii.eqb NUL ".") with false in H1. discriminate.
Qed.

(** [_check_interface] accepts the interface names and nothing else. *)
Lemma _check_interface_grammar (s : list ascii) :
  nul_free s -> _check_interface s = true <-> interface s.
Proof.
  intros Hnf. destruct s as [|c0 r].
  - rewrite _check_interface_nil. split; [discriminate|].
    intros (es & Hlen & Hall & Hj & _).
    destruct (join_dots_elements es Hall) as (c & r & Hj' & _);
      [intros ->; simpl in Hlen; lia | congruence].
  - apply nul_free_cons in Hnf as [_ Hnf].
    rewrite (_check_interface_cons c0 r Hnf).
    rewrite !andb_true_iff, !negb_true_iff, Ascii.eqb_neq, Z.eqb_neq, Z.leb_le.
    split.
    + intros ((((Hc0 & Hchain) & Hlast) & Hdots) & Hlen).
      pose proof (name_start_not_dot c0 Hc0) as Hcd.
      destruct (split_dots_elements r c0 Hchain Hlast) as (e & es & Hsplit & He & Hes).
      apply Ascii.eqb_neq in Hcd. rewrite Hcd in He.
      exists ((c0 :: e) :: es).
      assert (split_dots (c0 :: r) = (c0 :: e) :: es) as Hs.
      { cbn [split_dots]. rewrite Hcd, Hsplit. reflexivity. }
      split; [|split; [|split]].
      * pose proof (split_dots_length r) as Hl. rewrite Hsplit in Hl.
        pose proof (dots_nonneg r). simpl List.length in *. lia.
      * constructor; [split; assumption | assumption].
      * rewrite <- Hs. symmetry. apply join_split_dots.
      * simpl List.length. lia.
    + intros (es & Hlen & Hall & Hj & Hl).
      destruct (join_dots_elements es Hall) as (c & r' & Hj' & Hc & Hch & Hla & Hd);
        [intros ->; simpl in Hlen; lia|].
      rewrite Hj' in Hj. injection Hj as -> ->.
      repeat split; try assumption; [lia | simpl List.length in Hl; lia].
Qed.

Lemma interface_nul_free (s : list ascii) : interface s -> nul_free s.
Proof.
  intros (es & Hlen & Hall & -> & _).
  destruct (join_dots_elements es Hall) as (c & r & -> & Hc & Hch & _);
    [intros ->; simpl in Hlen; lia|].
  apply nul_free_cons. split; [|eapply chain_interface_nul_free; eassumption].
  intros ->. vm_compute in Hc. discriminate.
Qed.

Lemma forallb_name_part (r : list ascii) :
  forallb name_part r = true <-> Forall (fun c => name_part c = true) r.
Proof.
  induction r as [|c r IH]; simpl.
  - split; [constructor | reflexivity].
  - rewrite andb_true_iff, IH. split.
    + intros [H1 H2]. now constructor.
    + intros H. inversion H; subst. now split.
Qed.

Lemma name_part_nul_free (r : list ascii) :
  Forall (fun c => name_part c = true) r -> nul_free r.
Proof.
  induction 1 as [|c r Hc _ IH]; [intros []|].
  apply nul_free_cons. split; [|assumption].
  intros ->. vm_compute in Hc. discriminate.
Qed.

Lemma element_nul_free (s : list ascii) : element s -> nul_free s.
Proof.
  destruct s as [|c r]; [intros []|]. intros [Hc Hr].
  apply nul_free_cons. split; [|now apply name_part_nul_free].
  intros ->. vm_compute in Hc. discriminate.
Qed.

(** [_check_member] accepts the member names and nothing else. *)
Lemma _check_member_grammar (s : list ascii) :
  nul_free s -> _check_member s = true <-> member s.
Proof.
  intros Hnf. destruct s as [|c0 r].
  - rewrite _check_member_nil. split; [discriminate | intros [[] _]].
  - apply nul_free_cons in Hnf as [_ Hnf].
    rewrite (_check_member_cons c0 r Hnf).
    rewrite !andb_true_iff, forallb_name_part, Z.leb_le.
    unfold member. cbn [element]. simpl List.length.
    split; [intros [[H1 H2] H3] | intros [[H1 H2] H3]];
      (split; [split; assumption | lia]).
Qed.

(** X1.  [check_interface] returns [True] exactly for the strings made of
    two or more elements joined by dots, an element being a letter or an
    underscore followed by letters, digits and underscores, and of 255
    characters at most.  [check_error_name] is the same test. *)
Theorem check_interface_grammar :
  (forall s : string,
      check_interface s = Ok true <-> Grammar.interface (bytes s))
  /\ (forall s : string, check_error_name s = check_interface s)
  /\ check_interface "com.example.Foo" = Ok true
  /\ check_interface "1Foo" = Ok false
  /\ check_interface "org" = Ok false
  /\ check_interface "org..DBus" = Ok false
  /\ check_interface "org.2d" = Ok false
  /\ check_interface "org.DBus." = Ok false
  /\ check_interface "" = Ok false.
Proof.
  split; [|repeat split; reflexivity].
  intros s. unfold check_interface.
  destruct (SigTree.PyArg_Parse_s_cases s) as [[E Hnf] | E]; rewrite E; cbn [bind].
  - rewrite <- (_check_interface_grammar _ Hnf).
    split; [now intros [= ->] | now intros ->].
  - split; [discriminate|]. intros H. exfalso.
    apply interface_nul_free in H.
    assert (PyArg_Parse_s s = Ok (bytes s)) as E'
      by (apply PyArg_Parse_s_Ok; now split).
    congruence.
Qed.

Lemma member_nul_free (s : list ascii) : member s -> nul_free s.
Proof. intros [H _]. now apply element_nul_free. Qed.

(** X2.  [check_member] returns [True] exactly for the strings that are one
    element (a letter or an underscore, then letters, digits and
    underscores) of 255 characters at most. *)
Theorem check_member_grammar :
  (forall s : string, check_member s = Ok true <-> Grammar.member (bytes s))
  /\ check_member "Method1" = Ok true
  /\ check_member "1Method" = Ok false
  /\ check_member "" = Ok false
  /\ check_member "a.b" = Ok false
  /\ check_member "a-b" = Ok false.
Proof.
  split; [|repeat split; reflexivity].
  intros s. unfold check_member.
  destruct (SigTree.PyArg_Parse_s_cases s) as [[E Hnf] | E]; rewrite E; cbn [bind].
  - rewrite <- (_check_member_grammar _ Hnf).
    split; [now intros [= ->] | now intros ->].
  - split; [discriminate|]. intros H. exfalso.
    apply member_nul_free in H.
    assert (PyArg_Parse_s s = Ok (bytes s)) as E'
      by (apply PyArg_Parse_s_Ok; now split).
    congruence.
Qed.

(** *** Interface names among bus names *)

Lemma interface_next_plain (p c : ascii) :
  interface_next p c = true -> c <> "-"%char /\ c <> ":"%char.
Proof.
  intros H. split; intros ->; unfold interface_next in H; simpl in H; discriminate.
Qed.

Lemma chain_interface_plain (r : list ascii) :
  forall p, chain interface_next p r = true ->
    forall c, In c r -> c <> "-"%char /\ c <> ":"%char.
Proof.
  induction r as [|x r IH]; intros p H c Hin; [destruct Hin|].
  cbn [chain] in H. apply andb_true_iff in H as [H1 H2].
  destruct Hin as [<-|Hin]; [eapply interface_next_plain; eassumption|].
  eapply IH; eassumption.
Qed.

Lemma interface_next_bus_name (first p c : ascii) :
  p <> ":"%char -> interface_next p c = true -> bus_name_next first p c = true.
Proof.
  intros Hp. unfold interface_next, bus_name_next.
  apply Ascii.eqb_neq in Hp. rewrite Hp. cbn [negb]. rewrite andb_true_r.
  destruct (isalpha c), (Ascii.eqb c "_"), (Ascii.eqb c "-"), (Ascii.eqb c "."),
    (isdigit c), (Ascii.eqb p "."), (Ascii.eqb first ":"); simpl; congruence.
Qed.

Lemma bus_name_next_interface (first p c : ascii) :
  first <> ":"%char -> c <> "-"%char ->
  bus_name_next first p c = true -> interface_next p c = true.
Proof.
  intros Hf Hc. unfold interface_next, bus_name_next.
  apply Ascii.eqb_neq in Hf, Hc. rewrite Hf, Hc.
  destruct (isalpha c), (Ascii.eqb c "_"), (Ascii.eqb c "."),
    (isdigit c), (Ascii.eqb p "."), (Ascii.eqb p ":"); simpl; congruence.
Qed.

Lemma _check_interface_bus_name (before : ascii) (s : list ascii) :
  nul_free s ->
  _check_interface s = true <->
    _check_bus_name before s = true
    /\ ~ In "-"%char s /\ ~ In ":"%char s.
Proof.
  intros Hnf. destruct s as [|c0 r].
  - rewrite _check_interface_nil, _check_bus_name_nil.
    split; [discriminate | now intros [? _]].
  - rewrite (_check_bus_name_cons before c0 r Hnf).
    apply nul_free_cons in Hnf as [Hc0 Hnf].
    rewrite (_check_interface_cons c0 r Hnf).
    rewrite !andb_true_iff, !negb_true_iff, !Ascii.eqb_neq, Z.eqb_neq, Z.leb_le.
    split.
    + intros ((((Hs & Hchain) & Hlast) & Hdots) & Hlen).
      pose proof (chain_interface_plain r c0 Hchain) as Hplain.
      assert (c0 <> "-"%char /\ c0 <> ":"%char) as [Hm Hco].
      { split; intros ->; vm_compute in Hs; discriminate. }
      split; [|split].
      * repeat split; try assumption.
        -- now apply name_start_not_dot.
        -- unfold name_start in Hs. apply orb_true_iff in Hs as [H|H];
             rewrite H; rewrite ?orb_true_r; reflexivity.
        -- apply (chain_impl interface_next (bus_name_next c0)
                    (fun p => p <> ":"%char)); [|assumption|assumption].
           intros p c Hp Hin Hn. split.
           ++ now apply interface_next_bus_name.
           ++ apply (Hplain c Hin).
      * intros [H|H]; [congruence | now apply (proj1 (Hplain _ H))].
      * intros [H|H]; [congruence | now apply (proj2 (Hplain _ H))].
    + intros ((((((Hd & Hs) & Hchain) & Hlast) & Hdots) & Hlen) & Hm & Hco).
      assert (c0 <> "-"%char) as Hm0 by (intros ->; apply Hm; now left).
      assert (c0 <> ":"%char) as Hco0 by (intros ->; apply Hco; now left).
      repeat split; try assumption.
      * unfold name_start. apply Ascii.eqb_neq in Hm0, Hco0.
        rewrite Hm0, Hco0, !orb_false_r in Hs. exact Hs.
      * apply (chain_impl (bus_name_next c0) interface_next
                 (fun p => True)); [|exact I|assumption].
        intros p c _ Hin Hn. split; [|exact I].
        apply (bus_name_next_interface c0); [assumption| |assumption].
        intros ->. apply Hm. now right.
Qed.

(** X3.  An interface name is a bus name, and a bus name with no hyphen
    and no colon is an interface name: [check_interface] accepts a string
    exactly when [check_bus_name] does and the string holds neither
    character. *)
Theorem check_interface_bus_name (before : ascii) (s : string) :
  check_interface s = Ok true <->
    check_bus_name before s = Ok true
    /\ ~ In "-"%char (bytes s) /\ ~ In ":"%char (bytes s).
Proof.
  unfold check_interface, check_bus_name.
  destruct (SigTree.PyArg_Parse_s_cases s) as [[E Hnf] | E]; rewrite E; cbn [bind].
  - pose proof (_check_interface_bus_name before (bytes s) Hnf) as H.
    split.
    + intros [= Hi]. apply H in Hi as (Hb & ? & ?). rewrite Hb. auto.
    + intros ([= Hb] & ? & ?). f_equal. apply H. auto.
  - split; [discriminate | now intros [? _]].
Qed.

End NameProofs.

(** ** Signature engine: further properties *)

Module SigMore.
Import Sig SigSpec SigMem SigTree SigApi.

Lemma text_bytes (s : string) (ts : list dtype) :
  bytes s = show_list ts <-> s = text ts.
Proof.
  unfold text, bytes. split.
  - intros <-. symmetry. apply string_of_list_ascii_of_string.
  - intros ->. apply list_ascii_of_string_of_list_ascii.
Qed.

(** X4.  [check_signature] returns [True] exactly for the signatures that
    are a sequence of full types with at most 32 arrays and at most 32
    structs or dict entries inside one another, and of 255 characters at
    most; the empty signature is one of them. *)
Theorem check_signature_well_formed :
  (forall s : string,
      check_signature s = Ok true <->
        exists ts, s = text ts
                   /\ array_depth_list ts <= 32
                   /\ struct_depth_list ts <= 32
                   /\ (String.length s <= 255)%nat)
  /\ check_signature "" = Ok true
  /\ check_signature "a{sv}(id)aay" = Ok true
  /\ check_signature "aaaaaaaaaaaaaaaaaaaaaaaaaaaaaaaai" = Ok true
  /\ check_signature
       "((((((((((((((((((((((((((((((((i))))))))))))))))))))))))))))))))"
     = Ok true.
Proof.
  split; [|repeat split; reflexivity].
  intros s. rewrite check_signature_accepts.
  split; intros (ts & H & Hrest); exists ts; (split; [apply text_bytes, H | exact Hrest]).
Qed.

(** *** Dict entries *)

Lemma as_struct_facts (t : dtype) :
  array_depth (as_struct t) = array_depth t
  /\ struct_depth (as_struct t) = struct_depth t
  /\ List.length (show (as_struct t)) = List.length (show t).
Proof.
  induction t as [b|t IH|l IH|l IH] using dtype_induction.
  - repeat split.
  - destruct IH as (H1 & H2 & H3). cbn [as_struct array_depth struct_depth show].
    rewrite H1, H2. simpl List.length. rewrite H3. repeat split.
  - cbn [as_struct array_depth struct_depth show].
    simpl List.length. rewrite !length_app.
    induction IH as [|t l (H1 & H2 & H3) _ IHl]; [repeat split|].
    destruct IHl as (I1 & I2 & I3). cbn [map fold_right flat_map].
    rewrite H1, H2, I1. rewrite !length_app, H3 in *. simpl List.length in *.
    repeat split; lia.
  - cbn [as_struct array_depth struct_depth show].
    simpl List.length. rewrite !length_app.
    induction IH as [|t l (H1 & H2 & H3) _ IHl]; [repeat split|].
    destruct IHl as (I1 & I2 & I3). cbn [map fold_right flat_map].
    rewrite H1, H2, I1. rewrite !length_app, H3 in *. simpl List.length in *.
    repeat split; lia.
Qed.

Lemma as_struct_list_facts (ts : list dtype) :
  array_depth_list (map as_struct ts) = array_depth_list ts
  /\ struct_depth_list (map as_struct ts) = struct_depth_list ts
  /\ List.length (show_list (map as_struct ts)) = List.length (show_list ts).
Proof.
  induction ts as [|t ts (I1 & I2 & I3)]; [repeat split|].
  destruct (as_struct_facts t) as (H1 & H2 & H3).
  cbn [map]. rewrite !array_depth_list_cons, !struct_depth_list_cons, !show_list_cons.
  rewrite !length_app, H1, H2, H3, I1, I2, I3. repeat split.
Qed.

(** X5.  [check_signature] asks nothing more of a dict entry than of a
    struct: a signature is accepted exactly when the signature with every
    [{...}] written as [(...)] is, whatever the number and the types of
    the members and wherever the dict entry stands. *)
Theorem check_signature_dict_entry_as_struct :
  (forall ts : list dtype,
      check_signature (text (map as_struct ts)) = check_signature (text ts))
  /\ check_signature "{}" = Ok true
  /\ check_signature "{i}" = Ok true
  /\ check_signature "{sss}" = Ok true
  /\ check_signature "a{(ii)av}" = Ok true
  /\ check_signature "({is})" = Ok true.
Proof.
  split; [|repeat split; reflexivity].
  intros ts. rewrite !check_signature_text. f_equal.
  destruct (as_struct_list_facts ts) as (H1 & H2 & H3).
  pose proof (show_list_inj_depth (map as_struct ts) _ eq_refl) as Ha.
  pose proof (show_list_inj_depth ts _ eq_refl) as Hb.
  rewrite H1, H2, H3 in Ha.
  destruct (_check_signature (show_list (map as_struct ts)) 0 0),
    (_check_signature (show_list ts) 0 0); try reflexivity.
  - symmetry. apply Hb, Ha. reflexivity.
  - apply Ha, Hb. reflexivity.
Qed.

(** *** Splitting *)

Lemma scan_container_take (o e : ascii) (s : list ascii) :
  forall (d : Z) (k : nat),
    scan_container o e (take (fst (scan_container o e s d k) - S k) s) d k
    = scan_container o e s d k.
Proof.
  induction s as [|c s IH]; intros d k.
  - rewrite take_nil. reflexivity.
  - cbn [scan_container].
    destruct (Ascii.eqb c NUL) eqn:Ec.
    { cbn [fst]. replace (S k - S k)%nat with 0%nat by lia. reflexivity. }
    destruct (negb (0 <? d)) eqn:Ed.
    { cbn [fst]. replace (S k - S k)%nat with 0%nat by lia. reflexivity. }
    set (d' := if Ascii.eqb c o then d + 1
               else if Ascii.eqb c e then d - 1 else d).
    pose proof (scan_container_bound o e s d' (S k)) as Hb.
    replace (fst (scan_container o e s d' (S k)) - S k)%nat
      with (S (fst (scan_container o e s d' (S k)) - S (S k)))%nat by lia.
    cbn [take scan_container]. rewrite Ec, Ed. fold d'. apply IH.
Qed.

Lemma get_one_full_type_take (s : list ascii) :
  forall n, get_one_full_type s = Ok n -> get_one_full_type (take n s) = Ok n.
Proof.
  induction s as [|c s IH]; intros n; [discriminate|].
  cbn [get_one_full_type].
  destruct (Ascii.eqb c DBUS_TYPE_ARRAY) eqn:Ea.
  { destruct (get_one_full_type s) as [k|] eqn:Ek; cbn [bind]; [|discriminate].
    intros [= <-]. cbn [take get_one_full_type]. rewrite Ea.
    rewrite (IH k eq_refl). reflexivity. }
  destruct (Ascii.eqb c DBUS_STRUCT_BEGIN_CHAR) eqn:Es.
  { pose proof (scan_container_take c DBUS_STRUCT_END_CHAR s 1 0) as Ht.
    pose proof (scan_container_bound c DBUS_STRUCT_END_CHAR s 1 0) as Hb.
    destruct (scan_container c DBUS_STRUCT_END_CHAR s 1 0) as [e d] eqn:E.
    destruct (negb (d =? 0)) eqn:Ed; [discriminate|]. intros [= <-].
    cbn [fst] in Ht, Hb.
    replace e with (S (e - 1)) at 1 by lia.
    cbn [take get_one_full_type]. rewrite Ea, Es, Ht, Ed. reflexivity. }
  destruct (Ascii.eqb c DBUS_DICT_ENTRY_BEGIN_CHAR) eqn:Ee.
  { pose proof (scan_container_take c DBUS_DICT_ENTRY_END_CHAR s 1 0) as Ht.
    pose proof (scan_container_bound c DBUS_DICT_ENTRY_END_CHAR s 1 0) as Hb.
    destruct (scan_container c DBUS_DICT_ENTRY_END_CHAR s 1 0) as [e d] eqn:E.
    destruct (negb (d =? 0)) eqn:Ed; [discriminate|]. intros [= <-].
    cbn [fst] in Ht, Hb.
    replace e with (S (e - 1)) at 1 by lia.
    cbn [take get_one_full_type]. rewrite Ea, Es, Ee, Ht, Ed. reflexivity. }
  destruct (Ascii.eqb c NUL) eqn:En; [discriminate|].
  intros [= <-]. cbn [take get_one_full_type]. rewrite Ea, Es, Ee, En. reflexivity.
Qed.


Lemma bytes_append (a b : string) : bytes (a ++ b)%string = bytes a ++ bytes b.
Proof. induction a as [|c a IH]; simpl; [reflexivity|]. now rewrite <- IH. Qed.

Lemma bytes_concat (ps : list string) :
  bytes (String.concat "" ps) = flat_map bytes ps.
Proof.
  induction ps as [|p ps IH]; [reflexivity|].
  cbn [flat_map]. rewrite <- IH.
  destruct ps as [|q ps]; cbn [String.concat].
  - simpl. now rewrite app_nil_r.
  - rewrite bytes_append. reflexivity.
Qed.

Lemma bytes_inj (a b : string) : bytes a = bytes b -> a = b.
Proof.
  intros H. rewrite <- (string_of_list_ascii_of_string a),
    <- (string_of_list_ascii_of_string b). unfold bytes in H. now rewrite H.
Qed.

Lemma nth_0_nul_free (s : list ascii) :
  nul_free s -> nth 0 s NUL = NUL -> s = [].
Proof.
  destruct s as [|c s]; [reflexivity|].
  intros [Hc _]%nul_free_cons. simpl. congruence.
Qed.

Lemma split_loop_parts (fuel : nat) :
  forall (s : list ascii) (acc parts : list string),
    nul_free s ->
    split_loop fuel s acc = Some (Ok parts) ->
    exists ps, parts = acc ++ ps /\ flat_map bytes ps = s
               /\ Forall full_type_text ps.
Proof.
  induction fuel as [|fuel IH]; intros s acc parts Hnf; [discriminate|].
  cbn [split_loop].
  destruct (Ascii.eqb (nth 0 s NUL) NUL) eqn:E0.
  { intros [= <-]. apply Ascii.eqb_eq in E0.
    exists []. rewrite app_nil_r. rewrite (nth_0_nul_free s Hnf E0).
    repeat split. constructor. }
  destruct (get_one_full_type s) as [n|] eqn:En; [|discriminate].
  unfold PyUnicode_FromStringAndSize.
  destruct (utf8_valid (take n s)) eqn:Eu; [|discriminate].
  intros H. apply IH in H as (ps & -> & Hflat & Hall); [|now apply nul_free_drop].
  exists (string_of_list_ascii (take n s) :: ps).
  assert (bytes (string_of_list_ascii (take n s)) = take n s) as Eb
    by apply list_ascii_of_string_of_list_ascii.
  split; [now rewrite <- app_assoc|]. split.
  - cbn [flat_map]. rewrite Eb, Hflat. apply take_drop.
  - constructor; [|assumption]. unfold full_type_text. rewrite Eb.
    pose proof (get_one_full_type_bound s n En) as Hb.
    split; [|split; [now apply nul_free_take | split; [assumption|]]].
    + intros Ht. apply (f_equal (@List.length ascii)) in Ht.
      rewrite length_take in Ht. simpl in Ht. lia.
    + rewrite length_take. replace (n `min` List.length s)%nat with n by lia.
      now apply get_one_full_type_take.
Qed.

Lemma split_signature_one (p : string) :
  full_type_text p -> split_signature p = Ok [p].
Proof.
  intros (Hne & Hnf & Hu & Hg). unfold split_signature.
  assert (PyArg_Parse_s p = Ok (bytes p)) as ->
    by (apply PyArg_Parse_s_Ok; now split).
  cbn [bind].
  destruct (bytes p) as [|c r] eqn:E; [congruence|].
  apply nul_free_cons in Hnf as [Hc Hr].
  cbn [List.length split_loop nth]. rewrite (eqb_NUL_false c Hc), Hg.
  rewrite firstn_all.
  unfold PyUnicode_FromStringAndSize. rewrite Hu.
  rewrite drop_all. cbn [nth]. change (Ascii.eqb NUL NUL) with true. cbv iota.
  cbn [app]. rewrite <- E. unfold bytes.
  now rewrite string_of_list_ascii_of_string.
Qed.

Lemma split_signature_flat (s : string) (parts : list string) :
  split_signature s = Ok parts ->
  flat_map bytes parts = bytes s /\ Forall full_type_text parts.
Proof.
  unfold split_signature.
  destruct (SigTree.PyArg_Parse_s_cases s) as [[E Hnf] | E]; rewrite E; cbn [bind];
    [|discriminate].
  destruct (split_loop (S (List.length (bytes s))) (bytes s) []) as [r|] eqn:El;
    [|discriminate].
  intros ->. apply split_loop_parts in El as (ps & -> & Hflat & Hall); [|assumption].
  cbn [app]. now split.
Qed.

(** X6.  When [split_signature] returns, the parts put one after the other
    are the signature: nothing is left out and nothing added.  No part is
    empty, and every part is one full type: split again, it comes back as
    it is. *)
Theorem split_signature_parts (s : string) (parts : list string) :
  split_signature s = Ok parts ->
  String.concat "" parts = s
  /\ Forall (fun p => p <> ""%string /\ split_signature p = Ok [p]) parts.
Proof.
  intros [Hflat Hall]%split_signature_flat. split.
  - apply bytes_inj. now rewrite bytes_concat.
  - eapply Forall_impl; [exact Hall|]. intros p Hp. split.
    + intros ->. now destruct Hp as [Hne _].
    + now apply split_signature_one.
Qed.

Lemma split_signature_parts_witness :
  String.concat "" ["i"; "a{sv}"; "(ii)"; "aay"]%string = "ia{sv}(ii)aay"%string
  /\ Forall (fun p => p <> ""%string /\ split_signature p = Ok [p])
        ["i"; "a{sv}"; "(ii)"; "aay"]%string.
Proof.
  apply (split_signature_parts "ia{sv}(ii)aay"). reflexivity.
Defined.

(** *** Splitting and checking *)

Lemma split_signature_of_text (ts : list dtype) :
  split_signature (text ts) = Ok (map (fun t => text [t]) ts).
Proof.
  unfold split_signature. rewrite PyArg_Parse_s_text. cbn [bind].
  pose proof (split_loop_show ts [] [] (S (List.length (show_list ts)))) as H.
  rewrite app_nil_r in H.
  rewrite H; [|pose proof (show_list_length ts); lia | reflexivity].
  simpl. f_equal. apply map_ext. intros t. unfold text, show_list. simpl.
  now rewrite app_nil_r.
Qed.

Lemma show_list_app (a b : list dtype) :
  show_list (a ++ b) = show_list a ++ show_list b.
Proof. unfold show_list. apply flat_map_app. Qed.

Lemma array_depth_list_app (a b : list dtype) :
  array_depth_list (a ++ b) = Z.max (array_depth_list a) (array_depth_list b).
Proof.
  induction a as [|t a IH]; simpl app.
  - pose proof (depth_list_nonneg array_depth b). unfold array_depth_list at 2.
    simpl. unfold array_depth_list. lia.
  - rewrite !array_depth_list_cons, IH. lia.
Qed.

Lemma struct_depth_list_app (a b : list dtype) :
  struct_depth_list (a ++ b) = Z.max (struct_depth_list a) (struct_depth_list b).
Proof.
  induction a as [|t a IH]; simpl app.
  - pose proof (depth_list_nonneg struct_depth b). unfold struct_depth_list at 2.
    simpl. unfold struct_depth_list. lia.
  - rewrite !struct_depth_list_cons, IH. lia.
Qed.

Lemma depth_list_member (t : dtype) (ts : list dtype) :
  In t ts ->
  array_depth t <= array_depth_list ts
  /\ struct_depth t <= struct_depth_list ts
  /\ (List.length (show t) <= List.length (show_list ts))%nat.
Proof.
  induction ts as [|t' ts IH]; [intros []|].
  rewrite array_depth_list_cons, struct_depth_list_cons, show_list_cons, length_app.
  intros [->|Hin]; [lia|]. specialize (IH Hin). lia.
Qed.

Lemma check_signature_parts_accepted (parts : list string) :
  Forall (fun p => check_signature p = Ok true) parts ->
  exists ts, flat_map bytes parts = show_list ts
             /\ array_depth_list ts <= 32 /\ struct_depth_list ts <= 32.
Proof.
  induction 1 as [|p parts Hp _ (ts & Hflat & Ha & Hs)].
  - exists []. repeat split; discriminate.
  - apply check_signature_accepts in Hp as (tp & Hb & Hap & Hsp & _).
    exists (tp ++ ts). cbn [flat_map].
    rewrite show_list_app, array_depth_list_app, struct_depth_list_app, Hb, Hflat.
    repeat split; lia.
Qed.

(** X7.  A signature that [split_signature] can split is accepted by
    [check_signature] exactly when every part is and the signature has
    255 characters at most. *)
Theorem check_signature_split (s : string) (parts : list string) :
  split_signature s = Ok parts ->
  check_signature s = Ok true <->
    Forall (fun p => check_signature p = Ok true) parts
    /\ (String.length s <= 255)%nat.
Proof.
  intros Hsplit. split.
  - intros Hc. apply check_signature_accepts in Hc as (ts & Hb & Ha & Hs & Hl).
    split; [|assumption].
    apply text_bytes in Hb. subst s.
    rewrite split_signature_of_text in Hsplit. injection Hsplit as <-.
    apply Forall_map, Forall_forall. intros t Hin. apply list_elem_of_In in Hin.
    destruct (depth_list_member t ts Hin) as (H1 & H2 & H3).
    apply check_signature_accepts. exists [t].
    rewrite bytes_text. split; [reflexivity|].
    rewrite array_depth_list_cons, struct_depth_list_cons.
    unfold array_depth_list, struct_depth_list. cbn [fold_right].
    pose proof (array_depth_nonneg t). pose proof (struct_depth_nonneg t).
    split; [lia|]. split; [lia|].
    rewrite <- bytes_length, bytes_text. unfold show_list. cbn [flat_map].
    rewrite app_nil_r.
    rewrite <- bytes_length, bytes_text in Hl. lia.
  - intros [Hall Hlen].
    apply split_signature_flat in Hsplit as [Hflat _].
    destruct (check_signature_parts_accepted parts Hall) as (ts & Hts & Ha & Hs).
    apply check_signature_accepts. exists ts. rewrite <- Hflat.
    repeat split; assumption.
Qed.

Lemma check_signature_split_witness :
  check_signature "ia{sv}(ii)" = Ok true <->
    Forall (fun p => check_signature p = Ok true) ["i"; "a{sv}"; "(ii)"]%string
    /\ (String.length "ia{sv}(ii)" <= 255)%nat.
Proof.
  apply (check_signature_split "ia{sv}(ii)"). reflexivity.
Defined.

(** *** What [_check_signature] does to its argument *)

Lemma load_insert (m : list ascii) (e i : nat) (x : ascii) :
  load (<[e := x]> m) i
  = if decide (e = i /\ (e < List.length m)%nat) then x else load m i.
Proof.
  unfold load. rewrite !nth_lookup, list_lookup_insert.
  destruct (decide (e = i /\ (e < List.length m)%nat)); reflexivity.
Qed.

Lemma truncates_refl (m : list ascii) : truncates m m.
Proof. split; [reflexivity | intros i; now left]. Qed.

Lemma truncates_trans (m1 m2 m3 : list ascii) :
  truncates m1 m2 -> truncates m2 m3 -> truncates m1 m3.
Proof.
  intros [L1 H1] [L2 H2]. split; [congruence|].
  intros i. destruct (H1 i) as [E|E]; [|now right].
  rewrite E. apply H2.
Qed.

Lemma truncates_insert_nul (m : list ascii) (e : nat) :
  truncates (<[e := NUL]> m) m.
Proof.
  split; [apply length_insert|]. intros i. rewrite load_insert.
  destruct (decide (e = i /\ (e < List.length m)%nat)); [now right | now left].
Qed.

Lemma truncates_restore (m m1 : list ascii) (e : nat) :
  truncates m1 (<[e := NUL]> m) -> truncates (<[e := load m e]> m1) m.
Proof.
  intros [L H]. rewrite length_insert in L.
  split; [now rewrite length_insert|].
  intros i. rewrite load_insert.
  destruct (decide (e = i /\ (e < List.length m1)%nat)) as [[-> _]|Hn]; [now left|].
  destruct (H i) as [E|E]; [|now right].
  rewrite E, load_insert. rewrite <- L.
  destruct (decide (e = i /\ (e < List.length m1)%nat)); [contradiction | now left].
Qed.

Lemma check_loop_truncates (fuel : nat) :
  forall (m : list ascii) (start ptr : nat) (ad sd : Z) (m' : list ascii) (b : bool),
    check_loop fuel m start ptr ad sd = Some (m', b) -> truncates m' m.
Proof.
  induction fuel as [|fuel IH]; intros m start ptr ad sd m' b; [discriminate|].
  cbn [check_loop].
  destruct (Ascii.eqb (load m ptr) NUL).
  { intros [= <- _]. apply truncates_refl. }
  destruct (get_one_full_type (drop ptr m)) as [n|];
    [|intros [= <- _]; apply truncates_refl].
  cbv zeta.
  destruct (n =? 1)%nat.
  { destruct (negb (strchr basic_codes (load m ptr)));
      [intros [= <- _]; apply truncates_refl | apply IH]. }
  destruct (Ascii.eqb (load m ptr) DBUS_TYPE_ARRAY).
  { destruct (32 <=? ad); [intros [= <- _]; apply truncates_refl|].
    destruct (check_loop fuel (<[(ptr + n)%nat := NUL]> m) (ptr + 1) (ptr + 1)
                (ad + 1) sd) as [[m1 [|]]|] eqn:E1; [| |discriminate].
    - intros H. apply IH in H. apply IH in E1.
      eapply truncates_trans; [exact H|]. now apply truncates_restore.
    - intros [= <- _]. apply IH in E1.
      eapply truncates_trans; [exact E1 | apply truncates_insert_nul]. }
  destruct (Ascii.eqb (load m ptr) DBUS_STRUCT_BEGIN_CHAR
            || Ascii.eqb (load m ptr) DBUS_DICT_ENTRY_BEGIN_CHAR); [|apply IH].
  destruct (32 <=? sd); [intros [= <- _]; apply truncates_refl|].
  destruct (check_loop fuel (<[(ptr + n - 1)%nat := NUL]> m) (ptr + 1) (ptr + 1)
              ad (sd + 1)) as [[m1 [|]]|] eqn:E1; [| |discriminate].
  - apply IH in E1. apply truncates_restore in E1.
    match goal with |- (if ?c then _ else _) = _ -> _ => destruct c end.
    + intros [= <- _]. exact E1.
    + intros H. apply IH in H. eapply truncates_trans; eassumption.
  - intros [= <- _]. apply IH in E1.
    eapply truncates_trans; [exact E1 | apply truncates_insert_nul].
Qed.

(** X8.  Whatever [_check_signature] returns, the buffer of its argument
    keeps its length and every byte of it is either as it was or a
    terminator written over it: what is left is a prefix of the
    signature.  When the function returns 1 the buffer is as it was. *)
Theorem _check_signature_frame (s : list ascii) (ad sd : Z) :
  nul_free s ->
  exists (m' : list ascii) (b : bool),
    _check_signature_mem s ad sd = Some (m', b)
    /\ truncates m' (s ++ [NUL])
    /\ (b = true -> m' = s ++ [NUL]).
Proof.
  intros Hnf.
  destruct (_check_signature_mem_spec s ad sd Hnf) as (m' & b & Hm & _ & Hr).
  exists m', b. split; [assumption|]. split; [|assumption].
  eapply check_loop_truncates. exact Hm.
Qed.

Lemma _check_signature_frame_witness :
  exists (m' : list ascii) (b : bool),
    _check_signature_mem (bytes "a{sv}") 0 0 = Some (m', b)
    /\ truncates m' (bytes "a{sv}" ++ [NUL])
    /\ (b = true -> m' = bytes "a{sv}" ++ [NUL]).
Proof.
  apply _check_signature_frame.
  intros H. simpl in H. intuition discriminate.
Defined.

End SigMore.

(** ** Argument codec: further properties *)

Module CodecMore.
Import Py Num DBus Sig Names Codec SigSpec NumSpec CodecSpec.
Import SigMem SigTree SigApi NumProofs CodecProofs.

(** *** The cases of [message_append_arg], for any argument *)

Lemma check_number_any (type : ascii) (lo hi : Z) (arg : pyobj) :
  int_range type = Some (lo, hi) ->
  check_number arg type
  = if negb (PyLong_Check arg)
    then Raise (TypeError "expecting integer argument for `%c' format")
    else if (lo <=? long_value arg) && (long_value arg <=? hi)
         then Ok tt else Raise range_error.
Proof.
  intros H.
  destruct (PyLong_Check arg) eqn:Ec; cbn [negb].
  - assert (check_number arg type = check_number (PyLong (long_value arg)) type) as ->.
    { unfold check_number. rewrite Ec. reflexivity. }
    now apply check_number_spec.
  - unfold check_number. rewrite Ec. reflexivity.
Qed.

Lemma append_arg_int_any (type : ascii) (lo hi : Z) (fuel : nat)
    (iter : DBusMessageIter) (arg : pyobj) :
  int_range type = Some (lo, hi) ->
  message_append_arg (S fuel) iter [type] arg
  = if negb (PyLong_Check arg)
    then Raise (TypeError "expecting integer argument for `%c' format")
    else if (lo <=? long_value arg) && (long_value arg <=? hi)
         then Ok (push iter (WBasic type (VInt (long_value arg))))
         else Raise range_error.
Proof.
  intros H.
  destruct (PyLong_Check arg) eqn:Ec; cbn [negb].
  - assert (message_append_arg (S fuel) iter [type] arg
            = message_append_arg (S fuel) iter [type] (PyLong (long_value arg))) as ->.
    { destruct arg; try discriminate; [|reflexivity].
      apply int_range_inv in H.
      destruct H as [H|[H|[H|[H|[H|[H|H]]]]]]; destruct H as (-> & -> & ->);
        destruct b; reflexivity. }
    rewrite (message_append_arg_int type lo hi _ fuel iter H). reflexivity.
  - pose proof (check_number_any type lo hi arg H) as Hc. rewrite Ec in Hc.
    cbn [negb] in Hc. apply int_range_inv in H.
    destruct H as [H|[H|[H|[H|[H|[H|H]]]]]]; destruct H as (-> & -> & ->);
      cbn [message_append_arg nth]; cbn [Ascii.eqb Bool.eqb DBUS_TYPE_BYTE
        DBUS_TYPE_BOOLEAN DBUS_TYPE_INT16 DBUS_TYPE_UINT16 DBUS_TYPE_INT32
        DBUS_TYPE_UINT32 DBUS_TYPE_INT64 DBUS_TYPE_UINT64 andb];
      rewrite Hc; reflexivity.
Qed.

Lemma append_arg_text_any (fuel : nat) (iter : DBusMessageIter) (arg : pyobj) :
  message_append_arg (S fuel) iter ["s"%char] arg
  = if negb (PyUnicode_Check arg)
    then Raise (TypeError "expecting str for `%c' format")
    else Ok (push iter (WBasic "s" (VStr (cstr (PyUnicode_AsUTF8 arg))))).
Proof. reflexivity. Qed.

Lemma append_arg_object_path_any (fuel : nat) (iter : DBusMessageIter) (arg : pyobj) :
  message_append_arg (S fuel) iter ["o"%char] arg
  = if negb (PyUnicode_Check arg)
    then Raise (TypeError "expecting str for `%c' format")
    else if negb (_check_path (cstr (PyUnicode_AsUTF8 arg)))
         then Raise (ValueError "invalid object path argument")
         else Ok (push iter (WBasic "o" (VStr (cstr (PyUnicode_AsUTF8 arg))))).
Proof. reflexivity. Qed.

Lemma append_arg_signature_any (fuel : nat) (iter : DBusMessageIter) (arg : pyobj) :
  message_append_arg (S fuel) iter ["g"%char] arg
  = if negb (PyUnicode_Check arg)
    then Raise (TypeError "expecting str for `%c' format")
    else if negb (_check_signature (cstr (PyUnicode_AsUTF8 arg)) 0 0)
         then Raise (ValueError "invalid signature")
         else Ok (push iter (WBasic "g" (VStr (cstr (PyUnicode_AsUTF8 arg))))).
Proof. reflexivity. Qed.

Lemma append_arg_unix_fd (fuel : nat) (iter : DBusMessageIter) (arg : pyobj) :
  message_append_arg (S fuel) iter ["h"%char] arg
  = Raise (Error "unknown format character `%c'").
Proof. reflexivity. Qed.

Lemma append_arg_closer (fuel : nat) (iter : DBusMessageIter) (c : ascii)
    (arg : pyobj) :
  c = DBUS_STRUCT_END_CHAR \/ c = DBUS_DICT_ENTRY_END_CHAR ->
  message_append_arg (S fuel) iter [c] arg
  = Raise (Error "unknown format character `%c'").
Proof. intros [->| ->]; reflexivity. Qed.

Lemma append_arg_variant_any (fuel : nat) (iter : DBusMessageIter) (arg : pyobj) :
  message_append_arg (S fuel) iter ["v"%char] arg
  = if negb (PySequence_Check arg) then
      Raise (TypeError "expecting a sequence for variant")
    else if negb (PySequence_Size arg =? 2) then
      Raise (ValueError "expecting a sequence of length 2 for variant")
    else if negb (PyUnicode_Check (PySequence_GetItem arg 0)) then
      Raise (TypeError "first item in sequence for variant must be string")
    else
      let subtype := cstr (PyUnicode_AsUTF8 (PySequence_GetItem arg 0)) in
      if negb (_check_signature subtype 0 0) then
        Raise (ValueError "invalid signature for variant")
      else
        match get_one_full_type subtype with
        | Raise _ =>
            Raise (ValueError "variant signature must be exactly one full type")
        | Ok end_ =>
            if negb (Ascii.eqb (nth end_ subtype NUL) NUL) then
              Raise (ValueError "variant signature must be exactly one full type")
            else
              do subiter <- message_append_arg fuel
                              (dbus_message_iter_open_container "v" subtype) subtype
                              (PySequence_GetItem arg 1);
              Ok (push iter (WContainer (container_type subiter)
                               (contained_signature subiter) (items subiter)))
        end.
Proof. reflexivity. Qed.

Lemma cstr_idem_nul_free (s : list ascii) : nul_free (cstr s).
Proof.
  unfold cstr. induction s as [|c s IH]; [intros []|].
  simpl. destruct (Ascii.eqb_spec c NUL) as [->|Hc]; [intros []|].
  simpl. apply nul_free_cons. now split.
Qed.

(** The text of a variant's signature that the encoder lets through is that of
    one full type. *)
Lemma variant_signature_one (s : list ascii) (end_ : nat) :
  nul_free s -> _check_signature s 0 0 = true ->
  get_one_full_type s = Ok end_ -> nth end_ s NUL = NUL ->
  exists t, s = show t.
Proof.
  intros Hnf Hc Hg Hn.
  apply (_check_signature_true_iff s Hnf) in Hc as (ts & -> & _).
  destruct ts as [|t ts]; [discriminate|].
  exists t. rewrite show_list_cons in *.
  rewrite get_one_full_type_show in Hg. injection Hg as <-.
  rewrite app_nth2 in Hn by lia.
  replace (List.length (show t) - List.length (show t))%nat with 0%nat in Hn by lia.
  apply nul_free_app in Hnf as [_ Hnf].
  rewrite (SigMore.nth_0_nul_free _ Hnf Hn). now rewrite app_nil_r.
Qed.

Lemma append_arg_struct_each (fuel : nat) (iter : DBusMessageIter)
    (t : dtype) (ts : list dtype) (arg : pyobj) :
  message_append_arg (S fuel) iter (show (TStruct (t :: ts))) arg
  = if negb (PySequence_Check arg)
    then Raise (TypeError "expecting sequence argument for struct format")
    else
      do subiter <- append_each (message_append_arg fuel)
                      (dbus_message_iter_open_container DBUS_TYPE_STRUCT [])
                      (t :: ts) (sequence_items arg);
      Ok (push iter (WContainer (container_type subiter)
                       (contained_signature subiter) (items subiter))).
Proof.
  change (show (TStruct (t :: ts)))
    with ("("%char :: contents_sig (t :: ts) [DBUS_STRUCT_END_CHAR]).
  rewrite append_arg_struct. destruct (negb (PySequence_Check arg)); [reflexivity|].
  unfold message_append_args_with.
  rewrite (message_append_args_loop_each _ arg _
             (or_intror (or_introl eq_refl)) (t :: ts) _ _ [] (sequence_items arg));
    [reflexivity | apply contents_sig_length | reflexivity].
Qed.

Lemma append_arg_dict_entry_each (fuel : nat) (iter : DBusMessageIter)
    (t : dtype) (ts : list dtype) (arg : pyobj) :
  message_append_arg (S fuel) iter (show (TDictEntry (t :: ts))) arg
  = if negb (PySequence_Check arg)
    then Raise (TypeError "expecting sequence argument for dict_entry format")
    else
      do subiter <- append_each (message_append_arg fuel)
                      (dbus_message_iter_open_container DBUS_TYPE_DICT_ENTRY [])
                      (t :: ts) (sequence_items arg);
      Ok (push iter (WContainer (container_type subiter)
                       (contained_signature subiter) (items subiter))).
Proof.
  change (show (TDictEntry (t :: ts)))
    with ("{"%char :: contents_sig (t :: ts) [DBUS_DICT_ENTRY_END_CHAR]).
  rewrite append_arg_dict_entry. destruct (negb (PySequence_Check arg)); [reflexivity|].
  unfold message_append_args_with.
  rewrite (message_append_args_loop_each _ arg _
             (or_intror (or_intror eq_refl)) (t :: ts) _ _ [] (sequence_items arg));
    [reflexivity | apply contents_sig_length | reflexivity].
Qed.

(** With no member between the brackets the closing bracket is taken for
    a type, which no value can be written for. *)
Lemma append_arg_empty (fuel : nat) (iter : DBusMessageIter) (o c : ascii)
    (arg : pyobj) :
  (o = DBUS_STRUCT_BEGIN_CHAR \/ o = DBUS_DICT_ENTRY_BEGIN_CHAR) ->
  (c = DBUS_STRUCT_END_CHAR \/ c = DBUS_DICT_ENTRY_END_CHAR) ->
  exists e, message_append_arg fuel iter [o; c] arg = Raise e
            /\ ((2 <= fuel)%nat -> python_exception e).
Proof.
  intros Ho Hc. destruct fuel as [|fuel].
  { exists OutOfFuel. split; [reflexivity | lia]. }
  assert (forall sub,
            exists e, message_append_args_with (message_append_arg fuel) sub [c] arg
                      = Raise e
                      /\ ((1 <= fuel)%nat -> python_exception e)) as Hloop.
  { intros sub. unfold message_append_args_with.
    cbn [List.length message_append_args_loop nth].
    assert (Ascii.eqb c NUL = false) as -> by (destruct Hc as [->| ->]; reflexivity).
    assert (get_one_full_type [c] = Ok 1%nat) as -> by (destruct Hc as [->| ->]; reflexivity).
    cbn [bind].
    destruct (Z.of_nat 0 =? PySequence_Size arg).
    { eexists. split; [reflexivity|]. intros _. split; discriminate. }
    cbn [take].
    destruct fuel as [|fuel'].
    { exists OutOfFuel. split; [reflexivity | lia]. }
    rewrite (append_arg_closer fuel' sub c _ Hc). cbn [bind].
    eexists. split; [reflexivity|]. intros _. split; discriminate. }
  destruct Ho as [->| ->].
  - rewrite append_arg_struct. destruct (negb (PySequence_Check arg)).
    { eexists. split; [reflexivity|]. intros _. split; discriminate. }
    destruct (Hloop (dbus_message_iter_open_container DBUS_TYPE_STRUCT []))
      as (e & -> & He).
    exists e. split; [reflexivity|]. intros H. apply He. lia.
  - rewrite append_arg_dict_entry. destruct (negb (PySequence_Check arg)).
    { eexists. split; [reflexivity|]. intros _. split; discriminate. }
    destruct (Hloop (dbus_message_iter_open_container DBUS_TYPE_DICT_ENTRY []))
      as (e & -> & He).
    exists e. split; [reflexivity|]. intros H. apply He. lia.
Qed.

(** *** What a loop of the encoder appends *)

Lemma append_each_ok
    (f : DBusMessageIter -> list ascii -> pyobj -> result DBusMessageIter)
    (Q : wire -> dtype -> Prop) (ts : list dtype) :
  (forall t v i i', In t ts -> f i (show t) v = Ok i' ->
                    exists w, i' = push i w /\ Q w t) ->
  forall (vs : list pyobj) (it it' : DBusMessageIter),
    append_each f it ts vs = Ok it' ->
    exists ws, it' = push_all it ws /\ Forall2 Q ws ts.
Proof.
  induction ts as [|t ts IH]; intros Hf [|v vs] it it'; cbn [append_each];
    try discriminate.
  - intros [= <-]. exists []. split; [now rewrite push_all_nil | constructor].
  - destruct (f it (show t) v) as [i1|] eqn:E1; cbn [bind]; [|discriminate].
    destruct (Hf t v it i1 (or_introl eq_refl) E1) as (w & -> & Hw).
    intros H. apply IH in H as (ws & -> & Hws).
    + exists (w :: ws). split; [apply push_push_all | now constructor].
    + intros t' v' i i' Hin. apply Hf. now right.
Qed.

Lemma append_items_ok
    (f : DBusMessageIter -> list ascii -> pyobj -> result DBusMessageIter)
    (Q : wire -> Prop) (sig : list ascii) :
  (forall v i i', f i sig v = Ok i' -> exists w, i' = push i w /\ Q w) ->
  forall (vs : list pyobj) (it it' : DBusMessageIter),
    append_items f it sig vs = Ok it' ->
    exists ws, it' = push_all it ws /\ Forall Q ws.
Proof.
  intros Hf. induction vs as [|v vs IH]; intros it it'; cbn [append_items].
  - intros [= <-]. exists []. split; [now rewrite push_all_nil | constructor].
  - destruct (f it sig v) as [i1|] eqn:E1; cbn [bind]; [|discriminate].
    destruct (Hf v it i1 E1) as (w & -> & Hw).
    intros H. apply IH in H as (ws & -> & Hws).
    exists (w :: ws). split; [apply push_push_all | now constructor].
Qed.

Lemma PyObject_IsTrue_bool (arg : pyobj) :
  PyObject_IsTrue arg = 0 \/ PyObject_IsTrue arg = 1.
Proof.
  destruct arg as [|b|n|bits|s|s|l|l|d]; simpl;
    try (destruct b; auto);
    match goal with
    | |- context [if ?c then _ else _] => destruct c; auto
    | _ => auto
    end.
Qed.

Lemma code_byte (c : ascii) : 0 <= code c <= 255.
Proof.
  unfold code. pose proof (N_ascii_bounded c). lia.
Qed.

(** Every value that [message_append_arg] writes is a legal value of the
    type it was given. *)
Lemma append_arg_well_formed (fuel : nat) :
  forall (t : dtype) (iter : DBusMessageIter) (arg : pyobj) (iter' : DBusMessageIter),
    message_append_arg fuel iter (show t) arg = Ok iter' ->
    exists w, iter' = push iter w /\ wire_ok w t.
Proof.
  induction fuel as [|fuel IH]; intros t iter arg iter'; [discriminate|].
  destruct t as [b|t|ts|ts].
  - (* basic types *)
    change (show (TBasic b)) with [basic_code b].
    destruct (int_range (basic_code b)) as [[lo hi]|] eqn:Er.
    { rewrite (append_arg_int_any _ lo hi fuel iter arg Er).
      destruct (negb (PyLong_Check arg)); [discriminate|].
      destruct ((lo <=? long_value arg) && (long_value arg <=? hi)) eqn:Eb;
        [|discriminate].
      intros [= <-]. eexists. split; [reflexivity|].
      apply andb_true_iff in Eb as [H1 H2]. apply Z.leb_le in H1, H2.
      eapply WO_int; [exact Er | lia]. }
    destruct b; try discriminate Er; cbn [basic_code].
    + (* boolean *)
      rewrite append_arg_boolean. intros [= <-]. eexists. split; [reflexivity|].
      apply WO_boolean.
      destruct (PyObject_IsTrue_bool arg) as [-> | ->]; [left | right]; reflexivity.
    + (* double *)
      rewrite append_arg_double.
      destruct (PyFloat_AsDouble arg) as [dbl|]; cbn [bind]; [|discriminate].
      intros [= <-]. eexists. split; [reflexivity | constructor].
    + (* string *)
      rewrite append_arg_text_any.
      destruct (negb (PyUnicode_Check arg)); [discriminate|].
      intros [= <-]. eexists. split; [reflexivity|].
      constructor. apply cstr_idem_nul_free.
    + (* object path *)
      rewrite append_arg_object_path_any.
      destruct (negb (PyUnicode_Check arg)); [discriminate|].
      destruct (_check_path (cstr (PyUnicode_AsUTF8 arg))) eqn:Ep; [|discriminate].
      intros [= <-]. eexists. split; [reflexivity|].
      constructor; [apply cstr_idem_nul_free | assumption].
    + (* signature *)
      rewrite append_arg_signature_any.
      destruct (negb (PyUnicode_Check arg)); [discriminate|].
      destruct (_check_signature (cstr (PyUnicode_AsUTF8 arg)) 0 0) eqn:Ep;
        [|discriminate].
      intros [= <-]. eexists. split; [reflexivity|].
      constructor; [apply cstr_idem_nul_free | assumption].
    + (* variant *)
      rewrite append_arg_variant_any. cbv zeta.
      destruct (negb (PySequence_Check arg)); [discriminate|].
      destruct (negb (PySequence_Size arg =? 2)); [discriminate|].
      destruct (negb (PyUnicode_Check (PySequence_GetItem arg 0))); [discriminate|].
      set (subtype := cstr (PyUnicode_AsUTF8 (PySequence_GetItem arg 0))).
      destruct (_check_signature subtype 0 0) eqn:Ec; [|discriminate]. cbn [negb].
      destruct (get_one_full_type subtype) as [end_|] eqn:Eg; [|discriminate].
      destruct (Ascii.eqb (nth end_ subtype NUL) NUL) eqn:En; [|discriminate].
      cbn [negb]. apply Ascii.eqb_eq in En.
      destruct (variant_signature_one subtype end_ (cstr_idem_nul_free _) Ec Eg En)
        as (t' & Et).
      rewrite Et in *.
      destruct (message_append_arg fuel _ (show t') _) as [sub|] eqn:Es;
        cbn [bind]; [|discriminate].
      apply IH in Es as (w & -> & Hw).
      intros [= <-]. eexists. split; [reflexivity|].
      cbn. now apply WO_variant.
    + (* unix fd *)
      rewrite append_arg_unix_fd. discriminate.
  - (* arrays *)
    change (show (TArray t)) with ("a"%char :: show t).
    rewrite append_arg_array.
    destruct (Ascii.eqb (nth 0 (show t) NUL) DBUS_TYPE_BYTE) eqn:Ey.
    { apply Ascii.eqb_eq, show_head_byte in Ey. subst t.
      destruct (negb (PyBytes_Check arg)); [discriminate|]. cbn [bind].
      intros [= <-]. eexists. split; [reflexivity|].
      cbn. apply (WO_array (TBasic Byte)).
      apply Forall_map, Forall_forall. intros c _.
      apply (WO_int Byte 0 255); [reflexivity | apply code_byte]. }
    match goal with
    | |- (do subiter <- (do Parray <- ?P; _); _) = _ -> _ =>
        destruct P as [Parray|]; cbn [bind]; [|discriminate]
    end.
    destruct (append_items _ _ _ _) as [sub|] eqn:Es; cbn [bind]; [|discriminate].
    apply (append_items_ok _ (fun w => wire_ok w t)) in Es as (ws & -> & Hws);
      [|intros v i i'; apply IH].
    intros [= <-]. eexists. split; [reflexivity|].
    cbn. now apply WO_array.
  - (* structs *)
    destruct ts as [|t ts].
    { destruct (append_arg_empty (S fuel) iter "(" ")" arg) as (e & He & _);
        [now left | now left|].
      change (show (TStruct [])) with ["("%char; ")"%char]. rewrite He. discriminate. }
    rewrite append_arg_struct_each.
    destruct (negb (PySequence_Check arg)); [discriminate|].
    destruct (append_each _ _ _ _) as [sub|] eqn:Es; cbn [bind]; [|discriminate].
    apply (append_each_ok _ wire_ok) in Es as (ws & -> & Hws);
      [|intros t' v i i' _; apply IH].
    intros [= <-]. eexists. split; [reflexivity|].
    cbn. now apply WO_struct.
  - (* dict entries *)
    destruct ts as [|t ts].
    { destruct (append_arg_empty (S fuel) iter "{" "}" arg) as (e & He & _);
        [now right | now right|].
      change (show (TDictEntry [])) with ["{"%char; "}"%char]. rewrite He. discriminate. }
    rewrite append_arg_dict_entry_each.
    destruct (negb (PySequence_Check arg)); [discriminate|].
    destruct (append_each _ _ _ _) as [sub|] eqn:Es; cbn [bind]; [|discriminate].
    apply (append_each_ok _ wire_ok) in Es as (ws & -> & Hws);
      [|intros t' v i i' _; apply IH].
    intros [= <-]. eexists. split; [reflexivity|].
    cbn. now apply WO_dict_entry.
Qed.

Lemma message_set_args_accepted (message : list wire) (signature : string)
    (args : pyobj) (r : result (list wire)) :
  message_set_args message signature args = r ->
  (exists ts,
      signature = text ts /\ check_signature signature = Ok true
      /\ PySequence_Check args = true
      /\ r = (do iter <- append_each
                           (message_append_arg (recursion_bound (show_list ts) args))
                           (dbus_message_iter_init_append message) ts
                           (sequence_items args);
              Ok (items iter)))
  \/ r = Raise ArgumentError
  \/ r = Raise (TypeError "expecting a sequence for the arguments")
  \/ r = Raise (ValueError "illegal signature").
Proof.
  intros <-. unfold message_set_args.
  destruct (PyArg_Parse_s_cases signature) as [[E Hnf] | E]; rewrite E; cbn [bind];
    [|now right; left].
  destruct (PySequence_Check args) eqn:Eseq; cbn [negb]; [|now right; right; left].
  destruct (_check_signature (bytes signature) 0 0) eqn:Ec; cbn [negb];
    [|now right; right; right].
  left.
  pose proof Ec as Ec'.
  apply (_check_signature_true_iff _ Hnf) in Ec' as (ts & Hb & _).
  exists ts. apply SigMore.text_bytes in Hb. subst signature.
  split; [reflexivity|]. split.
  { rewrite check_signature_text. rewrite bytes_text in Ec. now rewrite Ec. }
  split; [reflexivity|].
  rewrite bytes_text, message_append_args_each. reflexivity.
Qed.

Lemma message_set_args_appends (message : list wire) (signature : string)
    (args : pyobj) (body : list wire) :
  message_set_args message signature args = Ok body ->
  exists (ts : list dtype) (ws : list wire),
    signature = text ts /\ body = message ++ ws /\ Forall2 wire_ok ws ts.
Proof.
  intros H. apply message_set_args_accepted in H as [(ts & -> & _ & _ & H)|H];
    [|destruct H as [H|[H|H]]; discriminate].
  destruct (append_each _ _ _ _) as [it|] eqn:E; cbn [bind] in H; [|discriminate].
  injection H as ->.
  apply (append_each_ok _ wire_ok) in E as (ws & -> & Hws).
  - exists ts, ws. repeat split; assumption.
  - intros t v i i' _. apply append_arg_well_formed.
Qed.

(** X9.  Whatever the arguments, what [set_args] adds to a message is
    legal: the arguments that the message held are kept, one value is
    added for each full type of the signature, and every value added is a
    legal value of its type -- integers within the bounds of their widths,
    object paths and signatures that pass their validators, texts cut at no
    NUL, every item of an array of the element type. *)
Theorem message_set_args_well_formed (message : list wire) (signature : string)
    (args : pyobj) (body : list wire) :
  message_set_args message signature args = Ok body ->
  exists (ts : list dtype) (ws : list wire),
    signature = text ts /\ body = message ++ ws /\ Forall2 wire_ok ws ts.
Proof. apply message_set_args_appends. Qed.

Lemma message_set_args_well_formed_witness :
  exists (ts : list dtype) (ws : list wire),
    "sa{sv}"%string = text ts
    /\ [WBasic "y" (VInt 7);
        WBasic "s" (VStr (bytes "x"));
        WContainer "a" (bytes "{sv}")
          [WContainer "e" []
             [WBasic "s" (VStr (bytes "k"));
              WContainer "v" (bytes "i") [WBasic "i" (VInt 5)]]]]
       = [WBasic "y" (VInt 7)] ++ ws
    /\ Forall2 wire_ok ws ts.
Proof.
  apply (message_set_args_well_formed [WBasic "y" (VInt 7)] "sa{sv}"
           (PyTuple [PyUnicode "x";
                     PyDict [(PyUnicode "k", PyTuple [PyUnicode "i"; PyLong 5])]])).
  reflexivity.
Defined.

(** *** Failures *)

Lemma append_each_raise
    (f : DBusMessageIter -> list ascii -> pyobj -> result DBusMessageIter)
    (ts : list dtype) :
  forall (vs : list pyobj) (it : DBusMessageIter) (e : exn),
    append_each f it ts vs = Raise e ->
    e = too_few \/ e = too_many
    \/ exists t v i, In t ts /\ In v vs /\ f i (show t) v = Raise e.
Proof.
  induction ts as [|t ts IH]; intros [|v vs] it e; cbn [append_each];
    try discriminate.
  - intros [= <-]. now right; left.
  - intros [= <-]. now left.
  - destruct (f it (show t) v) as [i1|e1] eqn:E1; cbn [bind].
    + intros H. apply IH in H as [H|[H|(t' & v' & i & Ht & Hv & H)]];
        [now left | now right; left |].
      right; right. exists t', v', i. split; [now right|]. split; [now right | assumption].
    + intros [= <-]. right; right. exists t, v, it.
      split; [now left|]. split; [now left | assumption].
Qed.

Lemma append_items_raise
    (f : DBusMessageIter -> list ascii -> pyobj -> result DBusMessageIter)
    (sig : list ascii) :
  forall (vs : list pyobj) (it : DBusMessageIter) (e : exn),
    append_items f it sig vs = Raise e ->
    exists v i, In v vs /\ f i sig v = Raise e.
Proof.
  induction vs as [|v vs IH]; intros it e; cbn [append_items]; [discriminate|].
  destruct (f it sig v) as [i1|e1] eqn:E1; cbn [bind].
  - intros H. apply IH in H as (v' & i & Hv & H).
    exists v', i. split; [now right | assumption].
  - intros [= <-]. exists v, it. split; [now left | assumption].
Qed.

Lemma py_size_pos (o : pyobj) : (1 <= py_size o)%nat.
Proof. destruct o; simpl; lia. Qed.

(** The characters of a text are its bytes, cut into pieces. *)
Lemma utf8_chars_concat (s : list ascii) : List.concat (utf8_chars s) = s.
Proof.
  induction s as [|c s IH]; [reflexivity|]. cbn [utf8_chars].
  destruct (utf8_chars s) as [|[|c' g] gs]; cbn [List.concat app] in *;
    [now rewrite <- IH | now rewrite <- IH |].
  destruct (utf8_continuation c'); cbn [List.concat app]; now rewrite <- IH.
Qed.

Lemma string_of_list_ascii_length (g : list ascii) :
  String.length (string_of_list_ascii g) = List.length g.
Proof.
  rewrite <- bytes_length. unfold bytes.
  now rewrite list_ascii_of_string_of_list_ascii.
Qed.

Lemma concat_member_length (g : list ascii) (gs : list (list ascii)) :
  In g gs -> (List.length g <= List.length (List.concat gs))%nat.
Proof.
  induction gs as [|g' gs IH]; [intros []|].
  cbn [List.concat]. rewrite length_app. intros [->|Hin]; [lia|].
  specialize (IH Hin). lia.
Qed.

Lemma py_size_item (arg v : pyobj) :
  In v (sequence_items arg) -> (py_size v <= py_size arg)%nat.
Proof.
  destruct arg as [|b|n|bits|s|s|l|l|d]; cbn [sequence_items]; try (intros []).
  - intros (g & <- & Hin)%in_map_iff. cbn [py_size].
    rewrite string_of_list_ascii_length, <- (bytes_length s).
    apply concat_member_length in Hin. rewrite utf8_chars_concat in Hin. lia.
  - intros (c & <- & Hin)%in_map_iff. simpl. lia.
  - intros Hin. cbn [py_size].
    pose proof (py_size_items l _ (le_n _)) as H.
    rewrite Forall_forall in H. apply list_elem_of_In in Hin.
    specialize (H v Hin). lia.
  - intros Hin. cbn [py_size].
    pose proof (py_size_items l _ (le_n _)) as H.
    rewrite Forall_forall in H. apply list_elem_of_In in Hin.
    specialize (H v Hin). lia.
Qed.

Lemma py_size_dict_item (arg v : pyobj) :
  In v (sequence_items (PyDict_Items arg)) -> (py_size v <= py_size arg)%nat.
Proof.
  destruct arg as [|b|n|bits|s|s|l|l|d]; cbn [PyDict_Items sequence_items];
    try (intros []).
  intros ([k x] & <- & Hin)%in_map_iff. cbn [py_size fst snd].
  pose proof (py_size_entries d _ (le_n _)) as H.
  rewrite Forall_forall in H. apply list_elem_of_In in Hin.
  specialize (H (k, x) Hin). cbn [fst snd] in H. lia.
Qed.

Lemma cstr_length (s : list ascii) : (List.length (cstr s) <= List.length s)%nat.
Proof. unfold cstr. rewrite length_take. lia. Qed.

Lemma variant_measure (arg : pyobj) :
  PySequence_Size arg = 2 ->
  PyUnicode_Check (PySequence_GetItem arg 0) = true ->
  (List.length (cstr (PyUnicode_AsUTF8 (PySequence_GetItem arg 0)))
   + py_size (PySequence_GetItem arg 1) <= py_size arg)%nat.
Proof.
  unfold PySequence_Size, PySequence_GetItem. intros Hsize Hu.
  destruct (sequence_items arg) as [|a [|b [|c l]]] eqn:E;
    simpl List.length in Hsize; try lia.
  cbn [nth] in Hu |- *.
  destruct a as [| | | |s| | | |]; try discriminate. cbn [PyUnicode_AsUTF8].
  pose proof (cstr_length (bytes s)) as Hc. rewrite bytes_length in Hc.
  assert (In (PyUnicode s) (sequence_items arg)) as Ha by (rewrite E; now left).
  assert (In b (sequence_items arg)) as Hb by (rewrite E; right; now left).
  destruct arg as [|x|n|bits|s'|s'|l|l|d]; cbn [sequence_items] in E;
    try discriminate.
  - (* a text of two characters *)
    pose proof (utf8_chars_concat (bytes s')) as Hl.
    apply (f_equal (@List.length ascii)) in Hl. rewrite bytes_length in Hl.
    destruct (utf8_chars (bytes s')) as [|g1 [|g2 [|g3 r]]]; try discriminate.
    cbn [map] in E. injection E as <- <-.
    cbn [List.concat] in Hl. rewrite !length_app in Hl. cbn [List.length] in Hl.
    rewrite string_of_list_ascii_length in Hc.
    cbn [py_size]. rewrite string_of_list_ascii_length. lia.
  - (* bytes: the first item is an integer *)
    destruct (bytes s') as [|c1 r]; discriminate.
  - subst l. simpl. simpl in Hc. lia.
  - subst l. simpl. simpl in Hc. lia.
Qed.

Lemma show_struct_length (ts : list dtype) :
  List.length (show (TStruct ts)) = (List.length (show_list ts) + 2)%nat
  /\ List.length (show (TDictEntry ts)) = (List.length (show_list ts) + 2)%nat.
Proof.
  cbn [show]. fold (show_list ts). simpl List.length. rewrite !length_app.
  simpl. lia.
Qed.

Ltac python_exn := split; discriminate.

(** With a budget of the length of the signature and the size of the
    argument, a failure of [message_append_arg] has set an exception. *)
Lemma append_arg_raises (fuel : nat) :
  forall (t : dtype) (iter : DBusMessageIter) (arg : pyobj) (e : exn),
    (List.length (show t) + py_size arg <= fuel)%nat ->
    message_append_arg fuel iter (show t) arg = Raise e ->
    python_exception e.
Proof.
  induction fuel as [|fuel IH]; intros t iter arg e Hfuel.
  { pose proof (show_length_pos t). lia. }
  destruct t as [b|t|ts|ts].
  - (* basic types *)
    change (show (TBasic b)) with [basic_code b].
    destruct (int_range (basic_code b)) as [[lo hi]|] eqn:Er.
    { rewrite (append_arg_int_any _ lo hi fuel iter arg Er).
      destruct (negb (PyLong_Check arg)); [intros [= <-]; python_exn|].
      destruct ((lo <=? long_value arg) && (long_value arg <=? hi));
        [discriminate | intros [= <-]; python_exn]. }
    destruct b; try discriminate Er; cbn [basic_code].
    + rewrite append_arg_boolean. discriminate.
    + rewrite append_arg_double. unfold PyFloat_AsDouble.
      destruct arg; cbn [bind]; try (intros [= <-]; python_exn);
        try discriminate;
        destruct (Double.of_Z _); cbn [bind]; try discriminate;
        intros [= <-]; python_exn.
    + rewrite append_arg_text_any.
      destruct (negb (PyUnicode_Check arg)); [intros [= <-]; python_exn | discriminate].
    + rewrite append_arg_object_path_any.
      destruct (negb (PyUnicode_Check arg)); [intros [= <-]; python_exn|].
      destruct (negb (_check_path _)); [intros [= <-]; python_exn | discriminate].
    + rewrite append_arg_signature_any.
      destruct (negb (PyUnicode_Check arg)); [intros [= <-]; python_exn|].
      destruct (negb (_check_signature _ 0 0)); [intros [= <-]; python_exn | discriminate].
    + (* variant *)
      rewrite append_arg_variant_any. cbv zeta.
      destruct (negb (PySequence_Check arg)); [intros [= <-]; python_exn|].
      destruct (Z.eqb_spec (PySequence_Size arg) 2) as [Hsize|]; cbn [negb];
        [|intros [= <-]; python_exn].
      destruct (PyUnicode_Check (PySequence_GetItem arg 0)) eqn:Hu; cbn [negb];
        [|intros [= <-]; python_exn].
      pose proof (variant_measure arg Hsize Hu) as Hm.
      set (subtype := cstr (PyUnicode_AsUTF8 (PySequence_GetItem arg 0))) in *.
      destruct (_check_signature subtype 0 0) eqn:Ec; cbn [negb];
        [|intros [= <-]; python_exn].
      destruct (get_one_full_type subtype) as [end_|] eqn:Eg;
        [|intros [= <-]; python_exn].
      destruct (Ascii.eqb (nth end_ subtype NUL) NUL) eqn:En; cbn [negb];
        [|intros [= <-]; python_exn].
      apply Ascii.eqb_eq in En.
      destruct (variant_signature_one subtype end_ (cstr_idem_nul_free _) Ec Eg En)
        as (t' & Et).
      rewrite Et in *.
      destruct (message_append_arg fuel _ (show t') _) as [sub|e'] eqn:Es;
        cbn [bind]; [discriminate|].
      intros [= <-]. eapply IH; [|exact Es]. simpl in Hfuel. lia.
    + rewrite append_arg_unix_fd. intros [= <-]. python_exn.
  - (* arrays *)
    change (show (TArray t)) with ("a"%char :: show t) in *.
    rewrite append_arg_array. simpl List.length in Hfuel.
    destruct (Ascii.eqb (nth 0 (show t) NUL) DBUS_TYPE_BYTE).
    { destruct (negb (PyBytes_Check arg)); cbn [bind];
        [intros [= <-]; python_exn | discriminate]. }
    destruct (Ascii.eqb (nth 0 (show t) NUL) DBUS_DICT_ENTRY_BEGIN_CHAR).
    + destruct (negb (PyDict_Check arg)); cbn [bind]; [intros [= <-]; python_exn|].
      destruct (append_items _ _ _ _) as [sub|e'] eqn:Es; cbn [bind]; [discriminate|].
      intros [= <-]. apply append_items_raise in Es as (v & i & Hv & Es).
      apply py_size_dict_item in Hv.
      eapply IH; [|exact Es]. lia.
    + destruct (negb (PySequence_Check arg)); cbn [bind]; [intros [= <-]; python_exn|].
      destruct (append_items _ _ _ _) as [sub|e'] eqn:Es; cbn [bind]; [discriminate|].
      intros [= <-]. apply append_items_raise in Es as (v & i & Hv & Es).
      apply py_size_item in Hv.
      eapply IH; [|exact Es]. lia.
  - (* structs *)
    pose proof (py_size_pos arg) as Hpos.
    destruct (show_struct_length ts) as [Hlen _]. rewrite Hlen in Hfuel.
    destruct ts as [|t ts].
    { destruct (append_arg_empty (S fuel) iter "(" ")" arg) as (e' & He & Hp);
        [now left | now left|].
      change (show (TStruct [])) with ["("%char; ")"%char]. rewrite He.
      intros [= <-]. apply Hp. simpl in Hfuel. lia. }
    rewrite append_arg_struct_each.
    destruct (negb (PySequence_Check arg)); [intros [= <-]; python_exn|].
    destruct (append_each _ _ _ _) as [sub|e'] eqn:Es; cbn [bind]; [discriminate|].
    intros [= <-].
    apply append_each_raise in Es as [->|[->|(t' & v & i & Ht & Hv & Es)]];
      [python_exn | python_exn |].
    apply py_size_item in Hv.
    destruct (SigMore.depth_list_member t' _ Ht) as (_ & _ & Hl).
    eapply IH; [|exact Es]. lia.
  - (* dict entries *)
    pose proof (py_size_pos arg) as Hpos.
    destruct (show_struct_length ts) as [_ Hlen]. rewrite Hlen in Hfuel.
    destruct ts as [|t ts].
    { destruct (append_arg_empty (S fuel) iter "{" "}" arg) as (e' & He & Hp);
        [now right | now right|].
      change (show (TDictEntry [])) with ["{"%char; "}"%char]. rewrite He.
      intros [= <-]. apply Hp. simpl in Hfuel. lia. }
    rewrite append_arg_dict_entry_each.
    destruct (negb (PySequence_Check arg)); [intros [= <-]; python_exn|].
    destruct (append_each _ _ _ _) as [sub|e'] eqn:Es; cbn [bind]; [discriminate|].
    intros [= <-].
    apply append_each_raise in Es as [->|[->|(t' & v & i & Ht & Hv & Es)]];
      [python_exn | python_exn |].
    apply py_size_item in Hv.
    destruct (SigMore.depth_list_member t' _ Ht) as (_ & _ & Hl).
    eapply IH; [|exact Es]. lia.
Qed.

(** X10.  On arguments that are finite trees of objects, as the values
    of [pyobj] are (no list or dict holds itself; a [str], whose
    characters are [str] again, is one), the recursion of the encoder is
    no deeper than the length of the signature and the size of the
    arguments allow, and when [set_args] fails it has set a Python
    exception: no path returns the failure value with no exception
    pending.  Nothing is claimed for arguments with a reference cycle,
    on which the variant case, whose signature comes from the value, can
    recurse without end. *)
Theorem message_set_args_raises (message : list wire) (signature : string)
    (args : pyobj) (e : exn) :
  message_set_args message signature args = Raise e -> python_exception e.
Proof.
  intros H.
  apply message_set_args_accepted in H as [(ts & -> & _ & _ & H)|H];
    [|destruct H as [H|[H|H]]; injection H as ->; python_exn].
  destruct (append_each _ _ _ _) as [it|e'] eqn:E; cbn [bind] in H; [discriminate|].
  injection H as <-.
  apply append_each_raise in E as [->|[->|(t & v & i & Ht & Hv & E)]];
    [python_exn | python_exn |].
  apply py_size_item in Hv.
  destruct (SigMore.depth_list_member t _ Ht) as (_ & _ & Hl).
  eapply append_arg_raises; [|exact E]. unfold recursion_bound. lia.
Qed.

Lemma message_set_args_raises_witness :
  python_exception (TypeError "expecting str for `%c' format").
Proof.
  apply (message_set_args_raises [] "a(is)"
           (PyTuple [PyList [PyTuple [PyLong 1; PyLong 2]]])).
  reflexivity.
Defined.

(** *** The budget of the recursion *)

Lemma append_each_mono
    (f g : DBusMessageIter -> list ascii -> pyobj -> result DBusMessageIter)
    (ts : list dtype) :
  (forall t v i r, In t ts -> f i (show t) v = Ok r -> g i (show t) v = Ok r) ->
  forall (vs : list pyobj) (it r : DBusMessageIter),
    append_each f it ts vs = Ok r -> append_each g it ts vs = Ok r.
Proof.
  induction ts as [|t ts IH]; intros Hfg [|v vs] it r; cbn [append_each];
    try discriminate; [trivial|].
  destruct (f it (show t) v) as [i1|] eqn:E1; cbn [bind]; [|discriminate].
  rewrite (Hfg t v it i1 (or_introl eq_refl) E1). cbn [bind].
  apply IH. intros t' v' i r' Hin. apply Hfg. now right.
Qed.

Lemma append_items_mono
    (f g : DBusMessageIter -> list ascii -> pyobj -> result DBusMessageIter)
    (sig : list ascii) :
  (forall v i r, f i sig v = Ok r -> g i sig v = Ok r) ->
  forall (vs : list pyobj) (it r : DBusMessageIter),
    append_items f it sig vs = Ok r -> append_items g it sig vs = Ok r.
Proof.
  intros Hfg. induction vs as [|v vs IH]; intros it r; cbn [append_items]; [trivial|].
  destruct (f it sig v) as [i1|] eqn:E1; cbn [bind]; [|discriminate].
  rewrite (Hfg v it i1 E1). cbn [bind]. apply IH.
Qed.

(** A value written within some budget is written within any larger one. *)
Lemma append_arg_fuel_mono (fuel : nat) :
  forall (fuel' : nat) (t : dtype) (iter : DBusMessageIter) (arg : pyobj)
         (r : DBusMessageIter),
    (fuel <= fuel')%nat ->
    message_append_arg fuel iter (show t) arg = Ok r ->
    message_append_arg fuel' iter (show t) arg = Ok r.
Proof.
  induction fuel as [|fuel IH]; intros fuel' t iter arg r Hle; [discriminate|].
  destruct fuel' as [|fuel']; [lia|].
  assert (fuel <= fuel')%nat as Hle' by lia.
  destruct t as [b|t|ts|ts].
  - change (show (TBasic b)) with [basic_code b].
    destruct (int_range (basic_code b)) as [[lo hi]|] eqn:Er.
    { rewrite (append_arg_int_any _ lo hi fuel iter arg Er).
      rewrite (append_arg_int_any _ lo hi fuel' iter arg Er). trivial. }
    destruct b; try discriminate Er; cbn [basic_code];
      try (intros H; exact H).
    rewrite (append_arg_variant_any fuel), (append_arg_variant_any fuel'). cbv zeta.
    destruct (negb (PySequence_Check arg)); [trivial|].
    destruct (negb (PySequence_Size arg =? 2)); [trivial|].
    destruct (negb (PyUnicode_Check (PySequence_GetItem arg 0))); [trivial|].
    set (subtype := cstr (PyUnicode_AsUTF8 (PySequence_GetItem arg 0))).
    destruct (_check_signature subtype 0 0) eqn:Ec; [|trivial]. cbn [negb].
    destruct (get_one_full_type subtype) as [end_|] eqn:Eg; [|trivial].
    destruct (Ascii.eqb (nth end_ subtype NUL) NUL) eqn:En; [|trivial].
    cbn [negb]. apply Ascii.eqb_eq in En.
    destruct (variant_signature_one subtype end_ (cstr_idem_nul_free _) Ec Eg En)
      as (t' & Et).
    rewrite Et.
    destruct (message_append_arg fuel _ (show t') _) as [sub|] eqn:Es;
      cbn [bind]; [|discriminate].
    rewrite (IH fuel' t' _ _ sub Hle' Es). trivial.
  - change (show (TArray t)) with ("a"%char :: show t).
    rewrite (append_arg_array fuel), (append_arg_array fuel').
    destruct (Ascii.eqb (nth 0 (show t) NUL) DBUS_TYPE_BYTE); [trivial|].
    match goal with
    | |- (do subiter <- (do Parray <- ?P; _); _) = _ -> _ =>
        destruct P as [Parray|]; cbn [bind]; [|trivial]
    end.
    destruct (append_items (message_append_arg fuel) _ _ _) as [sub|] eqn:Es;
      cbn [bind]; [|discriminate].
    rewrite (append_items_mono _ (message_append_arg fuel') _
               (fun v i r' => IH fuel' t i v r' Hle') _ _ _ Es).
    trivial.
  - destruct ts as [|t ts].
    { destruct (append_arg_empty (S fuel) iter "(" ")" arg) as (e & He & _);
        [now left | now left|].
      change (show (TStruct [])) with ["("%char; ")"%char]. rewrite He. discriminate. }
    rewrite (append_arg_struct_each fuel), (append_arg_struct_each fuel').
    destruct (negb (PySequence_Check arg)); [trivial|].
    destruct (append_each (message_append_arg fuel) _ _ _) as [sub|] eqn:Es;
      cbn [bind]; [|discriminate].
    rewrite (append_each_mono _ (message_append_arg fuel') _
               (fun t' v i r' _ => IH fuel' t' i v r' Hle') _ _ _ Es).
    trivial.
  - destruct ts as [|t ts].
    { destruct (append_arg_empty (S fuel) iter "{" "}" arg) as (e & He & _);
        [now right | now right|].
      change (show (TDictEntry [])) with ["{"%char; "}"%char]. rewrite He. discriminate. }
    rewrite (append_arg_dict_entry_each fuel), (append_arg_dict_entry_each fuel').
    destruct (negb (PySequence_Check arg)); [trivial|].
    destruct (append_each (message_append_arg fuel) _ _ _) as [sub|] eqn:Es;
      cbn [bind]; [|discriminate].
    rewrite (append_each_mono _ (message_append_arg fuel') _
               (fun t' v i r' _ => IH fuel' t' i v r' Hle') _ _ _ Es).
    trivial.
Qed.

Lemma append_each_app
    (f : DBusMessageIter -> list ascii -> pyobj -> result DBusMessageIter)
    (ts1 ts2 : list dtype) (vs2 : list pyobj) :
  forall (vs1 : list pyobj) (it it1 : DBusMessageIter),
    append_each f it ts1 vs1 = Ok it1 ->
    append_each f it (ts1 ++ ts2) (vs1 ++ vs2) = append_each f it1 ts2 vs2.
Proof.
  induction ts1 as [|t ts1 IH]; intros [|v vs1] it it1; cbn [append_each app];
    try discriminate.
  - now intros [= <-].
  - destruct (f it (show t) v) as [i1|]; cbn [bind]; [|discriminate]. apply IH.
Qed.

Lemma py_size_tuple_app (l1 l2 : list pyobj) :
  S (py_size (PyTuple (l1 ++ l2))) = (py_size (PyTuple l1) + py_size (PyTuple l2))%nat.
Proof.
  induction l1 as [|x l1 IH]; [simpl; lia|].
  simpl app. cbn [py_size] in IH |- *. lia.
Qed.

Lemma py_size_sequence (a : pyobj) :
  PySequence_Check a = true ->
  (py_size a <= py_size (PyTuple (sequence_items a)))%nat.
Proof.
  destruct a as [|b|n|bits|s|s|l|l|d]; try discriminate; intros _;
    cbn [sequence_items].
  - cbn [py_size]. rewrite <- (bytes_length s).
    rewrite <- (utf8_chars_concat (bytes s)) at 1.
    induction (utf8_chars (bytes s)) as [|g gs IH]; [simpl; lia|].
    cbn [List.concat map py_size] in IH |- *.
    rewrite length_app, string_of_list_ascii_length. lia.
  - cbn [py_size]. rewrite <- (bytes_length s).
    induction (bytes s) as [|c r IH]; simpl in *; lia.
  - simpl. lia.
  - simpl. lia.
Qed.

Lemma text_app (a b : list dtype) : text (a ++ b) = (text a ++ text b)%string.
Proof.
  apply SigMore.bytes_inj. rewrite SigMore.bytes_append, !bytes_text.
  apply SigMore.show_list_app.
Qed.

Lemma set_args_iter (message ws : list wire) :
  push_all (dbus_message_iter_init_append message) ws
  = dbus_message_iter_init_append (message ++ ws).
Proof. reflexivity. Qed.

(** X11.  [set_args] adds to the arguments that a message holds: after two
    calls the message holds what one call with the two signatures and the
    two sequences of values, one after the other, gives it. *)
Theorem message_set_args_twice (message : list wire) (s1 s2 : string)
    (a1 a2 : pyobj) (m1 m2 : list wire) :
  message_set_args message s1 a1 = Ok m1 ->
  message_set_args m1 s2 a2 = Ok m2 ->
  (String.length s1 + String.length s2 <= 255)%nat ->
  message_set_args message (s1 ++ s2)
    (PyTuple (sequence_items a1 ++ sequence_items a2)) = Ok m2.
Proof.
  intros H1 H2 Hlen.
  apply message_set_args_accepted in H1 as [(ts1 & -> & Hc1 & Hq1 & H1)|H1];
    [|destruct H1 as [H1|[H1|H1]]; discriminate].
  apply message_set_args_accepted in H2 as [(ts2 & -> & Hc2 & Hq2 & H2)|H2];
    [|destruct H2 as [H2|[H2|H2]]; discriminate].
  destruct (append_each _ _ ts1 _) as [it1|] eqn:E1; cbn [bind] in H1; [|discriminate].
  injection H1 as ->.
  destruct (append_each _ _ ts2 _) as [it2|] eqn:E2; cbn [bind] in H2; [|discriminate].
  injection H2 as ->.
  pose proof E1 as E1'.
  apply (append_each_ok _ (fun _ _ => True)) in E1' as (ws1 & -> & _).
  2:{ intros t v i i' _ H. apply append_arg_well_formed in H as (w & -> & _).
      now exists w. }
  rewrite set_args_iter in E1, E2.
  change (items (dbus_message_iter_init_append (message ++ ws1)))
    with (message ++ ws1) in E2.
  rewrite <- text_app.
  assert (check_signature (text (ts1 ++ ts2)) = Ok true) as Hc.
  { apply check_signature_accepts in Hc1 as (u1 & Hb1 & Ha1 & Hs1 & _).
    apply check_signature_accepts in Hc2 as (u2 & Hb2 & Ha2 & Hs2 & _).
    apply check_signature_accepts. exists (u1 ++ u2).
    rewrite bytes_text in *.
    rewrite !SigMore.show_list_app, Hb1, Hb2,
      SigMore.array_depth_list_app, SigMore.struct_depth_list_app.
    split; [reflexivity|]. split; [lia|]. split; [lia|].
    rewrite text_app, <- bytes_length, SigMore.bytes_append, length_app, !bytes_length.
    exact Hlen. }
  rewrite (message_set_args_each message (ts1 ++ ts2)
             (PyTuple (sequence_items a1 ++ sequence_items a2)) Hc eq_refl).
  cbn [sequence_items].
  set (fuel := recursion_bound (show_list (ts1 ++ ts2))
                 (PyTuple (sequence_items a1 ++ sequence_items a2))).
  assert (recursion_bound (show_list ts1) a1 <= fuel
          /\ recursion_bound (show_list ts2) a2 <= fuel)%nat as [Hf1 Hf2].
  { unfold fuel, recursion_bound.
    rewrite SigMore.show_list_app, length_app.
    pose proof (py_size_tuple_app (sequence_items a1) (sequence_items a2)).
    pose proof (py_size_sequence a1 Hq1). pose proof (py_size_sequence a2 Hq2).
    pose proof (py_size_pos (PyTuple (sequence_items a1))).
    pose proof (py_size_pos (PyTuple (sequence_items a2))).
    split; lia. }
  apply (append_each_mono _ (message_append_arg fuel)) in E1;
    [|intros t v i r _; now apply append_arg_fuel_mono].
  apply (append_each_mono _ (message_append_arg fuel)) in E2;
    [|intros t v i r _; now apply append_arg_fuel_mono].
  rewrite (append_each_app _ ts1 ts2 _ _ _ _ E1), E2. reflexivity.
Qed.

Lemma message_set_args_twice_witness :
  message_set_args [] ("i" ++ "as")
    (PyTuple (sequence_items (PyTuple [PyLong 1])
              ++ sequence_items (PyList [PyTuple [PyUnicode "x"; PyUnicode "y"]])))
  = Ok [WBasic "i" (VInt 1);
        WContainer "a" (bytes "s")
          [WBasic "s" (VStr (bytes "x")); WBasic "s" (VStr (bytes "y"))]].
Proof.
  apply (message_set_args_twice [] "i" "as" (PyTuple [PyLong 1])
           (PyList [PyTuple [PyUnicode "x"; PyUnicode "y"]])
           [WBasic "i" (VInt 1)]).
  - reflexivity.
  - reflexivity.
  - simpl. lia.
Defined.

(** *** Lists and tuples *)

Lemma append_args_loop_items
    (f : DBusMessageIter -> list ascii -> pyobj -> result DBusMessageIter)
    (a b : pyobj) :
  sequence_items a = sequence_items b ->
  forall (n : nat) (iter : DBusMessageIter) (sig : list ascii) (cur : nat),
    message_append_args_loop f n iter sig a cur
    = message_append_args_loop f n iter sig b cur.
Proof.
  intros Hab. induction n as [|n IH]; intros iter sig cur; [reflexivity|].
  cbn [message_append_args_loop]. unfold PySequence_Size, PySequence_GetItem.
  rewrite Hab.
  destruct (Ascii.eqb (nth 0 sig NUL) NUL); [reflexivity|].
  destruct (get_one_full_type sig) as [end_|]; cbn [bind]; [|reflexivity].
  destruct (Z.of_nat cur =? Z.of_nat (List.length (sequence_items b))); [reflexivity|].
  destruct (f iter (take end_ sig) (nth cur (sequence_items b) PyNone));
    cbn [bind]; [|reflexivity].
  apply IH.
Qed.

Lemma append_arg_list_tuple (fuel : nat) (iter : DBusMessageIter)
    (sig : list ascii) (l : list pyobj) :
  message_append_arg fuel iter sig (PyList l)
  = message_append_arg fuel iter sig (PyTuple l).
Proof.
  destruct fuel as [|fuel]; [reflexivity|].
  cbn [message_append_arg].
  repeat match goal with
         | |- (if ?c then _ else _) = (if ?c then _ else _) => destruct c
         end;
    try reflexivity.
  - cbn [PySequence_Check negb]. unfold message_append_args_with.
    rewrite (append_args_loop_items _ (PyList l) (PyTuple l) eq_refl). reflexivity.
  - destruct (Ascii.eqb (nth 1 sig NUL) DBUS_TYPE_BYTE); [reflexivity|].
    destruct (Ascii.eqb (nth 1 sig NUL) DBUS_DICT_ENTRY_BEGIN_CHAR); reflexivity.
  - cbn [PySequence_Check negb]. unfold message_append_args_with.
    rewrite (append_args_loop_items _ (PyList l) (PyTuple l) eq_refl). reflexivity.
Qed.

Lemma read_items_loop_list (read_arg : wire -> result pyobj) (iter : list wire) :
  forall (l0 : list pyobj) (v : pyobj),
    read_items_loop read_arg iter (PyList l0) = Ok v -> exists l, v = PyList l.
Proof.
  induction iter as [|w iter IH]; intros l0 v; cbn [read_items_loop].
  - intros [= <-]. now exists l0.
  - destruct (read_arg w) as [Pitem|]; cbn [bind]; [|discriminate]. apply IH.
Qed.

(** X12.  The encoder does not tell a list from a tuple: where a struct, an
    array, a dict entry or a variant is written the two are taken alike,
    and so are the arguments of [set_args].  Read back, a struct is a tuple
    and an array a list, whichever was given (an array of bytes, which is
    read as [bytes], and an array of dict entries, which is read as a
    dict, are written from neither). *)
Theorem message_set_args_list_tuple :
  (forall (fuel : nat) (iter : DBusMessageIter) (sig : list ascii) (l : list pyobj),
      message_append_arg fuel iter sig (PyList l)
      = message_append_arg fuel iter sig (PyTuple l))
  /\ (forall (message : list wire) (sig : string) (l : list pyobj),
         message_set_args message sig (PyList l)
         = message_set_args message sig (PyTuple l))
  /\ (do body <- message_set_args [] "(is)ai"
                   (PyTuple [PyList [PyLong 1; PyUnicode "x"];
                             PyTuple [PyLong 2; PyLong 3]]);
      message_get_args body)
     = Ok (PyTuple [PyTuple [PyLong 1; PyUnicode "x"];
                    PyList [PyLong 2; PyLong 3]])
  /\ (forall (sig : list ascii) (contents : list wire) (v : pyobj),
         message_read_arg (WContainer DBUS_TYPE_STRUCT sig contents) = Ok v ->
         exists l, v = PyTuple l)
  /\ (forall (sig : list ascii) (contents : list wire) (v : pyobj),
         first_type_in_signature sig <> DBUS_TYPE_BYTE ->
         first_type_in_signature sig <> DBUS_TYPE_DICT_ENTRY ->
         message_read_arg (WContainer DBUS_TYPE_ARRAY sig contents) = Ok v ->
         exists l, v = PyList l).
Proof.
  split; [exact append_arg_list_tuple|].
  split; [|split; [reflexivity|split]].
  - intros message sig l. unfold message_set_args.
    destruct (PyArg_Parse_s sig) as [ptr|]; cbn [bind]; [|reflexivity].
    cbn [PySequence_Check negb].
    destruct (negb (_check_signature ptr 0 0)); [reflexivity|].
    unfold message_append_args, message_append_args_with.
    rewrite (append_args_loop_items _ (PyList l) (PyTuple l) eq_refl).
    reflexivity.
  - intros sig contents v. cbn [message_read_arg].
    change (Ascii.eqb DBUS_TYPE_STRUCT DBUS_TYPE_STRUCT) with true. cbv iota.
    destruct (message_read_args_loop message_read_arg contents []) as [l|];
      cbn [bind]; [|discriminate].
    intros [= <-]. now exists l.
  - intros sig contents v Hy He. cbn [message_read_arg].
    change (Ascii.eqb DBUS_TYPE_ARRAY DBUS_TYPE_STRUCT) with false.
    change (Ascii.eqb DBUS_TYPE_ARRAY DBUS_TYPE_ARRAY) with true. cbv iota zeta.
    apply Ascii.eqb_neq in Hy, He. rewrite Hy, He.
    apply read_items_loop_list.
Qed.

(** *** Text with a NUL inside *)

Lemma cstr_app_nul (a b : list ascii) : nul_free a -> cstr (a ++ NUL :: b) = a.
Proof.
  unfold cstr. induction a as [|c a IH]; intros Hnf; [reflexivity|].
  apply nul_free_cons in Hnf as [Hc Hnf]. simpl.
  rewrite (eqb_NUL_false c Hc). simpl. now rewrite IH.
Qed.

Lemma bytes_nul (s t : string) :
  bytes (s ++ String NUL t) = bytes s ++ NUL :: bytes t.
Proof. now rewrite SigMore.bytes_append. Qed.

(** X13.  A text is written up to its first NUL character: what follows the
    NUL is dropped without an error, for a string, an object path and a
    signature alike, and the text read back is the part in front of the
    NUL. *)
Theorem message_append_arg_nul (s t : string) :
  nul_free (bytes s) ->
  (forall (b : basic) (fuel : nat) (iter : DBusMessageIter),
      text_kind b = true ->
      message_append_arg (S fuel) iter [basic_code b] (PyUnicode (s ++ String NUL t))
      = message_append_arg (S fuel) iter [basic_code b] (PyUnicode s))
  /\ (forall message : list wire,
         message_set_args message "s" (PyTuple [PyUnicode (s ++ String NUL t)])
         = Ok (message ++ [WBasic "s" (VStr (bytes s))]))
  /\ (utf8_valid (bytes s) = true ->
      (do body <- message_set_args [] "s" (PyTuple [PyUnicode (s ++ String NUL t)]);
       message_get_args body)
      = Ok (PyTuple [PyUnicode s])).
Proof.
  intros Hnf.
  assert (cstr (bytes (s ++ String NUL t)) = bytes s) as Hc
    by (rewrite bytes_nul; now apply cstr_app_nul).
  assert (forall message : list wire,
             message_set_args message "s" (PyTuple [PyUnicode (s ++ String NUL t)])
             = Ok (message ++ [WBasic "s" (VStr (bytes s))])) as Hset.
  { intros message.
    change "s"%string with (text [TBasic String_]).
    rewrite (message_set_args_each message [TBasic String_]
               (PyTuple [PyUnicode (s ++ String NUL t)]) eq_refl eq_refl).
    cbn [sequence_items append_each show basic_code].
    change (recursion_bound (show_list [TBasic String_])
              (PyTuple [PyUnicode (s ++ String NUL t)]))
      with (S (py_size (PyTuple [PyUnicode (s ++ String NUL t)]))).
    rewrite append_arg_text_any. cbn [PyUnicode_Check negb bind PyUnicode_AsUTF8].
    rewrite Hc. reflexivity. }
  split; [|split; [exact Hset|]].
  - intros b fuel iter Hk. destruct b; try discriminate; cbn [basic_code].
    + rewrite !append_arg_text_any. cbn [PyUnicode_Check negb PyUnicode_AsUTF8].
      rewrite Hc, (cstr_nul_free _ Hnf). reflexivity.
    + rewrite !append_arg_object_path_any. cbn [PyUnicode_Check negb PyUnicode_AsUTF8].
      rewrite Hc, (cstr_nul_free _ Hnf). reflexivity.
    + rewrite !append_arg_signature_any. cbn [PyUnicode_Check negb PyUnicode_AsUTF8].
      rewrite Hc, (cstr_nul_free _ Hnf). reflexivity.
  - intros Hu. rewrite Hset. cbn [bind app message_get_args].
    unfold message_read_args. cbn [message_read_args_loop].
    pose proof (message_read_arg_text String_ s eq_refl Hnf Hu) as Hr.
    cbn [basic_code] in Hr. rewrite Hr. reflexivity.
Qed.

Lemma message_append_arg_nul_witness :
  message_set_args [] "s" (PyTuple [PyUnicode ("ab" ++ String NUL "cd")])
  = Ok ([] ++ [WBasic "s" (VStr (bytes "ab"))]).
Proof.
  refine (proj1 (proj2 (message_append_arg_nul "ab" "cd" _)) []).
  intros H. simpl in H. intuition discriminate.
Defined.

(** *** Variants *)

(** X14.  A variant is written from a pair of a signature and a value, and
    the signature has to be exactly one full type: with an accepted
    signature of one type the value is written against that type, inside
    a container that carries the signature; with the empty signature or
    with two types or more the encoder fails with a [ValueError]. *)
Theorem message_append_arg_variant (fuel : nat) (iter : DBusMessageIter)
    (ts : list dtype) (v : pyobj) :
  check_signature (text ts) = Ok true ->
  message_append_arg (S fuel) iter ["v"%char] (PyTuple [PyUnicode (text ts); v])
  = match ts with
    | [t] =>
        do subiter <- message_append_arg fuel
                        (dbus_message_iter_open_container "v" (show t)) (show t) v;
        Ok (dbus_message_iter_close_container iter subiter)
    | _ => Raise (ValueError "variant signature must be exactly one full type")
    end.
Proof.
  intros Hsig. apply check_signature_text_true in Hsig.
  rewrite append_arg_variant. cbv zeta.
  rewrite bytes_text, (cstr_nul_free _ (show_list_nul_free ts)), Hsig. cbn [negb].
  destruct ts as [|t [|t' ts]].
  - reflexivity.
  - unfold show_list. cbn [flat_map]. rewrite app_nil_r.
    pose proof (get_one_full_type_show t []) as Hg. rewrite app_nil_r in Hg.
    rewrite Hg, nth_overflow by lia. reflexivity.
  - rewrite show_list_cons, get_one_full_type_show.
    rewrite app_nth2 by lia.
    replace (List.length (show t) - List.length (show t))%nat with 0%nat by lia.
    rewrite show_list_cons.
    destruct (show_head t') as (c & rest & -> & Hc & _). cbn [app nth].
    rewrite (eqb_NUL_false c Hc). reflexivity.
Qed.

Lemma message_append_arg_variant_witness :
  message_append_arg 2 (dbus_message_iter_init_append []) ["v"%char]
    (PyTuple [PyUnicode (text [TBasic Int32; TBasic Int32]); PyLong 1])
  = Raise (ValueError "variant signature must be exactly one full type").
Proof.
  apply (message_append_arg_variant 1 (dbus_message_iter_init_append [])
           [TBasic Int32; TBasic Int32] (PyLong 1)).
  reflexivity.
Defined.

(** *** File descriptors *)

Lemma read_args_loop_app (before : list wire) :
  forall (acc vs : list pyobj),
    message_read_args_loop message_read_arg before acc = Ok vs ->
    forall rest,
      message_read_args_loop message_read_arg (before ++ rest) acc
      = message_read_args_loop message_read_arg rest vs.
Proof.
  induction before as [|w before IH]; intros acc vs H rest.
  - cbn in H. injection H as <-. reflexivity.
  - cbn [app message_read_args_loop] in H |- *.
    destruct (message_read_arg w) as [x|]; cbn [bind] in H |- *; [|discriminate].
    now apply IH.
Qed.

(** X15.  The type code ['h'] of a file descriptor passes the signature
    validator, but the codec has no case for it: the encoder fails on it
    with the error of an unknown format character whatever the value, and
    the decoder, meeting a value of that type after values that it can
    read, returns its failure value with no exception set. *)
Theorem unix_fd_unsupported :
  check_signature "h" = Ok true
  /\ (forall (fuel : nat) (iter : DBusMessageIter) (arg : pyobj),
         message_append_arg (S fuel) iter ["h"%char] arg
         = Raise (Error "unknown format character `%c'"))
  /\ (forall (message : list wire) (arg : pyobj),
         message_set_args message "h" (PyTuple [arg])
         = Raise (Error "unknown format character `%c'"))
  /\ (forall (before after : list wire) (vs : list pyobj) (value : basic_value),
         message_read_args_loop message_read_arg before [] = Ok vs ->
         message_get_args (before ++ WBasic "h" value :: after) = Raise NoError).
Proof.
  split; [reflexivity|]. split; [intros; reflexivity|]. split; [intros; reflexivity|].
  intros before after vs value Hread.
  assert (message_read_args (before ++ WBasic "h" value :: after) = Raise NoError) as H.
  { unfold message_read_args.
    rewrite (read_args_loop_app before [] vs Hread). reflexivity. }
  unfold message_get_args. destruct before; exact H.
Qed.

End CodecMore.

(** ** Message headers *)

Module HeaderProofs.
Import Py Num Names NumSpec Message MessageSpec NameProofs.

Lemma name_char_ascii (c : ascii) : name_char c = true -> code c < 128.
Proof.
  unfold name_char, isalnum, isalpha, isupper, islower, isdigit.
  cbn [existsb bytes list_ascii_of_string].
  rewrite !orb_true_iff, !andb_true_iff, !Z.leb_le, !Ascii.eqb_eq.
  intros H.
  repeat match type of H with
         | _ \/ _ => destruct H as [H|H]
         end; try lia; try (subst c; reflexivity); discriminate.
Qed.

Lemma name_read_back (s : list ascii) :
  nul_free s -> Forall (fun c => name_char c = true) s ->
  PyUnicode_FromString s = Ok (PyUnicode (string_of_list_ascii s)).
Proof.
  intros Hnf Hall. unfold PyUnicode_FromString, PyUnicode_FromStringAndSize.
  rewrite (cstr_nul_free s Hnf).
  rewrite SigApi.utf8_valid_ascii; [reflexivity|].
  eapply Forall_impl; [exact Hall|]. intros c. apply name_char_ascii.
Qed.

Lemma name_start_char (c : ascii) : Grammar.name_start c = true -> name_char c = true.
Proof.
  unfold Grammar.name_start, name_char, isalnum. cbn [existsb bytes list_ascii_of_string].
  rewrite !orb_true_iff. intros [H|H]; [left; now left | right; now left].
Qed.

Lemma name_part_char (c : ascii) : Grammar.name_part c = true -> name_char c = true.
Proof.
  unfold Grammar.name_part, name_char. cbn [existsb bytes list_ascii_of_string].
  rewrite !orb_true_iff. intros [H|H]; [now left | right; now left].
Qed.

Lemma element_chars (e : list ascii) :
  Grammar.element e -> Forall (fun c => name_char c = true) e.
Proof.
  destruct e as [|c r]; [intros []|]. intros [Hc Hr]. constructor.
  - now apply name_start_char.
  - eapply Forall_impl; [exact Hr|]. intros x. apply name_part_char.
Qed.

Lemma join_dots_chars (es : list (list ascii)) :
  Forall Grammar.element es ->
  Forall (fun c => name_char c = true) (Grammar.join_dots es).
Proof.
  induction 1 as [|e es He Hes IH]; [constructor|].
  cbn [Grammar.join_dots]. destruct es as [|e' es'].
  - now apply element_chars.
  - apply Forall_app. split; [now apply element_chars|].
    constructor; [reflexivity | exact IH].
Qed.

Lemma interface_chars (s : list ascii) :
  Grammar.interface s -> Forall (fun c => name_char c = true) s.
Proof. intros (es & _ & Hall & -> & _). now apply join_dots_chars. Qed.

Lemma member_chars (s : list ascii) :
  Grammar.member s -> Forall (fun c => name_char c = true) s.
Proof. intros [H _]. now apply element_chars. Qed.

Lemma path_chars (s : list ascii) :
  Grammar.path s -> Forall (fun c => name_char c = true) s.
Proof.
  intros (H0 & Hall & _). apply Forall_lookup. intros i c Hc.
  destruct i as [|i].
  - rewrite H0 in Hc. injection Hc as <-. reflexivity.
  - destruct (Hall (S i) c) as [H|[->|[-> _]]]; [lia | assumption | | |];
      try reflexivity.
    unfold name_char. now rewrite H.
Qed.

Lemma bus_name_chars (s : list ascii) :
  Grammar.bus_name s -> Forall (fun c => name_char c = true) s.
Proof.
  intros (_ & Hall & _). apply Forall_lookup. intros i c Hc.
  destruct (Hall i c Hc) as [H|[->|[->|[[-> _]|[[-> _]|[H _]]]]]];
    try reflexivity.
  - unfold name_char, isalnum. now rewrite H.
  - unfold name_char, isalnum. rewrite H. now rewrite orb_true_r.
Qed.

Ltac text_field_proof check grammar chars :=
  intros m s; cbv beta delta [message_set_path message_set_interface
    message_set_member message_set_error_name message_set_sender
    message_set_destination] iota zeta;
  cbn [PyUnicode_Check negb PyUnicode_AsUTF8];
  pose proof (CodecMore.cstr_idem_nul_free (bytes s)) as Hnf;
  pose proof (grammar (cstr (bytes s)) Hnf) as Hg;
  split;
  [ intros HG; pose proof (proj2 Hg HG) as Hc; rewrite Hc; cbn [negb];
    eexists; split; [reflexivity|];
    cbn; apply name_read_back; [exact Hnf | now apply chars]
  | intros HG; destruct (check (cstr (bytes s))) eqn:Hc;
    [ exfalso; apply HG, Hg; reflexivity
    | cbn [negb]; eexists; reflexivity ] ].

(** X16.  The text fields of the header hold names of their grammars only:
    [path] object paths, [interface] and [error_name] interface names,
    [member] member names, [sender] and [destination] bus names.  A
    setter given a [str] stores it, up to its first NUL, when it is such
    a name, and the getter then returns it; otherwise the setter fails
    with a [ValueError] and stores nothing. *)
Theorem message_text_fields (before : ascii) :
  text_field message_set_path message_get_path Grammar.path
  /\ text_field message_set_interface message_get_interface Grammar.interface
  /\ text_field message_set_member message_get_member Grammar.member
  /\ text_field message_set_error_name message_get_error_name Grammar.interface
  /\ text_field (message_set_sender before) message_get_sender Grammar.bus_name
  /\ text_field (message_set_destination before) message_get_destination
       Grammar.bus_name.
Proof.
  split; [|split; [|split; [|split; [|split]]]]; unfold text_field.
  - text_field_proof _check_path _check_path_grammar path_chars.
  - text_field_proof _check_interface _check_interface_grammar interface_chars.
  - text_field_proof _check_member _check_member_grammar member_chars.
  - text_field_proof _check_interface _check_interface_grammar interface_chars.
  - text_field_proof (_check_bus_name before)
      (_check_bus_name_grammar before) bus_name_chars.
  - text_field_proof (_check_bus_name before)
      (_check_bus_name_grammar before) bus_name_chars.
Qed.

(** X17.  A serial is an integer from 1 to 2^32 - 1: the setters of [serial]
    and [reply_serial] store such an integer, which the getters then
    return; they refuse 0 with a [ValueError] of their own and any other
    integer with the range error of the type code ['u'].  A serial that
    was never set reads as [None]. *)
Theorem message_serials (m : DBusMessage) (n : Z) :
  (1 <= n <= 2 ^ 32 - 1 ->
     message_set_serial (Some m) (PyLong n) = Ok (dbus_message_set_serial m n)
     /\ message_get_serial (Some (dbus_message_set_serial m n)) = Ok (PyLong n)
     /\ message_set_reply_serial (Some m) (PyLong n)
        = Ok (dbus_message_set_reply_serial m n)
     /\ message_get_reply_serial (Some (dbus_message_set_reply_serial m n))
        = Ok (PyLong n))
  /\ (n = 0 ->
        message_set_serial (Some m) (PyLong n)
        = Raise (ValueError "serial must be > 0")
        /\ message_set_reply_serial (Some m) (PyLong n)
           = Raise (ValueError "reply_serial must be > 0"))
  /\ (n < 0 \/ 2 ^ 32 - 1 < n ->
        message_set_serial (Some m) (PyLong n) = Raise range_error
        /\ message_set_reply_serial (Some m) (PyLong n) = Raise range_error)
  /\ (msg_serial m = 0 -> message_get_serial (Some m) = Ok PyNone)
  /\ (msg_reply_serial m = 0 -> message_get_reply_serial (Some m) = Ok PyNone).
Proof.
  pose proof (NumProofs.check_number_spec "u" 0 (2 ^ 32 - 1) n eq_refl) as Hc.
  unfold message_set_serial, message_set_reply_serial, message_get_serial,
    message_get_reply_serial.
  cbn [PyLong_Check negb]. rewrite Hc.
  split; [|split; [|split; [|split]]].
  - intros Hn.
    destruct (Z.leb_spec 0 n); [|lia].
    destruct (Z.leb_spec n (2 ^ 32 - 1)); [|lia]. cbn [andb bind].
    unfold PyLong_AsUnsignedLong. cbn [long_value].
    destruct (Z.leb_spec 0 n); [|lia].
    destruct (Z.leb_spec n (2 ^ 64 - 1)); [|lia]. cbn [andb].
    destruct (Z.eqb_spec n 0); [lia|].
    rewrite (NumProofs.wrap_unsigned_small 32 n) by lia.
    cbn [msg_serial msg_reply_serial dbus_message_set_serial
         dbus_message_set_reply_serial].
    rewrite (NumProofs.wrap_signed_small 64 n) by lia.
    destruct (Z.eqb_spec n 0); [lia|]. cbn [negb]. repeat split.
  - intros ->. split; reflexivity.
  - intros Hn.
    assert ((0 <=? n) && (n <=? 2 ^ 32 - 1) = false) as ->.
    { destruct (Z.leb_spec 0 n); destruct (Z.leb_spec n (2 ^ 32 - 1));
        try reflexivity; lia. }
    split; reflexivity.
  - intros ->. reflexivity.
  - intros ->. reflexivity.
Qed.

(** *** The signature of a message *)

Import DBus Codec Sig SigSpec CodecSpec SigTree.

Lemma wire_induction (P : wire -> Prop) :
  (forall type value, P (WBasic type value)) ->
  (forall type signature contents,
      Forall P contents -> P (WContainer type signature contents)) ->
  forall w, P w.
Proof.
  intros Hb Hc. fix IH 1. intros [type value|type signature contents].
  - apply Hb.
  - apply Hc. induction contents as [|w l IHl]; constructor; [apply IH | exact IHl].
Qed.

Lemma wire_signature_members (ws : list wire) :
  Forall (fun w => forall t, wire_ok w t -> wire_signature w = show t) ws ->
  forall ts, Forall2 wire_ok ws ts -> flat_map wire_signature ws = show_list ts.
Proof.
  induction 1 as [|w ws Hw _ IH]; intros ts H; inversion H; subst; [reflexivity|].
  cbn [flat_map]. rewrite show_list_cons. f_equal; [now apply Hw | now apply IH].
Qed.

Lemma wire_ok_signature (w : wire) :
  forall t, wire_ok w t -> wire_signature w = show t.
Proof.
  induction w as [type value|type signature contents IH] using wire_induction;
    intros t H; inversion H; subst; try reflexivity.
  - cbn [wire_signature]. change (Ascii.eqb "r" DBUS_TYPE_ARRAY) with false.
    change (Ascii.eqb "r" DBUS_TYPE_STRUCT) with true. cbv iota.
    rewrite (wire_signature_members _ IH ts) by assumption. reflexivity.
  - cbn [wire_signature]. change (Ascii.eqb "e" DBUS_TYPE_ARRAY) with false.
    change (Ascii.eqb "e" DBUS_TYPE_STRUCT) with false.
    change (Ascii.eqb "e" DBUS_TYPE_DICT_ENTRY) with true. cbv iota.
    rewrite (wire_signature_members _ IH ts) by assumption. reflexivity.
Qed.

(** X18.  The [signature] attribute follows [set_args]: after a call that
    succeeds the signature of the message is the one it had with the
    signature given to [set_args] after it, and on a message that had no
    argument the attribute reads as the signature given. *)
Theorem message_signature_set_args (message : list wire) (signature : string)
    (args : pyobj) (body : list wire) :
  message_set_args message signature args = Ok body ->
  dbus_message_get_signature body
  = dbus_message_get_signature message ++ bytes signature
  /\ (message = [] -> message_get_signature body = Ok (PyUnicode signature)).
Proof.
  intros H. apply CodecMore.message_set_args_appends in H as (ts & ws & -> & -> & Hws).
  assert (dbus_message_get_signature (message ++ ws)
          = dbus_message_get_signature message ++ bytes (text ts)) as E.
  { unfold dbus_message_get_signature. rewrite flat_map_app, bytes_text. f_equal.
    apply wire_signature_members; [|assumption].
    apply Forall_forall. intros w _. apply wire_ok_signature. }
  split; [exact E|]. intros ->. unfold message_get_signature.
  rewrite E. cbn [dbus_message_get_signature flat_map app].
  apply CodecProofs.PyUnicode_FromString_bytes.
  - rewrite bytes_text. apply show_list_nul_free.
  - rewrite bytes_text. apply SigApi.utf8_valid_ascii.
    eapply Forall_impl; [apply signature_char_show_list|].
    intros c. apply SigApi.signature_char_ascii.
Qed.

Lemma message_signature_set_args_witness :
  dbus_message_get_signature
    [WBasic "i" (VInt 1);
     WContainer "a" (bytes "{sv}")
       [WContainer "e" []
          [WBasic "s" (VStr (bytes "k"));
           WContainer "v" (bytes "d") [WBasic "d" (VDbl 0)]]]]
  = dbus_message_get_signature [WBasic "i" (VInt 1)] ++ bytes "a{sv}".
Proof.
  refine (proj1 (message_signature_set_args [WBasic "i" (VInt 1)] "a{sv}"
                   (PyTuple [PyDict [(PyUnicode "k",
                                      PyTuple [PyUnicode "d"; PyFloat 0])]])
                   _ _)).
  reflexivity.
Defined.

End HeaderProofs.

(** ** Argument codec: reading, then writing *)

Module ReadBackProofs.
Import Py Num DBus Sig Names Codec SigSpec NumSpec CodecSpec RoundTrip.
Import SigMem SigTree SigApi NumProofs DictProofs CodecProofs CodecMore.

Lemma dict_entry_wire_round_trips (K V : dtype) (wk wv : wire) :
  wire_round_trips wk K -> wire_round_trips wv V ->
  wire_round_trips (WContainer "e" [] [wk; wv]) (TDictEntry [K; V]).
Proof.
  intros (k & Hrk & Hek) (v & Hrv & Hev).
  exists (PyTuple [k; v]). split.
  - now apply message_read_arg_dict_entry.
  - intros fuel iter Hfuel.
    destruct fuel as [|fuel]; [simpl in Hfuel; lia|]. simpl in Hfuel.
    rewrite append_arg_dict_entry_each.
    cbn [PySequence_Check negb sequence_items append_each].
    rewrite Hek by lia. cbn [bind]. rewrite Hev by lia. reflexivity.
Qed.

(** A value in the form in which the encoder writes it is read as a
    Python value that the encoder writes in that very form. *)
Lemma canonical_round_trip :
  (forall w t, canonical w t -> wire_round_trips w t)
  /\ (forall ws ts, canonical_list ws ts -> wires_round_trip ws ts)
  /\ (forall ws t, canonical_items ws t -> wire_items_round_trip ws t)
  /\ (forall ws K V, canonical_entries ws K V -> wire_entries_round_trip ws K V).
Proof.
  apply canonical_mutual.
  - (* integers *)
    intros b lo hi n Hr Hn. exists (PyLong n).
    split; [eapply message_read_arg_int; exact Hr|].
    intros fuel iter Hfuel. destruct fuel as [|fuel]; [simpl in Hfuel; lia|].
    change (show (TBasic b)) with [basic_code b].
    rewrite (message_append_arg_int _ lo hi n fuel iter Hr).
    assert ((lo <=? n) && (n <=? hi) = true) as ->
      by (apply andb_true_iff; split; apply Z.leb_le; lia).
    reflexivity.
  - (* booleans *)
    intros x. exists (PyBool x). split; [destruct x; reflexivity|].
    intros fuel iter Hfuel. destruct fuel as [|fuel]; [simpl in Hfuel; lia|].
    change (show (TBasic Boolean)) with ["b"%char].
    rewrite append_arg_boolean. destruct x; reflexivity.
  - (* doubles *)
    intros bits. exists (PyFloat bits). split; [reflexivity|].
    intros fuel iter Hfuel. destruct fuel as [|fuel]; [simpl in Hfuel; lia|].
    change (show (TBasic Double_)) with ["d"%char].
    rewrite append_arg_double. reflexivity.
  - (* text *)
    intros b s Hk Hnf Hu Hpath Hsig. exists (PyUnicode s).
    split; [now apply message_read_arg_text|].
    intros fuel iter Hfuel. destruct fuel as [|fuel]; [simpl in Hfuel; lia|].
    destruct b; try discriminate.
    + change (show (TBasic String_)) with ["s"%char].
      rewrite append_arg_string. now rewrite cstr_nul_free.
    + change (show (TBasic ObjectPath)) with ["o"%char].
      rewrite append_arg_object_path. rewrite cstr_nul_free by assumption.
      rewrite (Hpath eq_refl). reflexivity.
    + change (show (TBasic Signature)) with ["g"%char].
      rewrite append_arg_signature. rewrite cstr_nul_free by assumption.
      rewrite (Hsig eq_refl). reflexivity.
  - (* variants *)
    intros t w Hc _ (v & Hr & He).
    exists (PyTuple [PyUnicode (text [t]); v]). split.
    + cbn. unfold PyUnicode_FromString, PyUnicode_FromStringAndSize.
      rewrite cstr_show, utf8_valid_show. cbn [bind]. rewrite Hr. cbn [bind].
      unfold text, show_list. simpl. now rewrite app_nil_r.
    + intros fuel iter Hfuel. destruct fuel as [|fuel]; [simpl in Hfuel; lia|].
      change (show (TBasic Variant)) with ["v"%char].
      rewrite append_arg_variant. cbv zeta.
      rewrite bytes_text_one, cstr_show, Hc. cbn [negb].
      pose proof (get_one_full_type_show t []) as Hg. rewrite app_nil_r in Hg.
      rewrite Hg. rewrite nth_overflow by lia.
      change (Ascii.eqb NUL NUL) with true. cbn [negb].
      rewrite He by (simpl in Hfuel; lia). reflexivity.
  - (* byte arrays *)
    intros data. exists (PyBytes data). split.
    + cbn -[dbus_message_iter_get_fixed_array].
      rewrite fixed_array_bytes. unfold PyBytes_FromStringAndSize.
      now rewrite string_of_bytes.
    + intros fuel iter Hfuel. destruct fuel as [|fuel]; [simpl in Hfuel; lia|].
      change (show (TArray (TBasic Byte))) with ("a"%char :: ["y"%char]).
      rewrite append_arg_array. reflexivity.
  - (* dicts *)
    intros K V entries _ (kvs & Hread & Henc) Hwf.
    specialize (Hwf kvs Hread).
    exists (PyDict kvs). split.
    + cbn [message_read_arg].
      change (Ascii.eqb "a" DBUS_TYPE_STRUCT) with false.
      change (Ascii.eqb "a" DBUS_TYPE_ARRAY) with true.
      change (first_type_in_signature (show (TDictEntry [K; V])))
        with DBUS_TYPE_DICT_ENTRY.
      change (Ascii.eqb DBUS_TYPE_DICT_ENTRY DBUS_TYPE_BYTE) with false.
      change (Ascii.eqb DBUS_TYPE_DICT_ENTRY DBUS_TYPE_DICT_ENTRY) with true.
      cbv iota.
      rewrite (read_items_loop_dict entries kvs Hread (dict_wf_hashable kvs Hwf)).
      rewrite (dict_wf_fold kvs Hwf []) by constructor. reflexivity.
    + intros fuel iter Hfuel. destruct fuel as [|fuel]; [simpl in Hfuel; lia|].
      change (show (TArray (TDictEntry [K; V])))
        with ("a"%char :: show (TDictEntry [K; V])).
      rewrite append_arg_array.
      change (nth 0 (show (TDictEntry [K; V])) NUL) with "{"%char.
      change (Ascii.eqb "{" DBUS_TYPE_BYTE) with false.
      change (Ascii.eqb "{" DBUS_DICT_ENTRY_BEGIN_CHAR) with true.
      cbn [PyDict_Check negb bind PyDict_Items sequence_items].
      rewrite Henc by (apply py_size_entries; apply le_S_n; exact Hfuel).
      reflexivity.
  - (* arrays *)
    intros t ws Hb Hd _ (vs & Hr & He).
    exists (PyList vs). split.
    + cbn [message_read_arg].
      change (Ascii.eqb "a" DBUS_TYPE_STRUCT) with false.
      change (Ascii.eqb "a" DBUS_TYPE_ARRAY) with true.
      destruct (first_type_show t Hb Hd) as [-> ->]. cbv iota.
      apply (Hr []).
    + intros fuel iter Hfuel. destruct fuel as [|fuel]; [simpl in Hfuel; lia|].
      change (show (TArray t)) with ("a"%char :: show t).
      rewrite append_arg_array.
      assert (Ascii.eqb (nth 0 (show t) NUL) DBUS_TYPE_BYTE = false) as ->.
      { apply Ascii.eqb_neq. intros H. apply Hb. now apply show_head_byte. }
      assert (Ascii.eqb (nth 0 (show t) NUL) DBUS_DICT_ENTRY_BEGIN_CHAR = false) as ->.
      { apply Ascii.eqb_neq. intros H. apply show_head_dict_entry in H as [l ->].
        now apply (Hd l). }
      cbn [PySequence_Check negb bind sequence_items].
      rewrite He by (apply py_size_items; apply le_S_n; exact Hfuel).
      reflexivity.
  - (* structs *)
    intros t ts ws _ (vs & Hr & He).
    exists (PyTuple vs). split.
    + cbn [message_read_arg].
      change (Ascii.eqb "r" DBUS_TYPE_STRUCT) with true. cbv iota.
      rewrite (Hr []). reflexivity.
    + intros fuel iter Hfuel. destruct fuel as [|fuel]; [simpl in Hfuel; lia|].
      rewrite append_arg_struct_each. cbn [PySequence_Check negb sequence_items].
      rewrite He by (apply py_size_items; apply le_S_n; exact Hfuel).
      reflexivity.
  - (* dict entries *)
    intros K V wk wv _ IHk _ IHv. now apply dict_entry_wire_round_trips.
  - (* no member *)
    exists []. split.
    + intros acc. cbn. now rewrite app_nil_r.
    + intros fuel iter _. cbn [append_each]. now rewrite push_all_nil.
  - (* a member and the rest *)
    intros w ws t ts _ (v & Hr & He) _ (vs & Hrs & Hes).
    exists (v :: vs). split.
    + intros acc. cbn [message_read_args_loop]. rewrite Hr. cbn [bind].
      rewrite Hrs. now rewrite <- app_assoc.
    + intros fuel iter Hfuel. inversion Hfuel as [|? ? Hv Hvs]; subst.
      cbn [append_each]. rewrite He by assumption. cbn [bind].
      rewrite Hes by assumption. now rewrite push_push_all.
  - (* no item *)
    intros t. exists []. split.
    + intros acc. cbn. now rewrite app_nil_r.
    + intros fuel iter _. cbn [append_items]. now rewrite push_all_nil.
  - (* an item and the rest *)
    intros w ws t _ (v & Hr & He) _ (vs & Hrs & Hes).
    exists (v :: vs). split.
    + intros acc. cbn [read_items_loop]. rewrite Hr. cbn [bind].
      rewrite Hrs. now rewrite <- app_assoc.
    + intros fuel iter Hfuel. inversion Hfuel as [|? ? Hv Hvs]; subst.
      cbn [append_items]. rewrite He by assumption. cbn [bind].
      rewrite Hes by assumption. now rewrite push_push_all.
  - (* no entry *)
    intros K V. exists []. split; [constructor|].
    intros fuel iter _. cbn [map append_items]. now rewrite push_all_nil.
  - (* an entry and the rest *)
    intros K V wk wv ws _ IHk _ IHv _ (kvs & Hrs & Hes).
    destruct (dict_entry_wire_round_trips K V wk wv IHk IHv) as (kv & Hr & He).
    assert (exists k v, kv = PyTuple [k; v]) as (k & v & ->).
    { destruct IHk as (k & Hk & _). destruct IHv as (v & Hv & _).
      exists k, v.
      pose proof (message_read_arg_dict_entry [] wk wv [] k v Hk Hv) as Hr'.
      change (WContainer DBUS_TYPE_DICT_ENTRY [] [wk; wv])
        with (WContainer "e" [] [wk; wv]) in Hr'.
      congruence. }
    exists ((k, v) :: kvs). split; [constructor; assumption|].
    intros fuel iter Hfuel. inversion Hfuel as [|? ? Hkv Hkvs]; subst.
    cbn [map append_items fst snd].
    rewrite He by (cbn [fst snd] in Hkv; simpl; lia). cbn [bind].
    rewrite Hes by assumption. now rewrite push_push_all.
Qed.

(** X19.  Reading, then writing: when the arguments of a message are in the
    form in which the encoder writes values of the types of a signature,
    [args] returns values that [set_args], given that signature, writes
    as the very same arguments. *)
Theorem decode_encode_round_trip (ts : list dtype) (body : list wire) :
  check_signature (text ts) = Ok true ->
  canonical_list body ts ->
  exists vs,
    message_get_args body = Ok (PyTuple vs)
    /\ message_set_args [] (text ts) (PyTuple vs) = Ok body.
Proof.
  intros Hsig Hbody.
  destruct canonical_round_trip as (_ & Hlist & _).
  destruct (Hlist body ts Hbody) as (vs & Hr & He).
  exists vs. split.
  - unfold message_get_args, message_read_args.
    destruct body as [|w body].
    + specialize (Hr []). cbn in Hr. now injection Hr as <-.
    + rewrite (Hr []). reflexivity.
  - rewrite (message_set_args_each [] ts (PyTuple vs) Hsig eq_refl).
    cbn [sequence_items]. rewrite He; [reflexivity|].
    apply py_size_items. unfold recursion_bound.
    change (py_size (PyTuple vs))
      with (S ((fix sizes (l : list pyobj) : nat :=
                  match l with
                  | [] => O
                  | x :: l' => (py_size x + sizes l')%nat
                  end) vs)).
    lia.
Qed.

Lemma decode_encode_round_trip_witness :
  exists vs,
    message_get_args
      [WBasic "u" (VInt 7);
       WContainer "a" (bytes "(sb)")
         [WContainer "r" [] [WBasic "s" (VStr (bytes "x")); WBasic "b" (VInt 1)]]]
    = Ok (PyTuple vs)
    /\ message_set_args [] "ua(sb)" (PyTuple vs)
       = Ok [WBasic "u" (VInt 7);
             WContainer "a" (bytes "(sb)")
               [WContainer "r" []
                  [WBasic "s" (VStr (bytes "x")); WBasic "b" (VInt 1)]]].
Proof.
  apply (decode_encode_round_trip
           [TBasic UInt32; TArray (TStruct [TBasic String_; TBasic Boolean])]).
  - reflexivity.
  - constructor; [|constructor; [|constructor]].
    + apply (CN_int UInt32 0 (2 ^ 32 - 1) 7); [reflexivity | lia].
    + apply (CN_array (TStruct [TBasic String_; TBasic Boolean]));
        [discriminate | discriminate |].
      constructor; [|constructor].
      apply CN_struct. constructor; [|constructor; [|constructor]].
      * apply (CN_text String_ "x"); try reflexivity; try discriminate.
        intros H. simpl in H. intuition discriminate.
      * apply (CN_boolean true).
Defined.

End ReadBackProofs.
